(** * Page / Component Object layer of the Playwright examples repository

    The repository is JavaScript test code over the Playwright framework.
    This development embeds the Page Object and Component Object classes
    (components/HeaderComponent.js, components/FooterComponent.js,
    pages/BasePage.js, pages/LoginPage.js, pages/DashboardPage.js,
    pages/ProductPage.js), the SOLID strategy hierarchies, the route
    handlers of e2e/interceptor-examples.spec.js and the cookie scenario
    of e2e/context-examples.spec.js, and proves properties of them.

    Objects live in a heap and are dictionaries from field names to
    values, as in JavaScript.  Asynchronous methods are computations in a
    state-and-exception monad: the scripts await every framework call in
    sequence, so a method is a sequential program over the browser state.
    The browser itself (what a locator matches on the current page, what a
    click does to the page) is a parameter, and so is the JavaScript
    engine (its numbers, its strings, [JSON.parse] and
    [JSON.stringify]). *)

From Stdlib Require Import ZArith.
From stdpp Require Import base strings gmap list pretty.

Local Open Scope string_scope.

(** ** Locators: deferred queries *)

(** A text matcher: a literal string or a regular expression literal
    [/source/flags]. *)
Inductive Pattern :=
| Text (s : string)
| RegExp (source flags : string).

(** Handle of a browser tab (the [page] fixture). *)
Definition Page := nat.

(** Selection strategies of the framework. *)
Inductive Selector :=
| Css (selector : string)
| TestId (id : string)
| Role (role : string) (name : option Pattern)
| ByText (p : Pattern)
| Label (s : string)
| Placeholder (s : string).

(** A locator is a description of how to find elements; building one
    does not look at the page. *)
Inductive Locator :=
| OnPage (p : Page) (sel : Selector)
| Within (parent : Locator) (sel : Selector)
| Or (a b : Locator)
| First (a : Locator)
| Nth (a : Locator) (i : nat)
| Filter (a : Locator) (hasText : Pattern).

(** Locators are plain data and can be compared. *)
Global Instance Pattern_eq_dec : EqDecision Pattern.
Proof. solve_decision. Defined.
Global Instance Selector_eq_dec : EqDecision Selector.
Proof. solve_decision. Defined.
Global Instance Locator_eq_dec : EqDecision Locator.
Proof. solve_decision. Defined.

(** ** Values and heap objects *)

#[warnings="-register-all"]
Inductive Val :=
| VUndefined
| VNull
| VBool (b : bool)
| VNum (n : Z)
| VStr (s : string)
| VPage (p : Page)
| VLocator (l : Locator)
| VRef (a : nat)
| VArray (xs : list Val).

Record Obj := mkObj { cls : string; fields : gmap string Val }.

(** [this.k = v] *)
Definition set (k : string) (v : Val) (this : Obj) : Obj :=
  {| cls := cls this; fields := <[k := v]> (fields this) |}.

(** [this.k]: a missing property reads as [undefined]. *)
Definition get (k : string) (this : Obj) : Val :=
  default VUndefined (fields this !! k).

(** The object [new C] starts from, before the constructor body runs. *)
Definition blank (C : string) : Obj := {| cls := C; fields := ∅ |}.

(** The builder methods of [page] and of a locator. They are synchronous
    and return a locator value. *)
Definition page_locator (page : Page) (selector : string) : Locator :=
  OnPage page (Css selector).
Definition page_getByTestId (page : Page) (id : string) : Locator :=
  OnPage page (TestId id).
Definition page_getByRole (page : Page) (role : string) (name : option Pattern) : Locator :=
  OnPage page (Role role name).
Definition page_getByText (page : Page) (p : Pattern) : Locator :=
  OnPage page (ByText p).
Definition page_getByLabel (page : Page) (s : string) : Locator :=
  OnPage page (Label s).
Definition page_getByPlaceholder (page : Page) (s : string) : Locator :=
  OnPage page (Placeholder s).
Definition loc_locator (l : Locator) (selector : string) : Locator :=
  Within l (Css selector).
Definition loc_getByRole (l : Locator) (role : string) (name : option Pattern) : Locator :=
  Within l (Role role name).
Definition loc_getByText (l : Locator) (p : Pattern) : Locator :=
  Within l (ByText p).

(** ** The browser *)

(** An element of the rendered page, as far as the page objects observe
    it: its text content (never null for an element node) and whether it
    is visible. *)
Record Element := mkElement { el_text : string; el_visible : bool }.

(** What a script can do to the browser. *)
Inductive Action :=
| Click (l : Locator)
| Fill (l : Locator) (value : string)
| Press (p : Page) (key : string)
| SelectOption (l : Locator) (value : string)
| Check (l : Locator)
| ScrollIntoView (l : Locator)
| Goto (p : Page) (url : string)
| ApiPost (url : string) (message : string).

(** Framework calls leave a trace: every resolution of a locator against
    the page, every action carried out, every console line. *)
Inductive Event :=
| Resolved (l : Locator)
| Did (a : Action)
| Console (line : string).

(** User-facing actions: clicks, fills, key presses and the like. *)
Definition user_facing (e : Event) : bool :=
  match e with
  | Did (Click _) | Did (Fill _ _) | Did (Press _ _) | Did (SelectOption _ _)
  | Did (Check _) | Did (ScrollIntoView _) | Did (Goto _ _) => true
  | _ => false
  end.

Definition is_resolution (e : Event) : bool :=
  match e with Resolved _ => true | _ => false end.

(** Exceptions. *)
Inductive Err :=
| TimeoutError
| StrictModeViolation
| TypeError
| SyntaxError
| AssertionError (msg : string)
| Error (msg : string).

(** The browser is a parameter: the set of page states, the elements a
    locator matches in a state, and the effect of an action ([None] when
    the framework gives up on it).  When it is an action of the page
    itself that is not carried out (a navigation, a key press, a
    request), [times_out] tells whether the framework waited and timed
    out or refused at once.  So is the regular-expression engine:
    [regexp_compiles src] tells whether [new RegExp(src, 'i')] succeeds. *)
Class Browser := {
  World : Type;
  resolve : World → Locator → list Element;
  perform : World → Action → option World;
  times_out : World → Action → bool;
  regexp_compiles : string → bool
}.

(** ** The JavaScript engine

    A JavaScript number is an IEEE double: it may be a fraction, an
    infinity or NaN, and [toString()] switches to exponent notation from
    1e21 on.  A JavaScript string is a sequence of UTF-16 code units.
    The code under study never computes with either: it tests a number
    for truthiness, prints it, writes numeric and string literals,
    compares strings and spreads them.  Numbers and strings are therefore
    a parameter too, with exactly these operations:

    - [number_truthy n]: [ToBoolean(n)], false for 0, -0 and NaN only;
    - [number_toString n]: [n.toString()], an ASCII text;
    - [num z]: the value of the decimal integer literal [z] (the code
      writes 1 and 999);
    - [lit s]: the string whose code units are the bytes of [s] (the
      literals of the code are ASCII);
    - [units s]: the one-unit strings [s[0]], [s[1]], ... of [s];
    - [selector_parses text]: whether the selector engine of the
      framework accepts [text]; a locator built from a text it rejects
      throws when it is used. *)
Class Engine := {
  number : Type;
  number_truthy : number → bool;
  number_toString : number → string;
  num : Z → number;
  jsstring : Type;
  jsstring_eq_dec :: EqDecision jsstring;
  jsstring_countable :: Countable jsstring;
  lit : string → jsstring;
  lit_inj :: Inj (=) (=) lit;
  units : jsstring → list jsstring;
  selector_parses : string → bool
}.

(** ** The monad of scripts *)

Module Playwright.
Section Calls.
Context `{B : Browser}.

(** State of a running scenario: the page, the object heap, the trace. *)
Record St := mkSt { world : World; heap : list Obj; trace : list Event }.

(** A computation returns a value or throws; both leave a state. *)
Inductive Outcome (A : Type) :=
| Ok (a : A) (s : St)
| Fault (e : Err) (s : St).
Global Arguments Ok {A} a s.
Global Arguments Fault {A} e s.

Definition M (A : Type) : Type := St → Outcome A.

Definition ret {A} (a : A) : M A := fun s => Ok a s.

Definition bind {A C} (m : M A) (k : A → M C) : M C :=
  fun s => match m s with
           | Ok a s' => k a s'
           | Fault e s' => Fault e s'
           end.

Definition throw {A} (e : Err) : M A := fun s => Fault e s.

(** [promise.catch(handler)] *)
Definition catch {A} (m : M A) (handler : Err → M A) : M A :=
  fun s => match m s with
           | Ok a s' => Ok a s'
           | Fault e s' => handler e s'
           end.

Definition log (e : Event) (s : St) : St :=
  {| world := world s; heap := heap s; trace := trace s ++ [e] |}.

Definition with_world (w : World) (s : St) : St :=
  {| world := w; heap := heap s; trace := trace s |}.

(** The state a computation ends in, and the events it added. *)
Definition final {A} (o : Outcome A) : St :=
  match o with Ok _ s => s | Fault _ s => s end.

Definition raised {A} (o : Outcome A) : bool :=
  match o with Ok _ _ => false | Fault _ _ => true end.

(** *** Heap *)

(** [new]: the finished object is stored at a fresh address. *)
Definition alloc (o : Obj) : M nat :=
  fun s => Ok (length (heap s))
              {| world := world s; heap := heap s ++ [o]; trace := trace s |}.

(** [this.k] *)
Definition field (this : nat) (k : string) : M Val :=
  fun s => match heap s !! this with
           | Some o => Ok (get k o) s
           | None => Fault TypeError s
           end.

(** [this.k] used as the receiver of a locator method: anything but a
    locator there is a [TypeError]. *)
Definition field_locator (this : nat) (k : string) : M Locator :=
  fun s => match heap s !! this with
           | Some o => match get k o with
                       | VLocator l => Ok l s
                       | _ => Fault TypeError s
                       end
           | None => Fault TypeError s
           end.

Definition field_page (this : nat) (k : string) : M Page :=
  fun s => match heap s !! this with
           | Some o => match get k o with
                       | VPage p => Ok p s
                       | _ => Fault TypeError s
                       end
           | None => Fault TypeError s
           end.

Definition field_ref (this : nat) (k : string) : M nat :=
  fun s => match heap s !! this with
           | Some o => match get k o with
                       | VRef a => Ok a s
                       | _ => Fault TypeError s
                       end
           | None => Fault TypeError s
           end.

(** *** Framework calls

    Playwright is not part of the repository.  Its calls get the
    behaviour its documentation gives them: [count] and [isVisible]
    look at the page as it is and do not wait; an operation that targets
    one element ([click], [fill], [selectOption], [check],
    [scrollIntoViewIfNeeded], [textContent]) is strict, it throws when
    the locator matches several elements, and it waits for a match and
    throws on time-out when there is none.  Whether an action on the one
    match goes through is up to the browser. *)

(** [locator.count()]: the number of matches, whatever it is. *)
Definition count (l : Locator) : M nat :=
  fun s => Ok (length (resolve (world s) l)) (log (Resolved l) s).

(** An action on a locator is strict: it needs exactly one match. With
    none it waits and times out, with several it refuses. *)
Definition interact (a : Action) (l : Locator) : M unit :=
  fun s => match resolve (world s) l with
           | [] => Fault TimeoutError (log (Resolved l) s)
           | [_] => match perform (world s) a with
                    | Some w => Ok tt (log (Did a) (with_world w (log (Resolved l) s)))
                    | None => Fault TimeoutError (log (Resolved l) s)
                    end
           | _ => Fault StrictModeViolation (log (Resolved l) s)
           end.

Definition click (l : Locator) : M unit := interact (Click l) l.
Definition fill (l : Locator) (value : string) : M unit := interact (Fill l value) l.
Definition selectOption (l : Locator) (value : string) : M unit :=
  interact (SelectOption l value) l.
Definition check (l : Locator) : M unit := interact (Check l) l.
Definition scrollIntoViewIfNeeded (l : Locator) : M unit := interact (ScrollIntoView l) l.

(** The calls that take a selector, [page.click(selector)] and
    [page.fill(selector, value)], are not strict: they wait for a match
    and act on the first one. *)
Definition interact_first (a : Action) (l : Locator) : M unit :=
  fun s => match resolve (world s) l with
           | [] => Fault TimeoutError (log (Resolved l) s)
           | _ :: _ => match perform (world s) a with
                       | Some w => Ok tt (log (Did a) (with_world w (log (Resolved l) s)))
                       | None => Fault TimeoutError (log (Resolved l) s)
                       end
           end.

(** [locator.textContent()]: strict as well. *)
Definition textContent (l : Locator) : M Val :=
  fun s => match resolve (world s) l with
           | [] => Fault TimeoutError (log (Resolved l) s)
           | [e] => Ok (VStr (el_text e)) (log (Resolved l) s)
           | _ => Fault StrictModeViolation (log (Resolved l) s)
           end.

(** [locator.isVisible()]: does not wait; no match is "not visible";
    several matches are a strict-mode violation. *)
Definition isVisible (l : Locator) : M bool :=
  fun s => match resolve (world s) l with
           | [] => Ok false (log (Resolved l) s)
           | [e] => Ok (el_visible e) (log (Resolved l) s)
           | _ => Fault StrictModeViolation (log (Resolved l) s)
           end.

(** Actions on the page itself: a navigation, a key press, a request.
    One that does not complete in time is a [TimeoutError]; one the
    browser refuses (a URL it cannot navigate to, a connection it cannot
    open) fails at once with a plain [Error]. *)
Definition page_action (a : Action) : M unit :=
  fun s => match perform (world s) a with
           | Some w => Ok tt (log (Did a) (with_world w s))
           | None =>
               if times_out (world s) a then Fault TimeoutError s
               else Fault (Error "the browser refused the action") s
           end.

Definition keyboard_press (page : Page) (key : string) : M unit :=
  page_action (Press page key).
Definition page_goto (page : Page) (url : string) : M unit :=
  page_action (Goto page url).
Definition request_post (url : string) (message : string) : M unit :=
  page_action (ApiPost url message).

Definition console_log (line : string) : M unit :=
  fun s => Ok tt (log (Console line) s).

(** [new RegExp(source, flags)] throws on a malformed source. *)
Definition new_RegExp (source flags : string) : M Pattern :=
  fun s => if regexp_compiles source then Ok (RegExp source flags) s
           else Fault SyntaxError s.

End Calls.
End Playwright.
Export Playwright.

(** Sequencing is written [x ← m; k] and [m;; k]. *)
Global Instance M_ret `{B : Browser} : MRet M := @ret B.
Global Instance M_bind `{B : Browser} : MBind M := fun A C k m => bind m k.

(** A double-quoted attribute value inside a CSS selector. *)
Definition dq : string := String (Ascii.ascii_of_nat 34) EmptyString.
Definition q (s : string) : string := dq +:+ s +:+ dq.

(** * components/HeaderComponent.js *)

Module HeaderComponent.
Section Class.
Context `{B : Browser}.

(** The locators the constructor stores, one per field. *)
Definition logo (page : Page) : Locator :=
  Or (page_getByTestId page "logo")
    (First (loc_getByRole (page_locator page "header") "link" None)).
Definition searchInput (page : Page) : Locator :=
  Or (page_getByTestId page "search")
    (Or (page_locator page ("input[type=" +:+ q "search" +:+ "]"))
    (page_getByPlaceholder page "Search")).
Definition userMenu (page : Page) : Locator :=
  Or (page_getByTestId page "user-menu")
    (page_locator page ("[data-testid=" +:+ q "user-menu" +:+ "]")).
Definition logoutBtn (page : Page) : Locator :=
  Or (page_getByTestId page "logout")
    (page_getByRole page "button" (Some (RegExp "logout" "i"))).
Definition navigationLinks (page : Page) : Locator :=
  page_locator page "header nav a".

Definition constructor (page : Page) (this : Obj) : M Obj :=
  let this := set "page" (VPage page) this in
  let this := set "logo" (VLocator (logo page)) this in
  let this := set "searchInput" (VLocator (searchInput page)) this in
  let this := set "userMenu" (VLocator (userMenu page)) this in
  let this := set "logoutBtn" (VLocator (logoutBtn page)) this in
  let this := set "navigationLinks" (VLocator (navigationLinks page)) this in
  mret this.

Definition new (page : Page) : M nat :=
  this ← constructor page (blank "HeaderComponent");
  alloc this.

Definition clickLogo (this : nat) : M Val :=
  logo ← field_locator this "logo";
  click logo;;
  mret VUndefined.

Definition search (this : nat) (query : string) : M Val :=
  searchInput ← field_locator this "searchInput";
  n ← count searchInput;
  if (0 <? n)%nat then
    searchInput ← field_locator this "searchInput";
    fill searchInput query;;
    page ← field_page this "page";
    keyboard_press page "Enter";;
    mret VUndefined
  else mret VUndefined.

Definition openUserMenu (this : nat) : M Val :=
  userMenu ← field_locator this "userMenu";
  n ← count userMenu;
  if (0 <? n)%nat then
    userMenu ← field_locator this "userMenu";
    click userMenu;;
    mret VUndefined
  else mret VUndefined.

Definition logout (this : nat) : M Val :=
  openUserMenu this;;
  logoutBtn ← field_locator this "logoutBtn";
  n ← count logoutBtn;
  if (0 <? n)%nat then
    logoutBtn ← field_locator this "logoutBtn";
    click logoutBtn;;
    mret VUndefined
  else mret VUndefined.

Definition navigateTo (this : nat) (linkText : string) : M Val :=
  navigationLinks ← field_locator this "navigationLinks";
  let link := Filter navigationLinks (Text linkText) in
  n ← count link;
  if (0 <? n)%nat then
    click link;;
    mret VUndefined
  else mret VUndefined.

Definition isVisible (this : nat) : M Val :=
  logo ← field_locator this "logo";
  b ← catch (Playwright.isVisible logo) (fun _ => mret false);
  mret (VBool b).

End Class.
End HeaderComponent.

(** * components/FooterComponent.js *)

Module FooterComponent.
Section Class.
Context `{B : Browser}.

(** The locators the constructor stores, one per field. *)
Definition footer (page : Page) : Locator :=
  page_locator page "footer".
Definition footerLinks (page : Page) : Locator :=
  page_locator page "footer a".
Definition copyrightText (page : Page) : Locator :=
  loc_getByText (page_locator page "footer") (RegExp "copyright|Â©" "i").
Definition socialLinks (page : Page) : Locator :=
  page_locator page ("footer [data-testid*=" +:+ q "social" +:+ "]").

Definition constructor (page : Page) (this : Obj) : M Obj :=
  let this := set "page" (VPage page) this in
  let this := set "footer" (VLocator (footer page)) this in
  let this := set "footerLinks" (VLocator (footerLinks page)) this in
  let this := set "copyrightText" (VLocator (copyrightText page)) this in
  let this := set "socialLinks" (VLocator (socialLinks page)) this in
  mret this.

Definition new (page : Page) : M nat :=
  this ← constructor page (blank "FooterComponent");
  alloc this.

Definition clickLink (this : nat) (linkText : string) : M Val :=
  footerLinks ← field_locator this "footerLinks";
  let link := Filter footerLinks (Text linkText) in
  n ← count link;
  if (0 <? n)%nat then
    click link;;
    mret VUndefined
  else mret VUndefined.

Definition getCopyrightText (this : nat) : M Val :=
  copyrightText ← field_locator this "copyrightText";
  n ← count copyrightText;
  if (0 <? n)%nat then
    copyrightText ← field_locator this "copyrightText";
    textContent copyrightText
  else mret VNull.

Definition clickSocialLink (this : nat) (platform : string) : M Val :=
  socialLinks ← field_locator this "socialLinks";
  re ← new_RegExp platform "i";
  let socialLink := Filter socialLinks re in
  n ← count socialLink;
  if (0 <? n)%nat then
    click socialLink;;
    mret VUndefined
  else mret VUndefined.

Definition isVisible (this : nat) : M Val :=
  footer ← field_locator this "footer";
  b ← catch (Playwright.isVisible footer) (fun _ => mret false);
  mret (VBool b).

(** The body of the [for] loop of [getAllLinks], for the indices still
    to visit. *)
Fixpoint getAllLinks_loop (this : nat) (indices : list nat) (links : list Val)
    : M (list Val) :=
  match indices with
  | [] => mret links
  | i :: rest =>
      footerLinks ← field_locator this "footerLinks";
      text ← textContent (Nth footerLinks i);
      getAllLinks_loop this rest (links ++ [text])
  end.

Definition getAllLinks (this : nat) : M Val :=
  footerLinks ← field_locator this "footerLinks";
  count ← count footerLinks;
  links ← getAllLinks_loop this (seq 0 count) [];
  mret (VArray links).

End Class.
End FooterComponent.

(** * pages/BasePage.js *)

Module BasePage.
Section Class.
Context `{B : Browser}.

Definition constructor (page : Page) (this : Obj) : M Obj :=
  let this := set "page" (VPage page) this in
  header ← HeaderComponent.new page;
  let this := set "header" (VRef header) this in
  footer ← FooterComponent.new page;
  let this := set "footer" (VRef footer) this in
  mret this.

Definition new (page : Page) : M nat :=
  this ← constructor page (blank "BasePage");
  alloc this.

Definition goto (this : nat) (url : string) : M Val :=
  page ← field_page this "page";
  page_goto page url;;
  mret VUndefined.

End Class.
End BasePage.

(** * pages/LoginPage.js *)

Module LoginPage.
Section Class.
Context `{B : Browser}.

(** The locators the constructor stores, one per field. *)
Definition emailInput (page : Page) : Locator :=
  Or (page_getByLabel page "Email")
    (page_locator page ("input[type=" +:+ q "email" +:+ "]")).
Definition passwordInput (page : Page) : Locator :=
  Or (page_getByLabel page "Password")
    (page_locator page ("input[type=" +:+ q "password" +:+ "]")).
Definition submitButton (page : Page) : Locator :=
  page_getByRole page "button" (Some (RegExp "log in|login|sign in|signin" "i")).
Definition errorMessage (page : Page) : Locator :=
  page_locator page (".error, [role=" +:+ q "alert" +:+ "], .alert-danger").
Definition forgotPasswordLink (page : Page) : Locator :=
  page_getByRole page "link" (Some (RegExp "forgot password|forgot" "i")).
Definition rememberMeCheckbox (page : Page) : Locator :=
  page_getByRole page "checkbox" (Some (RegExp "remember me|remember" "i")).

Definition constructor (page : Page) (this : Obj) : M Obj :=
  let this := set "page" (VPage page) this in
  let this := set "emailInput" (VLocator (emailInput page)) this in
  let this := set "passwordInput" (VLocator (passwordInput page)) this in
  let this := set "submitButton" (VLocator (submitButton page)) this in
  let this := set "errorMessage" (VLocator (errorMessage page)) this in
  let this := set "forgotPasswordLink" (VLocator (forgotPasswordLink page)) this in
  let this := set "rememberMeCheckbox" (VLocator (rememberMeCheckbox page)) this in
  mret this.

Definition new (page : Page) : M nat :=
  this ← constructor page (blank "LoginPage");
  alloc this.

Definition goto (this : nat) (baseUrl : string) : M Val :=
  page ← field_page this "page";
  page_goto page baseUrl;;
  mret VUndefined.

Definition login (this : nat) (email password : string) : M Val :=
  emailInput ← field_locator this "emailInput";
  fill emailInput email;;
  passwordInput ← field_locator this "passwordInput";
  fill passwordInput password;;
  submitButton ← field_locator this "submitButton";
  click submitButton;;
  mret VUndefined.

Definition loginWithRememberMe (this : nat) (email password : string) : M Val :=
  emailInput ← field_locator this "emailInput";
  fill emailInput email;;
  passwordInput ← field_locator this "passwordInput";
  fill passwordInput password;;
  rememberMeCheckbox ← field_locator this "rememberMeCheckbox";
  n ← count rememberMeCheckbox;
  (if (0 <? n)%nat then
     rememberMeCheckbox ← field_locator this "rememberMeCheckbox";
     check rememberMeCheckbox
   else mret tt);;
  submitButton ← field_locator this "submitButton";
  click submitButton;;
  mret VUndefined.

Definition clickForgotPassword (this : nat) : M Val :=
  forgotPasswordLink ← field_locator this "forgotPasswordLink";
  n ← count forgotPasswordLink;
  if (0 <? n)%nat then
    forgotPasswordLink ← field_locator this "forgotPasswordLink";
    click forgotPasswordLink;;
    mret VUndefined
  else mret VUndefined.

Definition getErrorMessage (this : nat) : M Val :=
  errorMessage ← field_locator this "errorMessage";
  n ← count errorMessage;
  if (0 <? n)%nat then
    errorMessage ← field_locator this "errorMessage";
    textContent errorMessage
  else mret VNull.

Definition hasErrorMessage (this : nat) : M Val :=
  errorMessage ← field_locator this "errorMessage";
  b ← catch (Playwright.isVisible errorMessage) (fun _ => mret false);
  mret (VBool b).

Definition fillEmail (this : nat) (email : string) : M Val :=
  emailInput ← field_locator this "emailInput";
  fill emailInput email;;
  mret VUndefined.

Definition fillPassword (this : nat) (password : string) : M Val :=
  passwordInput ← field_locator this "passwordInput";
  fill passwordInput password;;
  mret VUndefined.

Definition isFormVisible (this : nat) : M Val :=
  emailInput ← field_locator this "emailInput";
  b ← catch (Playwright.isVisible emailInput) (fun _ => mret false);
  mret (VBool b).

End Class.
End LoginPage.

(** * pages/DashboardPage.js *)

Module DashboardPage.
Section Class.
Context `{B : Browser}.

(** The locators the constructor stores, one per field. *)
Definition welcomeMessage (page : Page) : Locator :=
  page_getByText page (RegExp "welcome|dashboard" "i").
Definition statsCards (page : Page) : Locator :=
  page_locator page (".stat-card, [data-testid*=" +:+ q "stat" +:+ "]").
Definition recentActivity (page : Page) : Locator :=
  page_locator page (".recent-activity, [data-testid=" +:+ q "recent-activity" +:+ "]").
Definition quickActions (page : Page) : Locator :=
  page_locator page (".quick-actions, [data-testid=" +:+ q "quick-actions" +:+ "]").

Definition constructor (page : Page) (this : Obj) : M Obj :=
  this ← BasePage.constructor page this;
  let this := set "welcomeMessage" (VLocator (welcomeMessage page)) this in
  let this := set "statsCards" (VLocator (statsCards page)) this in
  let this := set "recentActivity" (VLocator (recentActivity page)) this in
  let this := set "quickActions" (VLocator (quickActions page)) this in
  mret this.

Definition new (page : Page) : M nat :=
  this ← constructor page (blank "DashboardPage");
  alloc this.

Definition goto (this : nat) (baseUrl : option string) : M Val :=
  let baseUrl := default "https://the-internet.herokuapp.com/secure" baseUrl in
  page ← field_page this "page";
  page_goto page baseUrl;;
  mret VUndefined.

Definition navigateToTransactions (this : nat) : M Val :=
  header ← field_ref this "header";
  HeaderComponent.search header "transactions";;
  mret VUndefined.

Definition getWelcomeMessage (this : nat) : M Val :=
  welcomeMessage ← field_locator this "welcomeMessage";
  n ← count welcomeMessage;
  if (0 <? n)%nat then
    welcomeMessage ← field_locator this "welcomeMessage";
    textContent welcomeMessage
  else mret VNull.

Definition logout (this : nat) : M Val :=
  header ← field_ref this "header";
  HeaderComponent.logout header;;
  mret VUndefined.

Definition goHome (this : nat) : M Val :=
  header ← field_ref this "header";
  HeaderComponent.clickLogo header;;
  mret VUndefined.

Definition getStatsCount (this : nat) : M Val :=
  statsCards ← field_locator this "statsCards";
  n ← count statsCards;
  mret (VNum (Z.of_nat n)).

Definition isLoaded (this : nat) : M Val :=
  welcomeMessage ← field_locator this "welcomeMessage";
  b ← catch (Playwright.isVisible welcomeMessage) (fun _ => mret false);
  mret (VBool b).

End Class.
End DashboardPage.

(** * pages/ProductPage.js *)

(** An argument of a call: left out (or [undefined]), [null], or a
    value. *)
Inductive Argument (A : Type) :=
| Omitted
| Null
| Given (a : A).
Global Arguments Omitted {A}.
Global Arguments Null {A}.
Global Arguments Given {A} a.

Section Options.
Context `{E : Engine}.

(** The [options] object of [addToCartWithOptions]; an absent property
    is [None]. *)
Record Options := mkOptions {
  quantity : option number;
  size : option string;
  color : option string
}.

(** [{}], the default of the parameter. *)
Definition no_options : Options :=
  {| quantity := None; size := None; color := None |}.

(** Truthiness of an optional number, as the [&&] of the guard tests
    it: [undefined] is falsy, a number is what [ToBoolean] makes of it
    (0, -0 and NaN are falsy). *)
Definition truthy_num (v : option number) : bool :=
  match v with Some n => number_truthy n | None => false end.

(** The options the body of the method works with: the default when the
    argument is left out, none when it is [null]. *)
Definition effective (argument : Argument Options) : option Options :=
  match argument with
  | Omitted => Some no_options
  | Given options => Some options
  | Null => None
  end.

(** [options.quantity.toString()] *)
Definition quantity_text (options : Options) : string :=
  from_option number_toString EmptyString (quantity options).

End Options.

(** Truthiness of an optional string: [undefined] and the empty string
    are falsy. *)
Definition truthy_str (v : option string) : bool :=
  match v with Some s => negb (String.eqb s EmptyString) | None => false end.

(** A locator built from selector text that the selector engine rejects
    throws when it is used. *)
Definition parse_selector `{B : Browser} `{E : Engine} (selector : string) : M unit :=
  fun s => if selector_parses selector then Ok tt s
           else Fault (Error "the selector does not parse") s.

Module ProductPage.
Section Class.
Context `{B : Browser} `{E : Engine}.

(** The locators the constructor stores, one per field. *)
Definition addToCartBtn (page : Page) : Locator :=
  page_getByRole page "button" (Some (RegExp "add to cart|add to bag" "i")).
Definition productTitle (page : Page) : Locator :=
  page_locator page ("h1, [data-testid=" +:+ q "product-title" +:+ "]").
Definition productPrice (page : Page) : Locator :=
  page_locator page ("[data-testid=" +:+ q "price" +:+ "], .price").
Definition productDescription (page : Page) : Locator :=
  page_locator page ("[data-testid=" +:+ q "description" +:+ "], .product-description").
Definition quantityInput (page : Page) : Locator :=
  page_locator page ("input[type=" +:+ q "number" +:+ "], [data-testid=" +:+ q "quantity" +:+ "]").
Definition sizeSelector (page : Page) : Locator :=
  page_locator page ("select[name=" +:+ q "size" +:+ "], [data-testid=" +:+ q "size-select" +:+ "]").
Definition colorSelector (page : Page) : Locator :=
  page_locator page ("[data-testid=" +:+ q "color-select" +:+ "], .color-selector").
Definition reviewsSection (page : Page) : Locator :=
  page_locator page (".reviews, [data-testid=" +:+ q "reviews" +:+ "]").

Definition constructor (page : Page) (this : Obj) : M Obj :=
  this ← BasePage.constructor page this;
  let this := set "addToCartBtn" (VLocator (addToCartBtn page)) this in
  let this := set "productTitle" (VLocator (productTitle page)) this in
  let this := set "productPrice" (VLocator (productPrice page)) this in
  let this := set "productDescription" (VLocator (productDescription page)) this in
  let this := set "quantityInput" (VLocator (quantityInput page)) this in
  let this := set "sizeSelector" (VLocator (sizeSelector page)) this in
  let this := set "colorSelector" (VLocator (colorSelector page)) this in
  let this := set "reviewsSection" (VLocator (reviewsSection page)) this in
  mret this.

Definition new (page : Page) : M nat :=
  this ← constructor page (blank "ProductPage");
  alloc this.

Definition goto (this : nat) (productId baseUrl : option string) : M Val :=
  let productId := default EmptyString productId in
  let baseUrl := default "https://the-internet.herokuapp.com/" baseUrl in
  let url := if truthy_str (Some productId)
             then baseUrl +:+ "products/" +:+ productId
             else baseUrl in
  page ← field_page this "page";
  page_goto page url;;
  mret VUndefined.

Definition addToCart (this : nat) : M Val :=
  addToCartBtn ← field_locator this "addToCartBtn";
  n ← count addToCartBtn;
  if (0 <? n)%nat then
    addToCartBtn ← field_locator this "addToCartBtn";
    click addToCartBtn;;
    mret VUndefined
  else mret VUndefined.

(** The three guarded blocks of [addToCartWithOptions], in order, then
    the call of [addToCart].  In [a && await b] the right operand is
    evaluated only when the left one is truthy.  The parameter defaults
    to [{}] when the argument is left out; reading [options.quantity] of
    [null] is a [TypeError].  The colour goes into the text of a
    selector, which the selector engine has to accept. *)
Definition addToCartWithOptions (this : nat) (options : Argument Options) : M Val :=
  options ← match options with
            | Omitted => mret no_options
            | Given options => mret options
            | Null => throw TypeError
            end;
  (if truthy_num (quantity options) then
     quantityInput ← field_locator this "quantityInput";
     n ← count quantityInput;
     if (0 <? n)%nat then
       quantityInput ← field_locator this "quantityInput";
       fill quantityInput (quantity_text options)
     else mret tt
   else mret tt);;
  (if truthy_str (size options) then
     sizeSelector ← field_locator this "sizeSelector";
     n ← count sizeSelector;
     if (0 <? n)%nat then
       sizeSelector ← field_locator this "sizeSelector";
       selectOption sizeSelector (default EmptyString (size options))
     else mret tt
   else mret tt);;
  (if truthy_str (color options) then
     colorSelector ← field_locator this "colorSelector";
     n ← count colorSelector;
     if (0 <? n)%nat then
       colorSelector ← field_locator this "colorSelector";
       let selector := "[data-color=" +:+ q (default EmptyString (color options)) +:+ "]" in
       let colorOption := loc_locator colorSelector selector in
       parse_selector selector;;
       m ← count colorOption;
       if (0 <? m)%nat then click colorOption else mret tt
     else mret tt
   else mret tt);;
  addToCart this;;
  mret VUndefined.

Definition getProductTitle (this : nat) : M Val :=
  productTitle ← field_locator this "productTitle";
  n ← count productTitle;
  if (0 <? n)%nat then
    productTitle ← field_locator this "productTitle";
    textContent productTitle
  else mret VNull.

Definition getProductPrice (this : nat) : M Val :=
  productPrice ← field_locator this "productPrice";
  n ← count productPrice;
  if (0 <? n)%nat then
    productPrice ← field_locator this "productPrice";
    textContent productPrice
  else mret VNull.

Definition getProductDescription (this : nat) : M Val :=
  productDescription ← field_locator this "productDescription";
  n ← count productDescription;
  if (0 <? n)%nat then
    productDescription ← field_locator this "productDescription";
    textContent productDescription
  else mret VNull.

Definition searchProduct (this : nat) (query : string) : M Val :=
  header ← field_ref this "header";
  HeaderComponent.search header query;;
  mret VUndefined.

Definition scrollToReviews (this : nat) : M Val :=
  reviewsSection ← field_locator this "reviewsSection";
  n ← count reviewsSection;
  if (0 <? n)%nat then
    reviewsSection ← field_locator this "reviewsSection";
    scrollIntoViewIfNeeded reviewsSection;;
    mret VUndefined
  else mret VUndefined.

Definition isLoaded (this : nat) : M Val :=
  productTitle ← field_locator this "productTitle";
  b ← catch (Playwright.isVisible productTitle) (fun _ => mret false);
  mret (VBool b).

End Class.
End ProductPage.

(** * Instances, and the operations the properties range over *)

Section Objects.
Context `{B : Browser}.

(** [this] refers, in heap [h], to an object that [new C(page)] built. *)
Definition instance_of (new : Page → M nat) (page : Page) (this : nat)
    (h : list Obj) : Prop :=
  ∃ s0 s1, new page s0 = Ok this s1 ∧ h !! this = heap s1 !! this.

(** Number of user-facing actions, and of locator resolutions, among
    some events. *)
Definition user_actions (evs : list Event) : nat :=
  length (List.filter user_facing evs).
Definition resolutions (evs : list Event) : nat :=
  length (List.filter is_resolution evs).

(** Number of objects of class [C] in a heap segment. *)
Definition count_class (C : string) (h : list Obj) : nat :=
  length (List.filter (fun o => String.eqb (cls o) C) h).

(** The public operations of the two Component Objects. *)
Inductive ComponentOp :=
| Header_clickLogo
| Header_search (query : string)
| Header_openUserMenu
| Header_logout
| Header_navigateTo (linkText : string)
| Header_isVisible
| Footer_clickLink (linkText : string)
| Footer_getCopyrightText
| Footer_clickSocialLink (platform : string)
| Footer_isVisible
| Footer_getAllLinks.

Definition component_new (op : ComponentOp) : Page → M nat :=
  match op with
  | Header_clickLogo | Header_search _ | Header_openUserMenu | Header_logout
  | Header_navigateTo _ | Header_isVisible => HeaderComponent.new
  | _ => FooterComponent.new
  end.

Definition invoke (op : ComponentOp) (this : nat) : M Val :=
  match op with
  | Header_clickLogo => HeaderComponent.clickLogo this
  | Header_search query => HeaderComponent.search this query
  | Header_openUserMenu => HeaderComponent.openUserMenu this
  | Header_logout => HeaderComponent.logout this
  | Header_navigateTo linkText => HeaderComponent.navigateTo this linkText
  | Header_isVisible => HeaderComponent.isVisible this
  | Footer_clickLink linkText => FooterComponent.clickLink this linkText
  | Footer_getCopyrightText => FooterComponent.getCopyrightText this
  | Footer_clickSocialLink platform => FooterComponent.clickSocialLink this platform
  | Footer_isVisible => FooterComponent.isVisible this
  | Footer_getAllLinks => FooterComponent.getAllLinks this
  end.

(** The locators an operation acts on or reads. *)
Definition targets (op : ComponentOp) (page : Page) : list Locator :=
  match op with
  | Header_clickLogo => [HeaderComponent.logo page]
  | Header_search _ => [HeaderComponent.searchInput page]
  | Header_openUserMenu => [HeaderComponent.userMenu page]
  | Header_logout => [HeaderComponent.userMenu page; HeaderComponent.logoutBtn page]
  | Header_navigateTo linkText =>
      [Filter (HeaderComponent.navigationLinks page) (Text linkText)]
  | Header_isVisible => [HeaderComponent.logo page]
  | Footer_clickLink linkText =>
      [Filter (FooterComponent.footerLinks page) (Text linkText)]
  | Footer_getCopyrightText => [FooterComponent.copyrightText page]
  | Footer_clickSocialLink platform =>
      [Filter (FooterComponent.socialLinks page) (RegExp platform "i")]
  | Footer_isVisible => [FooterComponent.footer page]
  | Footer_getAllLinks => [FooterComponent.footerLinks page]
  end.

Definition absent (w : World) (l : Locator) : Prop := resolve w l = [].

(** [clickLogo] is the one operation that clicks without looking
    first. *)
Definition interacts_unguarded (op : ComponentOp) : bool :=
  match op with Header_clickLogo => true | _ => false end.

(** The regular expression an operation builds from its argument, if
    any, compiles. *)
Definition pattern_compiles (op : ComponentOp) : bool :=
  match op with
  | Footer_clickSocialLink platform => regexp_compiles platform
  | _ => true
  end.

(** How many user-facing actions an operation may need. *)
Definition action_budget (op : ComponentOp) : nat :=
  match op with
  | Header_search _ | Header_logout => 2
  | Header_isVisible | Footer_isVisible | Footer_getCopyrightText
  | Footer_getAllLinks => 0
  | _ => 1
  end.

(** The visibility checks. *)
Inductive VisibilityCheck :=
| HeaderComponent_isVisible
| FooterComponent_isVisible
| ProductPage_isLoaded
| DashboardPage_isLoaded
| LoginPage_hasErrorMessage
| LoginPage_isFormVisible.

Definition check_new (c : VisibilityCheck) : Page → M nat :=
  match c with
  | HeaderComponent_isVisible => HeaderComponent.new
  | FooterComponent_isVisible => FooterComponent.new
  | ProductPage_isLoaded => ProductPage.new
  | DashboardPage_isLoaded => DashboardPage.new
  | LoginPage_hasErrorMessage | LoginPage_isFormVisible => LoginPage.new
  end.

Definition run_check (c : VisibilityCheck) (this : nat) : M Val :=
  match c with
  | HeaderComponent_isVisible => HeaderComponent.isVisible this
  | FooterComponent_isVisible => FooterComponent.isVisible this
  | ProductPage_isLoaded => ProductPage.isLoaded this
  | DashboardPage_isLoaded => DashboardPage.isLoaded this
  | LoginPage_hasErrorMessage => LoginPage.hasErrorMessage this
  | LoginPage_isFormVisible => LoginPage.isFormVisible this
  end.

Definition check_locator (c : VisibilityCheck) (page : Page) : Locator :=
  match c with
  | HeaderComponent_isVisible => HeaderComponent.logo page
  | FooterComponent_isVisible => FooterComponent.footer page
  | ProductPage_isLoaded => ProductPage.productTitle page
  | DashboardPage_isLoaded => DashboardPage.welcomeMessage page
  | LoginPage_hasErrorMessage => LoginPage.errorMessage page
  | LoginPage_isFormVisible => LoginPage.emailInput page
  end.

(** The getters that extract the text of an element. *)
Inductive TextGetter :=
| FooterComponent_getCopyrightText
| ProductPage_getProductTitle
| ProductPage_getProductPrice
| ProductPage_getProductDescription
| LoginPage_getErrorMessage
| DashboardPage_getWelcomeMessage.

Definition getter_new (g : TextGetter) : Page → M nat :=
  match g with
  | FooterComponent_getCopyrightText => FooterComponent.new
  | ProductPage_getProductTitle | ProductPage_getProductPrice
  | ProductPage_getProductDescription => ProductPage.new
  | LoginPage_getErrorMessage => LoginPage.new
  | DashboardPage_getWelcomeMessage => DashboardPage.new
  end.

Definition run_getter (g : TextGetter) (this : nat) : M Val :=
  match g with
  | FooterComponent_getCopyrightText => FooterComponent.getCopyrightText this
  | ProductPage_getProductTitle => ProductPage.getProductTitle this
  | ProductPage_getProductPrice => ProductPage.getProductPrice this
  | ProductPage_getProductDescription => ProductPage.getProductDescription this
  | LoginPage_getErrorMessage => LoginPage.getErrorMessage this
  | DashboardPage_getWelcomeMessage => DashboardPage.getWelcomeMessage this
  end.

Definition getter_locator (g : TextGetter) (page : Page) : Locator :=
  match g with
  | FooterComponent_getCopyrightText => FooterComponent.copyrightText page
  | ProductPage_getProductTitle => ProductPage.productTitle page
  | ProductPage_getProductPrice => ProductPage.productPrice page
  | ProductPage_getProductDescription => ProductPage.productDescription page
  | LoginPage_getErrorMessage => LoginPage.errorMessage page
  | DashboardPage_getWelcomeMessage => DashboardPage.welcomeMessage page
  end.

(** The classes of the Page and Component Object layer. *)
Inductive ClassName :=
| CHeaderComponent
| CFooterComponent
| CBasePage
| CLoginPage
| CDashboardPage
| CProductPage.

Definition construct (C : ClassName) : Page → M nat :=
  match C with
  | CHeaderComponent => HeaderComponent.new
  | CFooterComponent => FooterComponent.new
  | CBasePage => BasePage.new
  | CLoginPage => LoginPage.new
  | CDashboardPage => DashboardPage.new
  | CProductPage => ProductPage.new
  end.

(** The classes that are, or extend, [BasePage]. *)
Definition extends_BasePage (C : ClassName) : bool :=
  match C with CBasePage | CDashboardPage | CProductPage => true | _ => false end.

(** One guarded step of [addToCartWithOptions]: when [applied], the
    action takes the page from [w] to [w']; otherwise the page stays. *)
Definition option_step (applied : bool) (a : Action) (w w' : World) : Prop :=
  if applied then perform w a = Some w' else w' = w.

Definition did (applied : bool) (a : Action) : list Event :=
  if applied then [Did a] else [].

(** [s1] is the state a guarded step leaves [s] in: the heap is the
    same, the page moved by the action exactly when it was [applied],
    and that action is then the one user-facing action added to the
    trace. *)
Definition stepped (applied : bool) (a : Action) (s s1 : St) : Prop :=
  option_step applied a (world s) (world s1) ∧
  heap s1 = heap s ∧
  ∃ evs, trace s1 = (trace s ++ evs)%list ∧
         List.filter user_facing evs = did applied a.

(** A quiet outcome: a value, the page and the heap as they were, and
    no user-facing action among the events added to the trace. *)
Definition quiet (s : St) (o : Outcome Val) : Prop :=
  ∃ v s', o = Ok v s' ∧ world s' = world s ∧ heap s' = heap s ∧
    ∃ evs, trace s' = (trace s ++ evs)%list ∧ user_actions evs = 0%nat.

(** A computation that, from any state and whether it returns or throws,
    adds at most [n] user-facing actions to the trace. *)
Definition bounded (n : nat) {A} (m : M A) : Prop :=
  ∀ s, ∃ evs, trace (final (m s)) = (trace s ++ evs)%list ∧
              (user_actions evs ≤ n)%nat.

End Objects.

(** A browser for examples: a page is the table of what each locator
    matches, and no action changes it. *)
Definition StaticPage : Browser := {|
  World := Locator → list Element;
  resolve := fun w l => w l;
  perform := fun w _ => Some w;
  times_out := fun _ _ => false;
  regexp_compiles := fun _ => true
|}.

(** Pages of [StaticPage]: nothing matches; every locator matches one
    visible element; every locator matches two. *)
Definition blank_page : @World StaticPage := fun _ => [].
Definition full_page : @World StaticPage :=
  fun _ => [mkElement "text" true].
Definition crowded_page : @World StaticPage :=
  fun _ => [mkElement "one" true; mkElement "two" true].

Definition start (w : @World StaticPage) : @St StaticPage :=
  {| world := w; heap := []; trace := [] |}.

(** * e2e/SOLID: the strategy hierarchies *)

(** [String(v)], as a template literal converts a value. *)
Definition to_string (v : Val) : string :=
  match v with
  | VUndefined => "undefined"
  | VNull => "null"
  | VBool true => "true"
  | VBool false => "false"
  | VNum n => pretty n
  | VStr s => s
  | _ => "[object Object]"
  end.

Module SOLID.

(** The classes of OCP-Playwright.js, LSP-Playwright.js and
    DIP-Playwright.js. *)
Inductive Class :=
| AuthStrategy
| UsernamePasswordAuth
| OAuthAuth
| PageComponent
| Header
| Footer
| NotificationService
| ConsoleNotificationService
| ApiNotificationService.

(** [class C extends P] *)
Definition extends (C : Class) : option Class :=
  match C with
  | AuthStrategy | PageComponent | NotificationService => None
  | UsernamePasswordAuth | OAuthAuth => Some AuthStrategy
  | Header | Footer => Some PageComponent
  | ConsoleNotificationService | ApiNotificationService => Some NotificationService
  end.

(** The strategy method of the hierarchy a class belongs to. *)
Definition strategy_method (C : Class) : string :=
  match C with
  | AuthStrategy | UsernamePasswordAuth | OAuthAuth => "authenticate"
  | PageComponent | Header | Footer => "isVisible"
  | _ => "send"
  end.

Section Methods.
Context `{B : Browser}.

(** A method takes [this] and its argument. *)
Definition Method : Type := Obj → Val → M Val.

Definition arg_page (v : Val) : M Page :=
  match v with VPage p => mret p | _ => throw TypeError end.

(** [page.fill(selector, value)] and [page.click(selector)]: they act
    on the first match of the selector.  [fill] checks its arguments
    before it looks at the page and rejects a value that is not a string
    with a plain [Error]. *)
Definition page_fill (page : Page) (selector : string) (value : Val) : M unit :=
  match value with
  | VStr s =>
      let l := page_locator page selector in interact_first (Fill l s) l
  | _ => throw (Error "page.fill: value: expected string")
  end.
Definition page_click (page : Page) (selector : string) : M unit :=
  let l := page_locator page selector in interact_first (Click l) l.

(** The methods each class body declares itself. *)
Definition declares (C : Class) (name : string) : option Method :=
  match C with
  | AuthStrategy =>
      if String.eqb name "authenticate" then
        Some (fun this page => throw (Error "Authentication strategy not implemented"))
      else None
  | UsernamePasswordAuth =>
      if String.eqb name "authenticate" then
        Some (fun this page =>
          page ← arg_page page;
          page_fill page "#username" (get "username" this);;
          page_fill page "#password" (get "password" this);;
          page_click page "#login";;
          mret VUndefined)
      else None
  | OAuthAuth =>
      if String.eqb name "authenticate" then
        Some (fun this page =>
          page ← arg_page page;
          page_click page ("#oauth-" +:+ to_string (get "provider" this));;
          mret VUndefined)
      else None
  | PageComponent =>
      if String.eqb name "isVisible" then
        Some (fun this _ => throw (Error "Visibility check not implemented"))
      else None
  | Header =>
      if String.eqb name "isVisible" then
        Some (fun this _ =>
          page ← arg_page (get "page" this);
          b ← Playwright.isVisible (page_locator page "header");
          mret (VBool b))
      else if String.eqb name "getTitle" then
        Some (fun this _ =>
          page ← arg_page (get "page" this);
          textContent (page_locator page "header h1"))
      else None
  | Footer =>
      if String.eqb name "isVisible" then
        Some (fun this _ =>
          page ← arg_page (get "page" this);
          b ← Playwright.isVisible (page_locator page "footer");
          mret (VBool b))
      else if String.eqb name "getCopyright" then
        Some (fun this _ =>
          page ← arg_page (get "page" this);
          textContent (page_locator page "footer .copyright"))
      else None
  | NotificationService =>
      if String.eqb name "send" then
        Some (fun this message => throw (Error "Notification service not implemented"))
      else None
  | ConsoleNotificationService =>
      if String.eqb name "send" then
        Some (fun this message =>
          console_log ("NOTIFICATION: " +:+ to_string message);;
          mret VUndefined)
      else None
  | ApiNotificationService =>
      if String.eqb name "send" then
        Some (fun this message =>
          request_post "/api/notify" (to_string message);;
          console_log "API notification sent.";;
          mret VUndefined)
      else None
  end.

(** Method lookup along the [extends] chain, at most [depth] steps up. *)
Fixpoint lookup_method (depth : nat) (C : Class) (name : string) : option Method :=
  match declares C name with
  | Some m => Some m
  | None =>
      match depth, extends C with
      | S d, Some P => lookup_method d P name
      | _, _ => None
      end
  end.

(** [this.name(arg)] for an instance of class [C]; the chains here have
    one link. Calling what is not there is a [TypeError]. *)
Definition call (C : Class) (name : string) (this : Obj) (arg : Val) : M Val :=
  match lookup_method 1 C name with
  | Some m => m this arg
  | None => throw TypeError
  end.

End Methods.

(** Whether an error message says "not implemented". *)
Definition says_not_implemented (msg : string) : bool :=
  match String.index 0 "not implemented" msg with
  | Some _ => true
  | None => false
  end.

Definition is_not_implemented (e : Err) : bool :=
  match e with Error msg => says_not_implemented msg | _ => false end.

End SOLID.

(** A computation that never ends in a "not implemented" error. *)
Definition implemented `{B : Browser} {A} (m : M A) : Prop :=
  ∀ s, match m s with
       | Fault e _ => SOLID.is_not_implemented e = false
       | Ok _ _ => True
       end.

(** * e2e/interceptor-examples.spec.js: the [**/api/posts] route *)

Module Interceptor.
Section Documents.
Context `{E : Engine}.

(** The values [JSON.parse] returns.  Numbers are the engine's doubles,
    strings and property names the engine's strings.  An object is the
    finite map of its own properties: documents are taken up to the
    order in which an object lists them. *)
#[warnings="-register-all"]
Inductive JSON :=
| JNull
| JBool (b : bool)
| JNum (n : number)
| JStr (s : jsstring)
| JArr (xs : list JSON)
| JObj (m : gmap jsstring JSON).

(** The name of the index [i] of an array or a string. *)
Definition index_key (i : nat) : jsstring := lit (pretty i).

(** The own enumerable properties [{...v}] copies: those of an object,
    the elements of an array under their indices, the code units of a
    string under theirs, nothing of [null], a number or a boolean. *)
Definition spread (v : JSON) : gmap jsstring JSON :=
  match v with
  | JObj m => m
  | JArr xs => list_to_map (imap (fun i x => (index_key i, x)) xs)
  | JStr s => list_to_map (imap (fun i u => (index_key i, JStr u)) (units s))
  | _ => ∅
  end.

(** [expect(v).toHaveProperty(k)] holds, for a name [k] without dots or
    brackets that no prototype defines ([title] and [body] are such
    names): an object has it when it is one of its own properties, an
    array or a string when it is [length] or one of the indices. *)
Definition toHaveProperty (v : JSON) (k : jsstring) : bool :=
  match v with
  | JObj m => bool_decide (is_Some (m !! k))
  | JArr _ | JStr _ =>
      bool_decide (k = lit "length") || bool_decide (is_Some (spread v !! k))
  | _ => false
  end.

(** [JSON.parse] and [JSON.stringify] belong to the engine as well.  The
    texts they read and write are request and response bodies; the
    handlers only test a body for emptiness, parse it, and produce one
    with [JSON.stringify], so bodies are kept apart from the strings
    inside documents.  [JSON_parse t] is [None] when [JSON.parse] throws
    its [SyntaxError]; [braces] is the text ['{}'].  As documents are, a
    text that [JSON.stringify] writes is taken up to the order of the
    properties. *)
Class Codec := {
  text : Type;
  text_is_empty : text → bool;
  braces : text;
  JSON_parse : text → option JSON;
  JSON_stringify : JSON → text;
  parse_braces : JSON_parse braces = Some (JObj ∅)
}.

Context `{C : Codec}.

(** [postData()] is [null] when the request has no body. *)
Record Request := mkRequest { postData : option text }.

Record Response := mkResponse {
  status : Z;
  contentType : string;
  body : text
}.

(** What a call of the handler ends in. *)
Inductive Handled :=
| Fulfilled (r : Response)
| Threw (e : Err).

(** [request.postData() || '{}']: [null] and the empty text are falsy. *)
Definition body_or_braces (postData : option text) : text :=
  match postData with
  | Some t => if text_is_empty t then braces else t
  | None => braces
  end.

(** The handler registered for [**/api/posts]; the first component is the
    new value of [interceptedRequest]. *)
Definition posts_route (request : Request) : option Request * Handled :=
  let interceptedRequest := Some request in
  match JSON_parse (body_or_braces (postData request)) with
  | None => (interceptedRequest, Threw SyntaxError)
  | Some postData =>
      if negb (toHaveProperty postData (lit "title")) then
        (interceptedRequest, Threw (AssertionError "title"))
      else if negb (toHaveProperty postData (lit "body")) then
        (interceptedRequest, Threw (AssertionError "body"))
      else
        (interceptedRequest,
         Fulfilled {| status := 201;
                      contentType := "application/json";
                      body := JSON_stringify
                                (JObj (<[lit "userId" := JNum (num 1)]>
                                         (spread postData ∪
                                          <[lit "id" := JNum (num 999)]> ∅))) |})
  end.

(** The claim read literally: the posted document with an [id] added. *)
Definition merged_with_id (payload : gmap jsstring JSON) (id : JSON) : JSON :=
  JObj (<[lit "id" := id]> payload).

End Documents.
End Interceptor.

(** * e2e/context-examples.spec.js: cookies and storage state *)

Module ContextExamples.
Section Cookies.
Context `{E : Engine}.

Inductive SameSite := Strict | Lax | NoRestriction.

(** A cookie as [cookies()] returns it and as a storage state holds it.
    [expires] is a number, the Unix time in seconds, -1 for a session
    cookie; [partitionKey] is there for a partitioned cookie. *)
Record Cookie := mkCookie {
  name : jsstring;
  value : jsstring;
  domain : jsstring;
  path : jsstring;
  expires : number;
  httpOnly : bool;
  secure : bool;
  sameSite : SameSite;
  partitionKey : option jsstring
}.

(** An element of the argument of [addCookies]: [name] and [value], and
    optionally the rest. *)
Record SetCookie := mkSetCookie {
  set_name : jsstring;
  set_value : jsstring;
  set_url : option jsstring;
  set_domain : option jsstring;
  set_path : option jsstring;
  set_expires : option number;
  set_httpOnly : option bool;
  set_secure : option bool;
  set_sameSite : option SameSite;
  set_partitionKey : option jsstring
}.

(** What the browser decides about cookies is a parameter:

    - [instant]: the points in time at which calls are made;
    - [stored_as a]: the cookie the browser stores for the argument [a]
      of [addCookies], with the domain and path of its [url] and the
      defaults filled in; [None] when the argument is rejected (neither
      a [url] nor a [domain] and [path], an invalid [expires], ...);
    - [live t c]: at the instant [t] the cookie [c] has not expired;
    - [affects url c]: the cookie [c] is sent to [url]. *)
Class CookieRules := {
  instant : Type;
  stored_as : SetCookie → option Cookie;
  live : instant → Cookie → bool;
  affects : jsstring → Cookie → bool
}.

Context `{R : CookieRules}.

(** Two cookies with the same name, domain and path (and, when they are
    partitioned, the same partition) are the same cookie of a store:
    setting one replaces the other. *)
Definition key (c : Cookie) : jsstring * jsstring * jsstring * option jsstring :=
  (name c, domain c, path c, partitionKey c).

(** Setting a cookie at the instant [now]: it takes the place of the
    cookie with its key, if there is one; a cookie that has already
    expired is not kept, so that setting it only removes. *)
Definition put (now : instant) (c : Cookie) (jar : list Cookie) : list Cookie :=
  let others := List.filter (fun c' => negb (bool_decide (key c' = key c))) jar in
  if live now c then others ++ [c] else others.

Definition put_all (now : instant) (cs : list Cookie) (jar : list Cookie)
    : list Cookie :=
  foldl (fun jar c => put now c jar) jar cs.

(** The local storage of an origin, as a storage state holds it. *)
Record Origin := mkOrigin {
  origin : jsstring;
  localStorage : list (jsstring * jsstring)
}.

(** The document [storageState()] returns and writes. *)
Record StorageState := mkStorageState {
  cookies : list Cookie;
  origins : list Origin
}.

(** A browser context: its cookie store, the local storage of its
    origins, and whether it has been closed. *)
Record BrowserContext := mkBrowserContext {
  jar : list Cookie;
  storage : list Origin;
  closed : bool
}.

(** A file holds a storage state or something else. *)
Inductive File :=
| StateFile (state : StorageState)
| OtherFile.

(** What a scenario works on: the files on disk and the contexts of the
    browser, which scripts refer to by their index. *)
Record Env := mkEnv {
  files : gmap string File;
  contexts : list BrowserContext
}.

(** A call returns or throws, and leaves the files and contexts. *)
Inductive Result (A : Type) :=
| Done (a : A) (env : Env)
| Failed (e : Err) (env : Env).
Global Arguments Done {A} a env.
Global Arguments Failed {A} e env.

Definition Script (A : Type) : Type := Env → Result A.

(** What a call returned, if it did. *)
Definition returned {A} (r : Result A) : option A :=
  match r with Done a _ => Some a | Failed _ _ => None end.

Definition pure {A} (a : A) : Script A := fun env => Done a env.

Definition raise {A} (e : Err) : Script A := fun env => Failed e env.

Definition and_then {A C} (m : Script A) (k : A → Script C) : Script C :=
  fun env => match m env with
             | Done a env' => k a env'
             | Failed e env' => Failed e env'
             end.

(** A context that is still open. *)
Definition open_context (h : nat) : Script BrowserContext :=
  fun env => match contexts env !! h with
             | Some context =>
                 if closed context
                 then Failed (Error "Target page, context or browser has been closed") env
                 else Done context env
             | None => Failed TypeError env
             end.

Definition update_context (h : nat) (context : BrowserContext) : Script unit :=
  fun env => Done tt {| files := files env;
                        contexts := <[h := context]> (contexts env) |}.

(** [browser.newContext()] and [browser.newContext({ storageState: path })]:
    the new context is empty, or is populated with the storage state the
    file holds, each saved cookie being set on it.  A file that is not
    there, or that holds no storage state, makes the call throw. *)
Definition newContext (now : instant) (storageState : option string) : Script nat :=
  fun env =>
    let create context :=
      Done (length (contexts env))
           {| files := files env; contexts := contexts env ++ [context] |} in
    match storageState with
    | None => create {| jar := []; storage := []; closed := false |}
    | Some path =>
        match files env !! path with
        | Some (StateFile state) =>
            create {| jar := put_all now (cookies state) [];
                      storage := origins state;
                      closed := false |}
        | Some OtherFile => Failed (Error "the file holds no storage state") env
        | None => Failed (Error "ENOENT: no such file or directory") env
        end
    end.

(** [context.addCookies(cookies)]: the arguments are checked first, and
    one that is rejected makes the call throw with nothing added; then
    the cookies are set in order. *)
Definition addCookies (now : instant) (h : nat) (cookies : list SetCookie)
    : Script unit :=
  and_then (open_context h) (fun context =>
    match mapM stored_as cookies with
    | None => raise (Error "the cookie is rejected")
    | Some cs =>
        update_context h {| jar := put_all now cs (jar context);
                            storage := storage context;
                            closed := closed context |}
    end).

(** The cookies a list of URLs selects: all of them when no URL is
    given. *)
Definition selected (urls : list jsstring) (c : Cookie) : bool :=
  match urls with
  | [] => true
  | _ => existsb (fun url => affects url c) urls
  end.

(** [context.cookies(urls)]: the cookies that have not expired and that
    affect one of the URLs. *)
Definition context_cookies (now : instant) (h : nat) (urls : list jsstring)
    : Script (list Cookie) :=
  and_then (open_context h) (fun context =>
    pure (List.filter (selected urls) (List.filter (live now) (jar context)))).

(** [context.storageState({ path })]: the state holds the current
    cookies and local storage; it is written to the file when a path is
    given, and returned. *)
Definition storageState (now : instant) (h : nat) (path : option string)
    : Script StorageState :=
  and_then (open_context h) (fun context =>
    let state := {| cookies := List.filter (live now) (jar context);
                    origins := storage context |} in
    fun env =>
      Done state
           match path with
           | Some path =>
               {| files := <[path := StateFile state]> (files env);
                  contexts := contexts env |}
           | None => env
           end).

(** [context.close()] *)
Definition close (h : nat) : Script unit :=
  fun env =>
    match contexts env !! h with
    | Some context =>
        Done tt {| files := files env;
                   contexts := <[h := {| jar := jar context;
                                         storage := storage context;
                                         closed := true |}]> (contexts env) |}
    | None => Failed TypeError env
    end.

(** [expect(v).toBeTruthy()] *)
Definition expect_toBeTruthy (v : bool) : Script unit :=
  if v then pure tt else raise (AssertionError "toBeTruthy").

(** [cookie => cookie.name === text] *)
Definition named (text : string) (cookie : Cookie) : bool :=
  bool_decide (name cookie = lit text).

Definition EXAMPLE_URL : jsstring := lit "https://example.com".

(** The two cookies the scenario adds. *)
Definition auth_cookie : SetCookie :=
  {| set_name := lit "auth"; set_value := lit "token123";
     set_url := None;
     set_domain := Some (lit "example.com"); set_path := Some (lit "/");
     set_expires := None; set_httpOnly := Some true;
     set_secure := None; set_sameSite := None; set_partitionKey := None |}.
Definition theme_cookie : SetCookie :=
  {| set_name := lit "theme"; set_value := lit "dark";
     set_url := Some (lit "https://example.com");
     set_domain := None; set_path := None;
     set_expires := None; set_httpOnly := None;
     set_secure := None; set_sameSite := None; set_partitionKey := None |}.

End Cookies.
End ContextExamples.

(** Sequencing of these calls is written [x ← m; k] and [m;; k] too. *)
Global Instance Script_ret `{E : Engine} : MRet ContextExamples.Script :=
  @ContextExamples.pure E.
Global Instance Script_bind `{E : Engine} : MBind ContextExamples.Script :=
  fun A C k m => ContextExamples.and_then m k.

Module ContextScenario.
Import ContextExamples.
Section Scenario.
Context `{E : Engine} {R : CookieRules}.

(** The test 'Context cookies and storage state'; [clock i] is the
    instant of its i-th call of the framework. *)
Definition cookies_and_storage_state (clock : nat → instant) : Script unit :=
  context ← newContext (clock 0%nat) None;
  addCookies (clock 1%nat) context [auth_cookie; theme_cookie];;
  cookies ← context_cookies (clock 2%nat) context [EXAMPLE_URL];
  expect_toBeTruthy (existsb (named "auth") cookies);;
  let statePath := "tests/.authState.json" in
  storageState (clock 3%nat) context (Some statePath);;
  close context;;
  reused ← newContext (clock 4%nat) (Some statePath);
  reusedCookies ← context_cookies (clock 5%nat) reused [EXAMPLE_URL];
  expect_toBeTruthy (existsb (named "theme") reusedCookies);;
  close reused.

(** The same calls for any cookies, URLs and path, without the
    expectations: what the reused context returns as its cookies. *)
Definition reuse_storage_state (clock : nat → instant) (cookies : list SetCookie)
    (statePath : string) (urls : list jsstring) : Script (list Cookie) :=
  context ← newContext (clock 0%nat) None;
  addCookies (clock 1%nat) context cookies;;
  storageState (clock 3%nat) context (Some statePath);;
  close context;;
  reused ← newContext (clock 4%nat) (Some statePath);
  context_cookies (clock 5%nat) reused urls.

(** A cookie of the list that no later cookie of the list replaces. *)
Definition last_with_its_key (cs : list Cookie) (c : Cookie) : Prop :=
  ∃ before after, cs = (before ++ c :: after)%list ∧
                  Forall (fun c' => key c' ≠ key c) after.

(** No two cookies of a store have the same key. *)
Definition one_per_key (jar : list Cookie) : Prop :=
  ∀ c c', c ∈ jar → c' ∈ jar → key c = key c' → c = c'.

End Scenario.
End ContextScenario.

(** * Engines for examples *)

(** The integers a double holds exactly and [toString()] prints in plain
    decimal: those below 2^53 in absolute value. *)
Definition safe (z : Z) : bool := (Z.abs z <? 2 ^ 53)%Z.

Record SafeInteger := mkSafe { value : Z; value_safe : safe value = true }.

(** The number of an integer literal in that range (0 stands in for a
    literal outside it, which the examples do not write). *)
Definition safe_integer (z : Z) : SafeInteger :=
  match safe z as b return safe z = b → SafeInteger with
  | true => mkSafe z
  | false => fun _ => mkSafe 0 eq_refl
  end eq_refl.

(** Whether every double quote of a text is closed. *)
Fixpoint closed_quotes (inside : bool) (s : string) : bool :=
  match s with
  | EmptyString => negb inside
  | String c rest =>
      if Ascii.eqb c (Ascii.ascii_of_nat 34) then closed_quotes (negb inside) rest
      else closed_quotes inside rest
  end.

(** An engine for examples.  Its numbers are the safe integers, its
    strings are those whose code units are bytes, and its selector
    engine accepts the texts whose quotes are closed. *)
Definition ExampleEngine : Engine := {|
  number := SafeInteger;
  number_truthy := fun n => negb (value n =? 0)%Z;
  number_toString := fun n => pretty (value n);
  num := safe_integer;
  jsstring := string;
  jsstring_eq_dec := _;
  jsstring_countable := _;
  lit := id;
  lit_inj := _;
  units := fun s => (fun c => String c EmptyString) <$> String.list_ascii_of_string s;
  selector_parses := closed_quotes false
|}.

(** Bodies for examples, up to the document they denote: [Document d]
    stands for a JSON text of [d], [Other s] for the text [s], which is
    not JSON. *)
Inductive ExampleText :=
| Document (d : @Interceptor.JSON ExampleEngine)
| Other (s : string).

Definition ExampleCodec : @Interceptor.Codec ExampleEngine := {|
  Interceptor.text := ExampleText;
  Interceptor.text_is_empty :=
    fun t => match t with Other EmptyString => true | _ => false end;
  Interceptor.braces := Document (Interceptor.JObj ∅);
  Interceptor.JSON_parse :=
    fun t => match t with Document d => Some d | Other _ => None end;
  Interceptor.JSON_stringify := Document;
  Interceptor.parse_braces := eq_refl
|}.

(** Cookie rules for examples.  Instants are Unix times in seconds.  A
    URL is [http://] or [https://], a host, and possibly a path. *)
Definition after_scheme (url : string) : option (bool * string) :=
  if String.prefix "https://" url
  then Some (true, String.substring 8 (String.length url - 8) url)
  else if String.prefix "http://" url
  then Some (false, String.substring 7 (String.length url - 7) url)
  else None.

Definition host_of (rest : string) : string :=
  match String.index 0 "/" rest with
  | Some i => String.substring 0 i rest
  | None => rest
  end.

Definition pathname_of (rest : string) : string :=
  match String.index 0 "/" rest with
  | Some i => String.substring i (String.length rest - i) rest
  | None => "/"
  end.

(** The part of a path up to its last slash. *)
Fixpoint up_to_last_slash (s : string) : string :=
  match s with
  | EmptyString => EmptyString
  | String c rest =>
      match up_to_last_slash rest with
      | EmptyString =>
          if Ascii.eqb c (Ascii.ascii_of_nat 47) then String c EmptyString
          else EmptyString
      | r => String c r
      end
  end.

Definition ends_with (s suffix : string) : bool :=
  (String.length suffix <=? String.length s)%nat
  && String.eqb (String.substring (String.length s - String.length suffix)
                                  (String.length suffix) s) suffix.

(** An argument needs either a [url] or a [domain] and a [path]; a
    [url] gives the host as domain, the directory of its path as path,
    and [secure] by its scheme.  A cookie is a session cookie by
    default. *)
Definition example_stored_as (a : @ContextExamples.SetCookie ExampleEngine)
    : option (@ContextExamples.Cookie ExampleEngine) :=
  let cookie domain path secure :=
    @ContextExamples.mkCookie ExampleEngine
      (ContextExamples.set_name a) (ContextExamples.set_value a) domain path
      (default (safe_integer (-1)) (ContextExamples.set_expires a))
      (default false (ContextExamples.set_httpOnly a))
      secure
      (default ContextExamples.Lax (ContextExamples.set_sameSite a))
      (ContextExamples.set_partitionKey a) in
  match ContextExamples.set_url a, ContextExamples.set_domain a,
        ContextExamples.set_path a with
  | Some url, None, None =>
      match after_scheme url with
      | Some (https, rest) =>
          Some (cookie (host_of rest) (up_to_last_slash (pathname_of rest)) https)
      | None => None
      end
  | None, Some domain, Some path =>
      Some (cookie domain path (default false (ContextExamples.set_secure a)))
  | _, _, _ => None
  end.

(** A session cookie does not expire; another one is live before its
    time. *)
Definition example_live (now : Z) (c : @ContextExamples.Cookie ExampleEngine) : bool :=
  (value (ContextExamples.expires c) <? 0)%Z
  || (now <? value (ContextExamples.expires c))%Z.

(** A cookie is sent to the hosts of its domain, below its path, and,
    when it is secure, over https only. *)
Definition example_affects (url : string) (c : @ContextExamples.Cookie ExampleEngine)
    : bool :=
  match after_scheme url with
  | Some (https, rest) =>
      let host := host_of rest in
      let domain := ContextExamples.domain c in
      (String.eqb host domain
       || String.eqb ("." +:+ host) domain
       || (String.prefix "." domain && ends_with host domain))
      && String.prefix (ContextExamples.path c) (pathname_of rest)
      && (negb (ContextExamples.secure c) || https)
  | None => false
  end.

Definition ExampleRules : @ContextExamples.CookieRules ExampleEngine := {|
  ContextExamples.instant := Z;
  ContextExamples.stored_as := example_stored_as;
  ContextExamples.live := example_live;
  ContextExamples.affects := example_affects
|}.

(** Instants for examples: one second per call, from the year 2001 on. *)
Definition example_clock (i : nat) : Z := (1000000000 + Z.of_nat i)%Z.

(** A scenario starts with no file and no context. *)
Definition empty_env : @ContextExamples.Env ExampleEngine :=
  {| ContextExamples.files := ∅; ContextExamples.contexts := [] |}.

(** Two cookies with the same name, domain and path, and a cookie that
    expired in 1970. *)
Definition light_theme : @ContextExamples.SetCookie ExampleEngine :=
  @ContextExamples.mkSetCookie ExampleEngine "theme" "light"
    (Some "https://example.com") None None None None None None None.
Definition dark_theme : @ContextExamples.SetCookie ExampleEngine :=
  @ContextExamples.mkSetCookie ExampleEngine "theme" "dark"
    (Some "https://example.com") None None None None None None None.
Definition stale_cookie : @ContextExamples.SetCookie ExampleEngine :=
  @ContextExamples.mkSetCookie ExampleEngine "old" "1"
    (Some "https://example.com") None None (Some (safe_integer 1)) None None None
    None.

(** A header, a footer and a product page built on a page of
    [StaticPage], in an otherwise empty heap: the object is at address
    0 (the product page at 2, after its header and footer). *)
Definition header_on (w : @World StaticPage) : @St StaticPage :=
  final (HeaderComponent.new (B := StaticPage) 0 (start w)).
Definition footer_on (w : @World StaticPage) : @St StaticPage :=
  final (FooterComponent.new (B := StaticPage) 0 (start w)).
Definition product_on (w : @World StaticPage) : @St StaticPage :=
  final (ProductPage.new (B := StaticPage) 0 (start w)).

(** Two arguments of [addToCartWithOptions]:
    [{ quantity: 2, size: 'M', color: 'red' }] and [{ quantity: 0 }]. *)
Definition red_shirts : @Options ExampleEngine :=
  @mkOptions ExampleEngine (Some (safe_integer 2)) (Some "M") (Some "red").
Definition zero_quantity : @Options ExampleEngine :=
  @mkOptions ExampleEngine (Some (safe_integer 0)) None None.

(** The payload the scenario posts, and the same with a [userId]. *)
Definition test_post : gmap string (@Interceptor.JSON ExampleEngine) :=
  <["body" := @Interceptor.JStr ExampleEngine "Test Body"]>
    (<["title" := @Interceptor.JStr ExampleEngine "Test Post"]> ∅).
Definition test_post_of_user_7 : gmap string (@Interceptor.JSON ExampleEngine) :=
  <["userId" := @Interceptor.JNum ExampleEngine (safe_integer 7)]> test_post.

(** * The operations of the page objects *)

Section PageOps.
Context `{B : Browser} `{E : Engine}.

(** The public operations of LoginPage, DashboardPage, ProductPage and
    the [goto] of BasePage. *)
Inductive PageOp :=
| Login_goto (baseUrl : string)
| Login_login (email password : string)
| Login_loginWithRememberMe (email password : string)
| Login_clickForgotPassword
| Login_getErrorMessage
| Login_hasErrorMessage
| Login_fillEmail (email : string)
| Login_fillPassword (password : string)
| Login_isFormVisible
| Dashboard_goto (baseUrl : option string)
| Dashboard_navigateToTransactions
| Dashboard_getWelcomeMessage
| Dashboard_logout
| Dashboard_goHome
| Dashboard_getStatsCount
| Dashboard_isLoaded
| Product_goto (productId baseUrl : option string)
| Product_addToCart
| Product_addToCartWithOptions (options : Argument Options)
| Product_getProductTitle
| Product_getProductPrice
| Product_getProductDescription
| Product_searchProduct (query : string)
| Product_scrollToReviews
| Product_isLoaded
| Base_goto (url : string).

Definition invoke_page (op : PageOp) (this : nat) : M Val :=
  match op with
  | Login_goto baseUrl => LoginPage.goto this baseUrl
  | Login_login email password => LoginPage.login this email password
  | Login_loginWithRememberMe email password =>
      LoginPage.loginWithRememberMe this email password
  | Login_clickForgotPassword => LoginPage.clickForgotPassword this
  | Login_getErrorMessage => LoginPage.getErrorMessage this
  | Login_hasErrorMessage => LoginPage.hasErrorMessage this
  | Login_fillEmail email => LoginPage.fillEmail this email
  | Login_fillPassword password => LoginPage.fillPassword this password
  | Login_isFormVisible => LoginPage.isFormVisible this
  | Dashboard_goto baseUrl => DashboardPage.goto this baseUrl
  | Dashboard_navigateToTransactions => DashboardPage.navigateToTransactions this
  | Dashboard_getWelcomeMessage => DashboardPage.getWelcomeMessage this
  | Dashboard_logout => DashboardPage.logout this
  | Dashboard_goHome => DashboardPage.goHome this
  | Dashboard_getStatsCount => DashboardPage.getStatsCount this
  | Dashboard_isLoaded => DashboardPage.isLoaded this
  | Product_goto productId baseUrl => ProductPage.goto this productId baseUrl
  | Product_addToCart => ProductPage.addToCart this
  | Product_addToCartWithOptions options => ProductPage.addToCartWithOptions this options
  | Product_getProductTitle => ProductPage.getProductTitle this
  | Product_getProductPrice => ProductPage.getProductPrice this
  | Product_getProductDescription => ProductPage.getProductDescription this
  | Product_searchProduct query => ProductPage.searchProduct this query
  | Product_scrollToReviews => ProductPage.scrollToReviews this
  | Product_isLoaded => ProductPage.isLoaded this
  | Base_goto url => BasePage.goto this url
  end.

(** How many user-facing actions a page operation may need. *)
Definition page_action_budget (op : PageOp) : nat :=
  match op with
  | Login_getErrorMessage | Login_hasErrorMessage | Login_isFormVisible
  | Dashboard_getWelcomeMessage | Dashboard_getStatsCount | Dashboard_isLoaded
  | Product_getProductTitle | Product_getProductPrice
  | Product_getProductDescription | Product_isLoaded => 0
  | Login_login _ _ => 3
  | Login_loginWithRememberMe _ _ | Product_addToCartWithOptions _ => 4
  | Dashboard_navigateToTransactions | Dashboard_logout
  | Product_searchProduct _ => 2
  | _ => 1
  end.

(** A computation that leaves the heap as it found it, whether it
    returns or throws. *)
Definition keeps_heap {A} (m : M A) : Prop :=
  ∀ s, heap (final (m s)) = heap s.

(** The page operations that are one guarded interaction, with the
    locator they guard on. *)
Inductive GuardedOp :=
| Guarded_addToCart
| Guarded_scrollToReviews
| Guarded_clickForgotPassword.

Definition guarded_new (g : GuardedOp) : Page → M nat :=
  match g with
  | Guarded_clickForgotPassword => LoginPage.new
  | _ => ProductPage.new
  end.

Definition run_guarded (g : GuardedOp) (this : nat) : M Val :=
  match g with
  | Guarded_addToCart => ProductPage.addToCart this
  | Guarded_scrollToReviews => ProductPage.scrollToReviews this
  | Guarded_clickForgotPassword => LoginPage.clickForgotPassword this
  end.

Definition guarded_locator (g : GuardedOp) (page : Page) : Locator :=
  match g with
  | Guarded_addToCart => ProductPage.addToCartBtn page
  | Guarded_scrollToReviews => ProductPage.reviewsSection page
  | Guarded_clickForgotPassword => LoginPage.forgotPasswordLink page
  end.

Definition guarded_action (g : GuardedOp) (page : Page) : Action :=
  match g with
  | Guarded_addToCart => Click (ProductPage.addToCartBtn page)
  | Guarded_scrollToReviews => ScrollIntoView (ProductPage.reviewsSection page)
  | Guarded_clickForgotPassword => Click (LoginPage.forgotPasswordLink page)
  end.

(** The page operations that hand over to the header of the page. *)
Inductive Delegation :=
| Delegate_searchProduct (query : string)
| Delegate_navigateToTransactions
| Delegate_logout
| Delegate_goHome.

Definition delegation_new (d : Delegation) : Page → M nat :=
  match d with
  | Delegate_searchProduct _ => ProductPage.new
  | _ => DashboardPage.new
  end.

Definition run_delegation (d : Delegation) (this : nat) : M Val :=
  match d with
  | Delegate_searchProduct query => ProductPage.searchProduct this query
  | Delegate_navigateToTransactions => DashboardPage.navigateToTransactions this
  | Delegate_logout => DashboardPage.logout this
  | Delegate_goHome => DashboardPage.goHome this
  end.

(** The header operation behind each of them. *)
Definition delegated_to (d : Delegation) : ComponentOp :=
  match d with
  | Delegate_searchProduct query => Header_search query
  | Delegate_navigateToTransactions => Header_search "transactions"
  | Delegate_logout => Header_logout
  | Delegate_goHome => Header_clickLogo
  end.

(** [this] is a page object built by [new] whose [header] field refers
    to [hdr], and [hdr] is a header built for the same page. *)
Definition page_with_header (new : Page → M nat) (page : Page)
    (this hdr : nat) (h : list Obj) : Prop :=
  instance_of new page this h ∧
  (∃ o, h !! this = Some o ∧ get "header" o = VRef hdr) ∧
  instance_of HeaderComponent.new page hdr h.

(** The events a computation adds to the trace are [evs], of which the
    user-facing ones are [acts]. *)
Definition added (s s' : St) (acts : list Event) : Prop :=
  ∃ evs, trace s' = (trace s ++ evs)%list ∧ List.filter user_facing evs = acts.

End PageOps.

(** A browser with a user menu that opens: the page is the flag "the menu
    is open"; the logout button is there only when it is, and a click on
    the user menu opens it. *)
Definition DropdownPage : Browser := {|
  World := bool;
  resolve := fun open l =>
    if bool_decide (l = HeaderComponent.logoutBtn 0)
    then (if open then [mkElement "Logout" true] else [])
    else [mkElement "item" true];
  perform := fun open a =>
    match a with
    | Click l => if bool_decide (l = HeaderComponent.userMenu 0)
                 then Some true else Some open
    | _ => Some open
    end;
  times_out := fun _ _ => false;
  regexp_compiles := fun _ => true
|}.

(** A header built on the page with the menu closed. *)
Definition closed_menu : @St DropdownPage :=
  final (HeaderComponent.new (B := DropdownPage) 0
           (@mkSt DropdownPage false [] [])).

(** A login page and a dashboard built on a page of [StaticPage]; the
    dashboard is at address 2, after its header and footer. *)
Definition login_on (w : @World StaticPage) : @St StaticPage :=
  final (LoginPage.new (B := StaticPage) 0 (start w)).
Definition dashboard_on (w : @World StaticPage) : @St StaticPage :=
  final (DashboardPage.new (B := StaticPage) 0 (start w)).

(** A page with an e-mail input and nothing else. *)
Definition email_only_page : @World StaticPage :=
  fun l => if bool_decide (l = LoginPage.emailInput 0)
           then [mkElement "email" true] else [].

(** A footer with three links. *)
Definition three_links_page : @World StaticPage :=
  fun l =>
    if bool_decide (l = FooterComponent.footerLinks 0)
    then [mkElement "About" true; mkElement "Contact" true; mkElement "Terms" true]
    else if bool_decide (l = Nth (FooterComponent.footerLinks 0) 0)
    then [mkElement "About" true]
    else if bool_decide (l = Nth (FooterComponent.footerLinks 0) 1)
    then [mkElement "Contact" true]
    else if bool_decide (l = Nth (FooterComponent.footerLinks 0) 2)
    then [mkElement "Terms" true]
    else [].

(** * e2e/interceptor-examples.spec.js: the [**/api/login] and
      [**/api/users/1] routes *)

Module Routes.
Import Interceptor.
Section Handlers.
Context `{E : Engine} {C : Codec}.

(** A request as these handlers read it: its method and its body
    ([postData()] is [null] when there is none). *)
Record Request := mkRequest { method : string; postData : option text }.

(** [v.k] on a parsed document, for a name [k] that no prototype
    defines ([username], [password]): reading a property of [null]
    throws; elsewhere a property that is not there reads as
    [undefined], here [None]. *)
Definition property (v : JSON) (k : jsstring) : Err + option JSON :=
  match v with
  | JNull => inl TypeError
  | JObj m => inr (m !! k)
  | _ => inr None
  end.

(** [v === 'text'] *)
Definition is_string (v : option JSON) (text : string) : bool :=
  match v with
  | Some (JStr t) => bool_decide (t = lit text)
  | _ => false
  end.

Definition granted : Response :=
  {| status := 200;
     contentType := "application/json";
     body := JSON_stringify
               (JObj (<[lit "message" := JStr (lit "Login successful")]>
                        (<[lit "token" := JStr (lit "mock-token-123")]> ∅))) |}.

Definition denied : Response :=
  {| status := 401;
     contentType := "application/json";
     body := JSON_stringify
               (JObj (<[lit "message" := JStr (lit "Invalid credentials")]> ∅)) |}.

(** The handler registered for [**/api/login].  The body is parsed
    first; [a && b] reads [body.password] only when the user name
    matched. *)
Definition login_route (request : Request) : Handled :=
  match JSON_parse (body_or_braces (postData request)) with
  | None => Threw SyntaxError
  | Some body =>
      match property body (lit "username") with
      | inl e => Threw e
      | inr username =>
          if is_string username "admin" then
            match property body (lit "password") with
            | inl e => Threw e
            | inr password =>
                if is_string password "admin123" then Fulfilled granted
                else Fulfilled denied
            end
          else Fulfilled denied
      end
  end.

(** The handler registered for [**/api/users/1] in the PUT scenario: the
    body is parsed before the method is looked at. *)
Definition put_route (request : Request) : Handled :=
  match JSON_parse (body_or_braces (postData request)) with
  | None => Threw SyntaxError
  | Some updateData =>
      if negb (String.eqb (method request) "PUT") then
        Threw (AssertionError "method")
      else
        Fulfilled {| status := 200;
                     contentType := "application/json";
                     body := JSON_stringify
                               (JObj (<[lit "updated" := JBool true]>
                                        (spread updateData ∪
                                         <[lit "id" := JNum (num 1)]> ∅))) |}
  end.

End Handlers.
End Routes.

(** * e2e/SOLID: the tests that run a strategy *)

Module SOLIDTests.
Import SOLID.
Section Tests.
Context `{B : Browser}.

(** [new UsernamePasswordAuth(username, password)] *)
Definition new_UsernamePasswordAuth (username password : string) : Obj :=
  let this := blank "UsernamePasswordAuth" in
  let this := set "username" (VStr username) this in
  let this := set "password" (VStr password) this in
  this.

(** [LoginTest.run(page)], for a test holding a [strategy] of class [C]. *)
Definition LoginTest_run (C : Class) (strategy : Obj) (page : Val) : M Val :=
  call C "authenticate" strategy page;;
  mret VUndefined.

(** [CheckoutTest.run(page)], for a test holding a [notificationService]
    of class [C]. *)
Definition CheckoutTest_run (C : Class) (notificationService : Obj) (page : Val)
    : M Val :=
  page ← arg_page page;
  page_goto page "/checkout";;
  page_click page "#confirm-purchase";;
  call C "send" notificationService (VStr "Purchase completed successfully!");;
  mret VUndefined.

(** No notification among some events: no console line and no API
    post. *)
Definition no_notification (evs : list Event) : Prop :=
  Forall (fun e => match e with
                   | Console _ | Did (ApiPost _ _) => False
                   | _ => True
                   end) evs.

End Tests.
End SOLIDTests.

(** * Properties *)

Local Open Scope list_scope.

(** Unfolding a script down to the browser. *)
Ltac unfold_script :=
  unfold mbind, M_bind, bind, mret, M_ret, ret, throw, catch,
    field_locator, field_page, field_ref, field, count, click, fill,
    selectOption, check, scrollIntoViewIfNeeded, interact, interact_first,
    textContent, Playwright.isVisible, keyboard_press, page_goto, request_post,
    page_action, new_RegExp, parse_selector, console_log, log, with_world in *;
  cbn [heap world trace] in *.

(** Running an unfolded script with what is known about the heap, the
    fields and the page. *)
Ltac run :=
  repeat first
    [ progress cbn [world heap trace]
    | match goal with
      | H : heap ?s !! ?this = Some _ |- context [heap ?s !! ?this] => rewrite H
      | H : get ?k ?o = _ |- context [get ?k ?o] => rewrite H
      | H : resolve ?w ?l = _ |- context [resolve ?w ?l] => rewrite H
      | H : regexp_compiles ?p = _ |- context [regexp_compiles ?p] => rewrite H
      | H : perform ?w ?a = _ |- context [perform ?w ?a] => rewrite H
      | H : selector_parses ?t = _ |- context [selector_parses ?t] => rewrite H
      end
    | progress cbn ].

Section Facts.
Context `{B : Browser}.

Lemma alloc_lookup (o : Obj) (this : nat) (s0 s1 : St) :
  alloc o s0 = Ok this s1 → heap s1 !! this = Some o.
Proof.
  unfold alloc. intros H. inversion H; subst; clear H. cbn.
  rewrite lookup_app_r by lia. by rewrite Nat.sub_diag.
Qed.

(** What the constructor of a header leaves in the heap. *)
Lemma header_object (page : Page) (this : nat) (h : list Obj) :
  instance_of HeaderComponent.new page this h →
  ∃ o, h !! this = Some o ∧ cls o = "HeaderComponent" ∧
    get "page" o = VPage page ∧
    get "logo" o = VLocator (HeaderComponent.logo page) ∧
    get "searchInput" o = VLocator (HeaderComponent.searchInput page) ∧
    get "userMenu" o = VLocator (HeaderComponent.userMenu page) ∧
    get "logoutBtn" o = VLocator (HeaderComponent.logoutBtn page) ∧
    get "navigationLinks" o = VLocator (HeaderComponent.navigationLinks page).
Proof.
  intros (s0 & s1 & Hnew & Hlk).
  unfold HeaderComponent.new, HeaderComponent.constructor in Hnew.
  cbn in Hnew. apply alloc_lookup in Hnew. rewrite Hnew in Hlk.
  eexists; split; [exact Hlk|]. repeat split; vm_compute; reflexivity.
Qed.

Lemma footer_object (page : Page) (this : nat) (h : list Obj) :
  instance_of FooterComponent.new page this h →
  ∃ o, h !! this = Some o ∧ cls o = "FooterComponent" ∧
    get "page" o = VPage page ∧
    get "footer" o = VLocator (FooterComponent.footer page) ∧
    get "footerLinks" o = VLocator (FooterComponent.footerLinks page) ∧
    get "copyrightText" o = VLocator (FooterComponent.copyrightText page) ∧
    get "socialLinks" o = VLocator (FooterComponent.socialLinks page).
Proof.
  intros (s0 & s1 & Hnew & Hlk).
  unfold FooterComponent.new, FooterComponent.constructor in Hnew.
  cbn in Hnew. apply alloc_lookup in Hnew. rewrite Hnew in Hlk.
  eexists; split; [exact Hlk|]. repeat split; vm_compute; reflexivity.
Qed.

Lemma user_actions_app (xs ys : list Event) :
  user_actions (xs ++ ys) = (user_actions xs + user_actions ys)%nat.
Proof. unfold user_actions. by rewrite List.filter_app, length_app. Qed.

Lemma quiet_intro (s : St) (v : Val) (evs : list Event) :
  user_actions evs = 0%nat →
  quiet s (Ok v {| world := world s; heap := heap s; trace := (trace s ++ evs)%list |}).
Proof. intros H. exists v. eexists. repeat split. by exists evs. Qed.

End Facts.

Ltac quiet_done :=
  repeat rewrite <- app_assoc; apply quiet_intro; reflexivity.

Section C1.
Context `{B : Browser}.

(** C1 (as amended). Every public operation of HeaderComponent and
    FooterComponent other than [clickLogo], invoked on an instance while
    every locator it targets matches no element (for [logout]: both the
    user menu and the logout button), returns normally, performs no
    user-facing action and leaves the page and the heap unchanged;
    [clickSocialLink] needs its argument to be a well-formed regular
    expression. *)
Theorem absent_target_is_noop (op : ComponentOp) (page : Page) (this : nat) (s : St) :
  instance_of (component_new op) page this (heap s) →
  Forall (absent (world s)) (targets op page) →
  interacts_unguarded op = false →
  pattern_compiles op = true →
  quiet s (invoke op this s).
Proof.
  intros Hi Ha Hg Hp. unfold absent in Ha.
  destruct op; cbn [component_new] in Hi; try discriminate Hg;
    lazymatch type of Hi with
    | instance_of HeaderComponent.new _ _ _ =>
        apply header_object in Hi
          as (o & Hlk & _ & Hpage & Hlogo & Hsearch & Hmenu & Hout & Hnav)
    | instance_of FooterComponent.new _ _ _ =>
        apply footer_object in Hi
          as (o & Hlk & _ & Hpage & Hfooter & Hlinks & Hcopy & Hsocial)
    end;
    cbn [targets invoke pattern_compiles] in *;
    repeat match goal with
           | H : Forall _ (_ :: _) |- _ => apply Forall_cons in H as [? H]
           end.
  - unfold HeaderComponent.search. unfold_script. run. quiet_done.
  - unfold HeaderComponent.openUserMenu. unfold_script. run. quiet_done.
  - unfold HeaderComponent.logout, HeaderComponent.openUserMenu.
    unfold_script. run. quiet_done.
  - unfold HeaderComponent.navigateTo. unfold_script. run. quiet_done.
  - unfold HeaderComponent.isVisible. unfold_script. run. quiet_done.
  - unfold FooterComponent.clickLink. unfold_script. run. quiet_done.
  - unfold FooterComponent.getCopyrightText. unfold_script. run. quiet_done.
  - unfold FooterComponent.clickSocialLink. unfold_script. run. quiet_done.
  - unfold FooterComponent.isVisible. unfold_script. run. quiet_done.
  - unfold FooterComponent.getAllLinks. unfold_script. run. quiet_done.
Qed.

End C1.

(** ** Counting user-facing actions *)

Section Bounds.
Context `{B : Browser}.

Lemma bounded_bind (a b : nat) {A C} (m : M A) (k : A → M C) :
  bounded a m → (∀ x, bounded b (k x)) → bounded (a + b) (m ≫= k).
Proof.
  intros Hm Hk s. unfold mbind, M_bind, bind.
  destruct (Hm s) as (e1 & H1 & L1).
  destruct (m s) as [x s1|e s1]; cbn in *.
  - destruct (Hk x s1) as (e2 & H2 & L2). exists (e1 ++ e2).
    rewrite H2, H1, app_assoc, user_actions_app. split; [done | lia].
  - exists e1. split; [done | lia].
Qed.

Lemma bounded_catch (a b : nat) {A} (m : M A) (h : Err → M A) :
  bounded a m → (∀ e, bounded b (h e)) → bounded (a + b) (catch m h).
Proof.
  intros Hm Hh s. unfold catch.
  destruct (Hm s) as (e1 & H1 & L1).
  destruct (m s) as [x s1|e s1]; cbn in *.
  - exists e1. split; [done | lia].
  - destruct (Hh e s1) as (e2 & H2 & L2). exists (e1 ++ e2).
    rewrite H2, H1, app_assoc, user_actions_app. split; [done | lia].
Qed.

Lemma bounded_ret (n : nat) {A} (a : A) : bounded n (mret a : M A).
Proof. intros s. exists []. cbn. rewrite app_nil_r. split; [done | lia]. Qed.

Lemma bounded_throw (n : nat) {A} (e : Err) : bounded n (throw e : M A).
Proof. intros s. exists []. cbn. rewrite app_nil_r. split; [done | lia]. Qed.

Lemma bounded_field_locator (n : nat) (this : nat) (k : string) :
  bounded n (field_locator this k).
Proof.
  intros s. exists []. unfold field_locator.
  destruct (heap s !! this) as [o|]; [destruct (get k o)|];
    cbn; rewrite app_nil_r; (split; [done | lia]).
Qed.

Lemma bounded_field_page (n : nat) (this : nat) (k : string) :
  bounded n (field_page this k).
Proof.
  intros s. exists []. unfold field_page.
  destruct (heap s !! this) as [o|]; [destruct (get k o)|];
    cbn; rewrite app_nil_r; (split; [done | lia]).
Qed.

Lemma bounded_count (n : nat) (l : Locator) : bounded n (count l).
Proof. intros s. exists [Resolved l]. cbn. split; [done | lia]. Qed.

Lemma bounded_textContent (n : nat) (l : Locator) : bounded n (textContent l).
Proof.
  intros s. exists [Resolved l]. unfold textContent.
  destruct (resolve (world s) l) as [|e [|e' r]]; cbn; (split; [done | lia]).
Qed.

Lemma bounded_isVisible (n : nat) (l : Locator) : bounded n (Playwright.isVisible l).
Proof.
  intros s. exists [Resolved l]. unfold Playwright.isVisible.
  destruct (resolve (world s) l) as [|e [|e' r]]; cbn; (split; [done | lia]).
Qed.

Lemma bounded_new_RegExp (n : nat) (source flags : string) :
  bounded n (new_RegExp source flags).
Proof.
  intros s. exists []. unfold new_RegExp.
  destruct (regexp_compiles source); cbn; rewrite app_nil_r; (split; [done | lia]).
Qed.

(** One strict interaction is at most one action. *)
Lemma bounded_interact (n : nat) (a : Action) (l : Locator) :
  bounded (S n) (interact a l).
Proof.
  intros s. unfold interact.
  destruct (resolve (world s) l) as [|e [|e' r]]; [| destruct (perform (world s) a) |].
  - exists [Resolved l]. split; [done | unfold user_actions; cbn; lia].
  - exists [Resolved l; Did a]. split; [cbn; by rewrite <- app_assoc |].
    unfold user_actions. destruct a; cbn; lia.
  - exists [Resolved l]. split; [done | unfold user_actions; cbn; lia].
  - exists [Resolved l]. split; [done | unfold user_actions; cbn; lia].
Qed.

Lemma bounded_page_action (n : nat) (a : Action) : bounded (S n) (page_action a).
Proof.
  intros s. unfold page_action. destruct (perform (world s) a).
  - exists [Did a]. split; [done |].
    unfold user_actions. destruct a; cbn; lia.
  - exists []. destruct (times_out (world s) a); cbn; rewrite app_nil_r;
      (split; [done | lia]).
Qed.

End Bounds.

(** Bounding a script by the bounds of its framework calls. *)
Ltac bound0 :=
  first [ apply bounded_ret | apply bounded_throw | apply bounded_field_locator
        | apply bounded_field_page | apply bounded_count
        | apply bounded_textContent | apply bounded_isVisible
        | apply bounded_new_RegExp
        | apply (bounded_catch 0); [ bound0 | intros; bound0 ] ].
Ltac bound1 :=
  first [ apply bounded_interact | apply bounded_page_action ].
Ltac bound :=
  lazymatch goal with
  | |- bounded _ (if ?b then _ else _) => destruct b; bound
  | |- bounded _ (mbind _ _) =>
      first [ apply (bounded_bind 0); [ bound0 | intros; bound ]
            | apply (bounded_bind 1); [ bound1 | intros; bound ] ]
  | |- _ => first [ bound0 | bound1 ]
  end.

Section C4.
Context `{B : Browser}.

Lemma getAllLinks_loop_bounded (n : nat) (this : nat) (indices : list nat) :
  ∀ links, bounded n (FooterComponent.getAllLinks_loop this indices links).
Proof.
  induction indices as [|i rest IH]; intros links; cbn [FooterComponent.getAllLinks_loop].
  - bound.
  - apply (bounded_bind 0); [bound0 | intros].
    apply (bounded_bind 0); [bound0 | intros]. apply IH.
Qed.

Lemma openUserMenu_bounded (n : nat) (this : nat) :
  bounded (S n) (HeaderComponent.openUserMenu this).
Proof.
  unfold HeaderComponent.openUserMenu, click. bound.
Qed.

(** C4 (as amended). Every public operation of HeaderComponent and
    FooterComponent performs at most two user-facing actions per call:
    [search] (a fill, then Enter) and [logout] (the user menu, then the
    logout button) at most two, the checks and getters none, every
    other operation at most one. *)
Theorem component_op_action_budget (op : ComponentOp) (this : nat) (s : St) :
  ∃ evs, trace (final (invoke op this s)) = (trace s ++ evs)%list ∧
         (user_actions evs ≤ action_budget op)%nat.
Proof.
  revert s. change (bounded (action_budget op) (invoke op this)).
  destruct op; cbn [invoke action_budget].
  - unfold HeaderComponent.clickLogo, click. bound.
  - unfold HeaderComponent.search, fill, keyboard_press. bound.
  - apply openUserMenu_bounded.
  - unfold HeaderComponent.logout.
    apply (bounded_bind 1 1); [apply openUserMenu_bounded | intros].
    unfold click. bound.
  - unfold HeaderComponent.navigateTo, click. bound.
  - unfold HeaderComponent.isVisible. bound.
  - unfold FooterComponent.clickLink, click. bound.
  - unfold FooterComponent.getCopyrightText. bound.
  - unfold FooterComponent.clickSocialLink, click. bound.
  - unfold FooterComponent.isVisible. bound.
  - unfold FooterComponent.getAllLinks.
    apply (bounded_bind 0); [bound0 | intros].
    apply (bounded_bind 0); [bound0 | intros].
    apply (bounded_bind 0); [apply getAllLinks_loop_bounded | intros]. bound.
Qed.

End C4.

(** ** The component operations on example pages *)

Section ComponentExamples.
Local Existing Instance StaticPage.

Lemma header_on_instance (w : World) :
  instance_of HeaderComponent.new 0 0 (heap (header_on w)).
Proof. exists (start w), (header_on w). split; reflexivity. Defined.

Lemma footer_on_instance (w : World) :
  instance_of FooterComponent.new 0 0 (heap (footer_on w)).
Proof. exists (start w), (footer_on w). split; reflexivity. Defined.

(** C1, witness: [search] on a page without a search box. *)
Lemma absent_target_is_noop_witness :
  quiet (header_on blank_page)
        (invoke (Header_search "shoes") 0 (header_on blank_page)).
Proof.
  apply (absent_target_is_noop (Header_search "shoes") 0 0 (header_on blank_page)).
  - exists (start blank_page), (header_on blank_page). split; reflexivity.
  - repeat constructor.
  - reflexivity.
  - reflexivity.
Defined.

(** C1, counterexample to the claim as stated: on a page where the logo
    is absent, [clickLogo] called on a header raises (a timeout);
    nothing guards the click. *)
Lemma clickLogo_absent_raises :
  instance_of HeaderComponent.new 0 0 (heap (header_on blank_page)) ∧
  Forall (absent (world (header_on blank_page))) (targets Header_clickLogo 0) ∧
  invoke Header_clickLogo 0 (header_on blank_page)
  = Fault TimeoutError (log (Resolved (HeaderComponent.logo 0)) (header_on blank_page)) ∧
  ¬ quiet (header_on blank_page) (invoke Header_clickLogo 0 (header_on blank_page)).
Proof.
  split; [apply header_on_instance |].
  split; [repeat constructor |].
  assert (E : invoke Header_clickLogo 0 (header_on blank_page)
    = Fault TimeoutError (log (Resolved (HeaderComponent.logo 0)) (header_on blank_page)))
    by (vm_compute; reflexivity).
  split; [exact E |].
  rewrite E. intros (v & s' & Hv & _). discriminate Hv.
Qed.

(** The same for [logout] when only the logout button is missing: the
    user menu is clicked. *)
Lemma logout_without_button_clicks_menu :
  let w : World := fun l => if bool_decide (l = HeaderComponent.logoutBtn 0)
                            then [] else [mkElement "menu" true] in
  absent w (HeaderComponent.logoutBtn 0) ∧
  List.filter user_facing (trace (final (invoke Header_logout 0 (header_on w))))
  = [Did (Click (HeaderComponent.userMenu 0))].
Proof. split; vm_compute; reflexivity. Qed.

(** The loop of [getAllLinks] on a footer with one link. *)
Lemma getAllLinks_one_link :
  ∃ s', FooterComponent.getAllLinks 0 (footer_on full_page)
        = Ok (VArray [VStr "text"]) s' ∧
        instance_of FooterComponent.new 0 0 (heap s').
Proof.
  eexists. split; [vm_compute; reflexivity |]. apply (footer_on_instance full_page).
Qed.

(** C4, counterexample to the claim as stated: with a search box on the
    page, one call of [search] fills it and presses Enter. *)
Lemma search_performs_two_actions :
  List.filter user_facing
    (trace (final (invoke (Header_search "shoes") 0 (header_on full_page))))
  = [Did (Fill (HeaderComponent.searchInput 0) "shoes"); Did (Press 0 "Enter")] ∧
  ¬ (user_actions
       (trace (final (invoke (Header_search "shoes") 0 (header_on full_page)))) ≤ 1)%nat.
Proof.
  split; [vm_compute; reflexivity |].
  assert (E : user_actions
       (trace (final (invoke (Header_search "shoes") 0 (header_on full_page)))) = 2%nat)
    by (vm_compute; reflexivity).
  rewrite E. lia.
Qed.

End ComponentExamples.

(** ** What the page constructors leave in the heap *)

Section PageObjects.
Context `{B : Browser}.

Lemma login_object (page : Page) (this : nat) (h : list Obj) :
  instance_of LoginPage.new page this h →
  ∃ o, h !! this = Some o ∧
    get "page" o = VPage page ∧
    get "emailInput" o = VLocator (LoginPage.emailInput page) ∧
    get "errorMessage" o = VLocator (LoginPage.errorMessage page).
Proof.
  intros (s0 & s1 & Hnew & Hlk).
  unfold LoginPage.new, LoginPage.constructor in Hnew.
  cbn in Hnew. apply alloc_lookup in Hnew. rewrite Hnew in Hlk.
  eexists; split; [exact Hlk|]. repeat split; vm_compute; reflexivity.
Qed.

Lemma dashboard_object (page : Page) (this : nat) (h : list Obj) :
  instance_of DashboardPage.new page this h →
  ∃ o, h !! this = Some o ∧
    get "page" o = VPage page ∧
    get "welcomeMessage" o = VLocator (DashboardPage.welcomeMessage page).
Proof.
  intros (s0 & s1 & Hnew & Hlk).
  unfold DashboardPage.new, DashboardPage.constructor, BasePage.constructor,
    HeaderComponent.new, HeaderComponent.constructor,
    FooterComponent.new, FooterComponent.constructor in Hnew.
  cbn in Hnew. apply alloc_lookup in Hnew. rewrite Hnew in Hlk.
  eexists; split; [exact Hlk|]. repeat split; vm_compute; reflexivity.
Qed.

Lemma product_object (page : Page) (this : nat) (h : list Obj) :
  instance_of ProductPage.new page this h →
  ∃ o, h !! this = Some o ∧
    get "page" o = VPage page ∧
    get "addToCartBtn" o = VLocator (ProductPage.addToCartBtn page) ∧
    get "productTitle" o = VLocator (ProductPage.productTitle page) ∧
    get "productPrice" o = VLocator (ProductPage.productPrice page) ∧
    get "productDescription" o = VLocator (ProductPage.productDescription page) ∧
    get "quantityInput" o = VLocator (ProductPage.quantityInput page) ∧
    get "sizeSelector" o = VLocator (ProductPage.sizeSelector page) ∧
    get "colorSelector" o = VLocator (ProductPage.colorSelector page).
Proof.
  intros (s0 & s1 & Hnew & Hlk).
  unfold ProductPage.new, ProductPage.constructor, BasePage.constructor,
    HeaderComponent.new, HeaderComponent.constructor,
    FooterComponent.new, FooterComponent.constructor in Hnew.
  cbn in Hnew. apply alloc_lookup in Hnew. rewrite Hnew in Hlk.
  eexists; split; [exact Hlk|]. repeat split; vm_compute; reflexivity.
Qed.

End PageObjects.

(** ** C5: visibility checks *)

Section C5.
Context `{B : Browser}.

(** C5. Every visibility check (HeaderComponent.isVisible,
    FooterComponent.isVisible, ProductPage.isLoaded, and likewise
    DashboardPage.isLoaded, LoginPage.hasErrorMessage and
    LoginPage.isFormVisible), called on an instance in any page state,
    returns a boolean and does not raise: it returns what the
    framework's [isVisible] reports for its locator, and [false] when
    that call raises.  The page is left as it was. *)
Theorem visibility_check_returns_boolean
    (c : VisibilityCheck) (page : Page) (this : nat) (s : St) :
  instance_of (check_new c) page this (heap s) →
  ∃ b : bool,
    run_check c this s = Ok (VBool b) (log (Resolved (check_locator c page)) s) ∧
    b = match Playwright.isVisible (check_locator c page) s with
        | Ok visible _ => visible
        | Fault _ _ => false
        end.
Proof.
  intros Hi.
  destruct c; cbn [check_new run_check check_locator] in *.
  - apply header_object in Hi as (o & Hlk & _ & _ & Hl & _).
    unfold HeaderComponent.isVisible. unfold_script. run.
    destruct (resolve (world s) (HeaderComponent.logo page)) as [|e [|e' r]];
      eexists; split; reflexivity.
  - apply footer_object in Hi as (o & Hlk & _ & _ & Hl & _).
    unfold FooterComponent.isVisible. unfold_script. run.
    destruct (resolve (world s) (FooterComponent.footer page)) as [|e [|e' r]];
      eexists; split; reflexivity.
  - apply product_object in Hi as (o & Hlk & _ & _ & Hl & _).
    unfold ProductPage.isLoaded. unfold_script. run.
    destruct (resolve (world s) (ProductPage.productTitle page)) as [|e [|e' r]];
      eexists; split; reflexivity.
  - apply dashboard_object in Hi as (o & Hlk & _ & Hl).
    unfold DashboardPage.isLoaded. unfold_script. run.
    destruct (resolve (world s) (DashboardPage.welcomeMessage page)) as [|e [|e' r]];
      eexists; split; reflexivity.
  - apply login_object in Hi as (o & Hlk & _ & _ & Hl).
    unfold LoginPage.hasErrorMessage. unfold_script. run.
    destruct (resolve (world s) (LoginPage.errorMessage page)) as [|e [|e' r]];
      eexists; split; reflexivity.
  - apply login_object in Hi as (o & Hlk & _ & Hl & _).
    unfold LoginPage.isFormVisible. unfold_script. run.
    destruct (resolve (world s) (LoginPage.emailInput page)) as [|e [|e' r]];
      eexists; split; reflexivity.
Qed.

End C5.

Section C5Examples.
Local Existing Instance StaticPage.

Lemma product_on_instance (w : World) :
  instance_of ProductPage.new 0 2 (heap (product_on w)).
Proof. exists (start w), (product_on w). split; reflexivity. Defined.

(** C5, witness: [isLoaded] on a page with two titles. *)
Lemma visibility_check_returns_boolean_witness :
  ∃ b : bool,
    run_check ProductPage_isLoaded 2 (product_on crowded_page)
    = Ok (VBool b) (log (Resolved (check_locator ProductPage_isLoaded 0))
                        (product_on crowded_page)) ∧
    b = match Playwright.isVisible (check_locator ProductPage_isLoaded 0)
                                   (product_on crowded_page) with
        | Ok visible _ => visible
        | Fault _ _ => false
        end.
Proof.
  apply (visibility_check_returns_boolean ProductPage_isLoaded 0 2
           (product_on crowded_page)).
  exists (start crowded_page), (product_on crowded_page). split; reflexivity.
Defined.

(** There the framework call raises (two elements match) and the check
    answers [false]. *)
Lemma isLoaded_suppresses_fault :
  raised (Playwright.isVisible (ProductPage.productTitle 0) (product_on crowded_page))
  = true ∧
  ∃ s', ProductPage.isLoaded 2 (product_on crowded_page) = Ok (VBool false) s'.
Proof. split; [reflexivity |]. eexists. vm_compute. reflexivity. Qed.

End C5Examples.

(** ** C10: text getters *)

Section C10.
Context `{B : Browser}.

(** The guarded [textContent] every getter consists of. *)
Lemma guarded_textContent (l : Locator) (s : St) :
  let out := (n ← count l; if (0 <? n)%nat then textContent l else mret VNull) s in
  (resolve (world s) l = [] → out = Ok VNull (log (Resolved l) s)) ∧
  (∀ e, resolve (world s) l = [e] →
        out = Ok (VStr (el_text e)) (log (Resolved l) (log (Resolved l) s))) ∧
  ((2 ≤ length (resolve (world s) l))%nat →
        out = Fault StrictModeViolation (log (Resolved l) (log (Resolved l) s))).
Proof.
  cbn zeta. unfold_script. repeat split.
  - intros H. run. reflexivity.
  - intros e H. run. reflexivity.
  - intros H. destruct (resolve (world s) l) as [|e [|e' r]] eqn:E; cbn in H; try lia.
    run. reflexivity.
Qed.

(** C10 (as amended). Every text getter (FooterComponent.getCopyrightText,
    ProductPage.getProductTitle, getProductPrice, getProductDescription,
    LoginPage.getErrorMessage, DashboardPage.getWelcomeMessage), called on
    an instance, returns null when its locator matches no element and
    does not raise then; returns the text content of the element when
    exactly one matches; and raises the framework's strict-mode error when
    several match.  So it returns null exactly when nothing matches. *)
Theorem text_getter_result (g : TextGetter) (page : Page) (this : nat) (s : St) :
  instance_of (getter_new g) page this (heap s) →
  let l := getter_locator g page in
  (resolve (world s) l = [] →
     run_getter g this s = Ok VNull (log (Resolved l) s)) ∧
  (∀ e, resolve (world s) l = [e] →
     run_getter g this s
     = Ok (VStr (el_text e)) (log (Resolved l) (log (Resolved l) s))) ∧
  ((2 ≤ length (resolve (world s) l))%nat →
     run_getter g this s
     = Fault StrictModeViolation (log (Resolved l) (log (Resolved l) s))) ∧
  (∀ s', run_getter g this s = Ok VNull s' → resolve (world s) l = []).
Proof.
  intros Hi l.
  assert (Hrun : run_getter g this s
    = (n ← count l; if (0 <? n)%nat then textContent l else mret VNull) s).
  { subst l. destruct g; cbn [getter_new run_getter getter_locator] in *.
    - apply footer_object in Hi as (o & Hlk & _ & _ & _ & _ & Hl & _).
      unfold FooterComponent.getCopyrightText. unfold_script. run.
      destruct (length _); run; reflexivity.
    - apply product_object in Hi as (o & Hlk & _ & _ & Hl & _).
      unfold ProductPage.getProductTitle. unfold_script. run.
      destruct (length _); run; reflexivity.
    - apply product_object in Hi as (o & Hlk & _ & _ & _ & Hl & _).
      unfold ProductPage.getProductPrice. unfold_script. run.
      destruct (length _); run; reflexivity.
    - apply product_object in Hi as (o & Hlk & _ & _ & _ & _ & Hl & _).
      unfold ProductPage.getProductDescription. unfold_script. run.
      destruct (length _); run; reflexivity.
    - apply login_object in Hi as (o & Hlk & _ & _ & Hl).
      unfold LoginPage.getErrorMessage. unfold_script. run.
      destruct (length _); run; reflexivity.
    - apply dashboard_object in Hi as (o & Hlk & _ & Hl).
      unfold DashboardPage.getWelcomeMessage. unfold_script. run.
      destruct (length _); run; reflexivity. }
  rewrite Hrun. destruct (guarded_textContent l s) as (H0 & H1 & H2).
  repeat split; [exact H0 | exact H1 | exact H2 |].
  intros s' Hnull.
  destruct (resolve (world s) l) as [|e [|e' r]] eqn:E; [done | |].
  - rewrite (H1 e eq_refl) in Hnull. discriminate Hnull.
  - rewrite H2 in Hnull by (cbn; lia). discriminate Hnull.
Qed.

End C10.

Section C10Examples.
Local Existing Instance StaticPage.

(** C10, witness: the title of a product page with one of everything. *)
Lemma text_getter_result_witness :
  ProductPage.getProductTitle 2 (product_on full_page)
  = Ok (VStr "text")
       (log (Resolved (ProductPage.productTitle 0))
            (log (Resolved (ProductPage.productTitle 0)) (product_on full_page))).
Proof.
  exact (proj1 (proj2 (text_getter_result ProductPage_getProductTitle 0 2
                         (product_on full_page) (product_on_instance full_page)))
               (mkElement "text" true) eq_refl).
Defined.

(** C10, counterexample to the claim as stated: the title locator
    matches two elements, which is not zero, and [getProductTitle] does
    not return a text: it raises. *)
Lemma getProductTitle_two_matches_raises :
  instance_of ProductPage.new 0 2 (heap (product_on crowded_page)) ∧
  length (resolve (world (product_on crowded_page)) (ProductPage.productTitle 0)) = 2%nat ∧
  run_getter ProductPage_getProductTitle 2 (product_on crowded_page)
  = Fault StrictModeViolation
      (log (Resolved (ProductPage.productTitle 0))
           (log (Resolved (ProductPage.productTitle 0)) (product_on crowded_page))) ∧
  ¬ ∃ text s', run_getter ProductPage_getProductTitle 2 (product_on crowded_page)
               = Ok (VStr text) s'.
Proof.
  split; [apply product_on_instance |].
  split; [reflexivity |].
  assert (E : run_getter ProductPage_getProductTitle 2 (product_on crowded_page)
    = Fault StrictModeViolation
        (log (Resolved (ProductPage.productTitle 0))
             (log (Resolved (ProductPage.productTitle 0)) (product_on crowded_page))))
    by (vm_compute; reflexivity).
  split; [exact E |].
  rewrite E. intros (text & s' & H). discriminate H.
Qed.

End C10Examples.

(** ** C2 and C6: construction *)

Ltac heap_norm :=
  cbn [heap world trace]; rewrite ?length_app; cbn [length];
  rewrite <- ?app_assoc; cbn [app]; rewrite ?Nat.add_1_r.

Section Construction.
Context `{B : Browser}.

Lemma count_class_cons (C : string) (o : Obj) (h : list Obj) :
  count_class C (o :: h)
  = ((if String.eqb (cls o) C then 1 else 0) + count_class C h)%nat.
Proof. unfold count_class. cbn. by destruct (String.eqb (cls o) C). Qed.

(** What [new BasePage(page)], [new DashboardPage(page)] and
    [new ProductPage(page)] do to a state: a header, a footer and the
    page object are appended to the heap, in this order, and nothing
    else changes. *)
Lemma base_page_construct (C : ClassName) (page : Page) (s : St) :
  extends_BasePage C = true →
  ∃ hdr ftr obj,
    HeaderComponent.new page s
    = Ok (length (heap s))
         {| world := world s; heap := heap s ++ [hdr]; trace := trace s |} ∧
    FooterComponent.new page
      {| world := world s; heap := heap s ++ [hdr]; trace := trace s |}
    = Ok (S (length (heap s)))
         {| world := world s; heap := heap s ++ [hdr; ftr]; trace := trace s |} ∧
    construct C page s
    = Ok (S (S (length (heap s))))
         {| world := world s; heap := heap s ++ [hdr; ftr; obj]; trace := trace s |} ∧
    cls hdr = "HeaderComponent" ∧ cls ftr = "FooterComponent" ∧
    cls obj ≠ "HeaderComponent" ∧ cls obj ≠ "FooterComponent" ∧
    get "header" obj = VRef (length (heap s)) ∧
    get "footer" obj = VRef (S (length (heap s))).
Proof.
  intros HC.
  destruct C; try discriminate HC; cbn [construct];
    unfold BasePage.new, DashboardPage.new, ProductPage.new,
      DashboardPage.constructor, ProductPage.constructor, BasePage.constructor,
      HeaderComponent.new, HeaderComponent.constructor,
      FooterComponent.new, FooterComponent.constructor;
    unfold mbind, M_bind, bind, mret, M_ret, ret, alloc;
    do 3 eexists;
    (split; [reflexivity |]);
    (split; [heap_norm; reflexivity |]);
    (split; [heap_norm; reflexivity |]);
    repeat split; try (vm_compute; congruence); vm_compute; reflexivity.
Qed.

(** C2. For every class that is or extends BasePage (BasePage,
    DashboardPage, ProductPage), [new C(page)] succeeds and, immediately
    afterwards, the fields [header] and [footer] of the new object hold
    references (not null, not undefined) to a HeaderComponent and a
    FooterComponent built for the same page; the construction allocates
    exactly one object of each of these two classes. *)
Theorem page_object_owns_header_and_footer (C : ClassName) (page : Page) (s : St) :
  extends_BasePage C = true →
  ∃ this s' h f added,
    construct C page s = Ok this s' ∧
    field this "header" s' = Ok (VRef h) s' ∧
    field this "footer" s' = Ok (VRef f) s' ∧
    instance_of HeaderComponent.new page h (heap s') ∧
    instance_of FooterComponent.new page f (heap s') ∧
    heap s' = heap s ++ added ∧
    count_class "HeaderComponent" added = 1%nat ∧
    count_class "FooterComponent" added = 1%nat.
Proof.
  intros HC.
  destruct (base_page_construct C page s HC)
    as (hdr & ftr & obj & Hh & Hf & Hc & Ch & Cf & Coh & Cof & Gh & Gf).
  assert (L0 : (heap s ++ [hdr; ftr; obj]) !! length (heap s) = Some hdr).
  { rewrite lookup_app_r by lia. by rewrite Nat.sub_diag. }
  assert (L1 : (heap s ++ [hdr; ftr; obj]) !! S (length (heap s)) = Some ftr).
  { rewrite lookup_app_r by lia.
    by replace (S (length (heap s)) - length (heap s))%nat with 1%nat by lia. }
  assert (L2 : (heap s ++ [hdr; ftr; obj]) !! S (S (length (heap s))) = Some obj).
  { rewrite lookup_app_r by lia.
    by replace (S (S (length (heap s))) - length (heap s))%nat with 2%nat by lia. }
  eexists _, _, (length (heap s)), (S (length (heap s))), [hdr; ftr; obj].
  split; [exact Hc |].
  unfold field. cbn [heap]. rewrite L2, Gh, Gf.
  repeat split.
  - eexists s, _. split; [exact Hh |]. cbn [heap]. rewrite L0.
    rewrite lookup_app_r by lia. by rewrite Nat.sub_diag.
  - eexists _, _. split; [exact Hf |]. cbn [heap]. rewrite L1.
    rewrite lookup_app_r by lia.
    by replace (S (length (heap s)) - length (heap s))%nat with 1%nat by lia.
  - rewrite !count_class_cons, Ch, Cf. cbn.
    destruct (String.eqb_spec (cls obj) "HeaderComponent"); [done | reflexivity].
  - rewrite !count_class_cons, Ch, Cf. cbn.
    destruct (String.eqb_spec (cls obj) "FooterComponent"); [done | reflexivity].
Qed.

(** C6. Constructing any Page Object or Component Object (HeaderComponent,
    FooterComponent, BasePage, LoginPage, DashboardPage, ProductPage)
    succeeds without resolving a locator and without touching the page:
    the page state and the trace of framework calls are unchanged, only
    the heap grows.  The construction does not depend on the page state
    (it gives the same object whatever the page shows), and the object is
    the same instance after the page has changed. *)
Theorem construction_is_lazy (C : ClassName) (page : Page) (s : St) :
  ∃ this s',
    construct C page s = Ok this s' ∧
    world s' = world s ∧
    trace s' = trace s ∧
    resolutions (drop (length (trace s)) (trace s')) = 0%nat ∧
    (∀ w : World,
       construct C page (with_world w s) = Ok this (with_world w s') ∧
       instance_of (construct C) page this (heap (with_world w s'))).
Proof.
  destruct C; cbn [construct];
    unfold BasePage.new, DashboardPage.new, ProductPage.new, LoginPage.new,
      DashboardPage.constructor, ProductPage.constructor, BasePage.constructor,
      LoginPage.constructor,
      HeaderComponent.new, HeaderComponent.constructor,
      FooterComponent.new, FooterComponent.constructor;
    unfold mbind, M_bind, bind, mret, M_ret, ret, alloc;
    cbn [heap world trace];
    do 2 eexists; (split; [reflexivity |]); cbn [heap world trace];
    (split; [reflexivity |]); (split; [reflexivity |]);
    (split; [by rewrite drop_all |]);
    intros w; (split; [reflexivity |]);
    eexists s, _; (split; [reflexivity |]); reflexivity.
Qed.

End Construction.

Section ConstructionExamples.
Local Existing Instance StaticPage.

(** C2, witness: a product page built in an empty heap has its header at
    address 0 and its footer at address 1. *)
Lemma page_object_owns_header_and_footer_witness :
  ∃ this s' h f added,
    construct CProductPage 0 (start blank_page) = Ok this s' ∧
    field this "header" s' = Ok (VRef h) s' ∧
    field this "footer" s' = Ok (VRef f) s' ∧
    instance_of HeaderComponent.new 0 h (heap s') ∧
    instance_of FooterComponent.new 0 f (heap s') ∧
    heap s' = heap (start blank_page) ++ added ∧
    count_class "HeaderComponent" added = 1%nat ∧
    count_class "FooterComponent" added = 1%nat.
Proof.
  apply (page_object_owns_header_and_footer CProductPage 0 (start blank_page)).
  reflexivity.
Defined.

Lemma product_page_fields :
  field 2 "header" (product_on blank_page) = Ok (VRef 0) (product_on blank_page) ∧
  field 2 "footer" (product_on blank_page) = Ok (VRef 1) (product_on blank_page) ∧
  cls <$> heap (product_on blank_page)
  = ["HeaderComponent"; "FooterComponent"; "ProductPage"].
Proof. repeat split; vm_compute; reflexivity. Qed.

End ConstructionExamples.

(** ** C3: add to cart with options *)

Section C3.
Context `{B : Browser} `{E : Engine}.

Lemma bind_inv {A C} (m : M A) (k : A → M C) (s s' : St) (c : C) :
  (m ≫= k) s = Ok c s' → ∃ a s1, m s = Ok a s1 ∧ k a s1 = Ok c s'.
Proof.
  unfold mbind, M_bind, bind. destruct (m s) as [a s1|e s1]; [eauto | discriminate].
Qed.

Lemma stepped_skip (a : Action) (s : St) : stepped false a s s.
Proof.
  repeat split. exists []. by rewrite app_nil_r.
Qed.

(** A strict interaction that returns has acted on the one match. *)
Lemma interact_inv (a : Action) (l : Locator) (s s1 : St) :
  user_facing (Did a) = true →
  interact a l s = Ok tt s1 →
  length (resolve (world s) l) = 1%nat ∧
  perform (world s) a = Some (world s1) ∧
  heap s1 = heap s ∧
  trace s1 = trace s ++ [Resolved l; Did a].
Proof.
  intros Ha. unfold interact, log, with_world.
  destruct (resolve (world s) l) as [|e [|e' r]]; try discriminate.
  destruct (perform (world s) a) as [w|]; try discriminate.
  intros H. inversion H; subst; clear H. cbn. by rewrite <- app_assoc.
Qed.

(** The block [if (await this.k.count() > 0) await this.k.act()]. *)
Lemma guarded_block_inv (this : nat) (k : string) (o : Obj) (l : Locator)
    (act : Locator → Action) (s s1 : St) :
  heap s !! this = Some o → get k o = VLocator l →
  user_facing (Did (act l)) = true →
  (x ← field_locator this k;
   n ← count x;
   if (0 <? n)%nat then y ← field_locator this k; interact (act y) y
   else mret tt) s = Ok tt s1 →
  stepped (0 <? length (resolve (world s) l))%nat (act l) s s1.
Proof.
  intros Hlk Hk Ha H.
  apply bind_inv in H as (x & s0 & Hx & H).
  unfold field_locator in Hx. rewrite Hlk, Hk in Hx. injection Hx as <- <-.
  apply bind_inv in H as (n & s2 & Hn & H).
  unfold count in Hn. injection Hn as <- <-.
  destruct (0 <? length (resolve (world s) l))%nat eqn:E0.
  - apply bind_inv in H as (y & s3 & Hy & H).
    unfold field_locator in Hy. cbn [heap log] in Hy. rewrite Hlk, Hk in Hy.
    injection Hy as <- <-.
    apply interact_inv in H as (_ & Hp & Hh & Ht); [| exact Ha].
    repeat split; [exact Hp | exact Hh |].
    exists [Resolved l; Resolved l; Did (act l)]. split.
    + rewrite Ht. cbn. by rewrite <- app_assoc.
    + cbn [List.filter]. rewrite Ha. reflexivity.
  - injection H as <-. repeat split.
    exists [Resolved l]. split; reflexivity.
Qed.

Lemma addToCart_inv (page : Page) (this : nat) (o : Obj) (s s1 : St) (v : Val) :
  heap s !! this = Some o →
  get "addToCartBtn" o = VLocator (ProductPage.addToCartBtn page) →
  ProductPage.addToCart this s = Ok v s1 →
  v = VUndefined ∧
  stepped (0 <? length (resolve (world s) (ProductPage.addToCartBtn page)))%nat
          (Click (ProductPage.addToCartBtn page)) s s1.
Proof.
  intros Hlk Hk H.
  set (l := ProductPage.addToCartBtn page) in *.
  assert (E0 : ProductPage.addToCart this s
    = ((x ← field_locator this "addToCartBtn";
        n ← count x;
        if (0 <? n)%nat
        then y ← field_locator this "addToCartBtn"; interact (Click y) y
        else mret tt);; mret VUndefined) s).
  { unfold ProductPage.addToCart. unfold_script. run.
    destruct (length (resolve (world s) l)); run; reflexivity. }
  rewrite E0 in H. apply bind_inv in H as ([] & s2 & Hb & Hr).
  injection Hr as <- <-. split; [reflexivity |].
  by apply (guarded_block_inv this "addToCartBtn" o l Click).
Qed.

(** The colour block has a second check, on the option inside the
    selector, whose text has to parse. *)
Lemma color_block_inv (this : nat) (o : Obj) (l : Locator) (selector : string)
    (s s1 : St) :
  heap s !! this = Some o → get "colorSelector" o = VLocator l →
  (colorSelector ← field_locator this "colorSelector";
   n ← count colorSelector;
   if (0 <? n)%nat then
     colorSelector ← field_locator this "colorSelector";
     let colorOption := loc_locator colorSelector selector in
     parse_selector selector;;
     m ← count colorOption;
     if (0 <? m)%nat then click colorOption else mret tt
   else mret tt) s = Ok tt s1 →
  stepped ((0 <? length (resolve (world s) l))%nat
           && (0 <? length (resolve (world s) (loc_locator l selector)))%nat)
          (Click (loc_locator l selector)) s s1 ∧
  ((0 <? length (resolve (world s) l))%nat = true → selector_parses selector = true).
Proof.
  intros Hlk Hk H.
  apply bind_inv in H as (x & s0 & Hx & H).
  unfold field_locator in Hx. rewrite Hlk, Hk in Hx. injection Hx as <- <-.
  apply bind_inv in H as (n & s2 & Hn & H).
  unfold count in Hn. injection Hn as <- <-.
  destruct (0 <? length (resolve (world s) l))%nat eqn:E0; cbn [andb].
  - apply bind_inv in H as (y & s3 & Hy & H).
    unfold field_locator in Hy. cbn [heap log] in Hy. rewrite Hlk, Hk in Hy.
    injection Hy as <- <-. cbn zeta in H.
    set (c := loc_locator l selector) in *.
    apply bind_inv in H as ([] & s5 & Hp & H).
    unfold parse_selector in Hp.
    destruct (selector_parses selector) eqn:Hparse; [| discriminate].
    injection Hp as <-.
    apply bind_inv in H as (m & s4 & Hm & H).
    unfold count in Hm. injection Hm as <- <-. cbn [world log] in H.
    split; [| reflexivity].
    destruct (0 <? length (resolve (world s) c))%nat eqn:E'.
    + apply interact_inv in H as (_ & Hp & Hh & Ht); [| reflexivity].
      repeat split; [exact Hp | exact Hh |].
      exists [Resolved l; Resolved c; Resolved c; Did (Click c)]. split.
      * rewrite Ht. cbn. by rewrite <- !app_assoc.
      * reflexivity.
    + injection H as <-. repeat split.
      exists [Resolved l; Resolved c]. split; [cbn; by rewrite <- app_assoc | reflexivity].
  - injection H as <-. split; [| discriminate]. repeat split.
    exists [Resolved l]. split; reflexivity.
Qed.

Lemma bind_ok {A C} (m : M A) (k : A → M C) (s s1 : St) (a : A) :
  m s = Ok a s1 → (m ≫= k) s = k a s1.
Proof. intros H. unfold mbind, M_bind, bind. by rewrite H. Qed.

(** On a page where the locator matches at most one element and the
    browser carries the action out, a guarded block returns. *)
Lemma guarded_block_returns (this : nat) (k : string) (o : Obj) (l : Locator)
    (act : Locator → Action) (s : St) :
  heap s !! this = Some o → get k o = VLocator l →
  (length (resolve (world s) l) ≤ 1)%nat →
  is_Some (perform (world s) (act l)) →
  ∃ s1, (x ← field_locator this k;
         n ← count x;
         if (0 <? n)%nat then y ← field_locator this k; interact (act y) y
         else mret tt) s = Ok tt s1 ∧ heap s1 = heap s.
Proof.
  intros Hlk Hk Hone [w Hw]. unfold_script. run.
  destruct (resolve (world s) l) as [|e [|e' r]] eqn:E0; cbn in Hone; try lia; run.
  - by eexists.
  - by eexists.
Qed.

(** The argument the body works with, when the call gets past its first
    line. *)
Lemma argument_inv (argument : Argument Options) (options : Options) (s s0 : St) :
  match argument with
  | Omitted => mret no_options
  | Given options => mret options
  | Null => throw TypeError
  end s = Ok options s0 →
  effective argument = Some options ∧ s0 = s.
Proof.
  destruct argument; intros H; try discriminate H; by injection H as <- <-.
Qed.

(** C3 (as amended). For every call of
    ProductPage.addToCartWithOptions(options) on an instance that returns
    (no framework call raises): the argument is not [null], and with
    [options] the argument, or [{}] when it is left out, the quantity is
    filled in, as the text [options.quantity.toString()], exactly when
    [options.quantity] is truthy (present, and not 0, -0 or NaN) and the
    quantity input matches (count > 0); the size is selected exactly when
    [options.size] is truthy (present and not empty) and the size
    selector matches; the colour is clicked exactly when [options.color]
    is truthy, the colour selector matches and the [data-color] option
    inside it matches, and whenever that option is looked for its
    selector text parsed; each count is taken when its guard runs, on
    the page the earlier steps left.  Then [addToCart] runs whatever was
    applied, and clicks the button exactly when it is on the page.  These
    are the only user-facing actions, in this order. *)
Theorem addToCartWithOptions_applies_options
    (page : Page) (this : nat) (argument : Argument Options) (s s' : St) (v : Val) :
  instance_of ProductPage.new page this (heap s) →
  ProductPage.addToCartWithOptions this argument s = Ok v s' →
  ∃ options,
    effective argument = Some options ∧
    let quantityInput := ProductPage.quantityInput page in
    let sizeSelector := ProductPage.sizeSelector page in
    let colorSelector := ProductPage.colorSelector page in
    let selector := "[data-color=" +:+ q (default EmptyString (color options)) +:+ "]" in
    let colorOption := loc_locator colorSelector selector in
    let addToCartBtn := ProductPage.addToCartBtn page in
    ∃ s1 s2 s3,
      stepped (truthy_num (quantity options)
               && (0 <? length (resolve (world s) quantityInput))%nat)
              (Fill quantityInput (quantity_text options)) s s1 ∧
      stepped (truthy_str (size options)
               && (0 <? length (resolve (world s1) sizeSelector))%nat)
              (SelectOption sizeSelector (default EmptyString (size options))) s1 s2 ∧
      stepped (truthy_str (color options)
               && (0 <? length (resolve (world s2) colorSelector))%nat
               && (0 <? length (resolve (world s2) colorOption))%nat)
              (Click colorOption) s2 s3 ∧
      (truthy_str (color options)
       && (0 <? length (resolve (world s2) colorSelector))%nat = true →
       selector_parses selector = true) ∧
      stepped (0 <? length (resolve (world s3) addToCartBtn))%nat
              (Click addToCartBtn) s3 s' ∧
      v = VUndefined.
Proof.
  intros Hi H.
  apply product_object in Hi
    as (o & Hlk & _ & Hbtn & _ & _ & _ & Hq & Hs & Hc).
  unfold ProductPage.addToCartWithOptions in H.
  apply bind_inv in H as (options & s0 & H0 & H).
  apply argument_inv in H0 as [Heff ->].
  exists options. split; [exact Heff |].
  apply bind_inv in H as ([] & s1 & H1 & H).
  apply bind_inv in H as ([] & s2 & H2 & H).
  apply bind_inv in H as ([] & s3 & H3 & H).
  apply bind_inv in H as (r & s4 & H4 & H).
  injection H as <- <-.
  cbn zeta. exists s1, s2, s3.
  assert (S1 : stepped (truthy_num (quantity options)
             && (0 <? length (resolve (world s) (ProductPage.quantityInput page))))%nat
            (Fill (ProductPage.quantityInput page) (quantity_text options)) s s1).
  { destruct (truthy_num (quantity options)); cbn [andb].
    - by apply (guarded_block_inv this "quantityInput" o _
                  (fun x => Fill x (quantity_text options))).
    - injection H1 as <-. apply stepped_skip. }
  assert (Hlk1 : heap s1 !! this = Some o).
  { destruct S1 as (_ & -> & _). exact Hlk. }
  assert (S2 : stepped (truthy_str (size options)
             && (0 <? length (resolve (world s1) (ProductPage.sizeSelector page))))%nat
            (SelectOption (ProductPage.sizeSelector page)
                          (default EmptyString (size options))) s1 s2).
  { destruct (truthy_str (size options)); cbn [andb].
    - by apply (guarded_block_inv this "sizeSelector" o _
                  (fun x => SelectOption x (default EmptyString (size options)))).
    - injection H2 as <-. apply stepped_skip. }
  assert (Hlk2 : heap s2 !! this = Some o).
  { destruct S2 as (_ & -> & _). exact Hlk1. }
  set (selector := "[data-color=" +:+ q (default EmptyString (color options)) +:+ "]")
    in *.
  assert (S3 : stepped (truthy_str (color options)
             && (0 <? length (resolve (world s2) (ProductPage.colorSelector page)))%nat
             && (0 <? length (resolve (world s2)
                   (loc_locator (ProductPage.colorSelector page) selector)))%nat)
            (Click (loc_locator (ProductPage.colorSelector page) selector)) s2 s3 ∧
          (truthy_str (color options)
           && (0 <? length (resolve (world s2) (ProductPage.colorSelector page)))%nat
           = true → selector_parses selector = true)).
  { destruct (truthy_str (color options)); cbn [andb].
    - by apply (color_block_inv this o).
    - injection H3 as <-. split; [apply stepped_skip | discriminate]. }
  destruct S3 as [S3 P3].
  assert (Hlk3 : heap s3 !! this = Some o).
  { destruct S3 as (_ & -> & _). exact Hlk2. }
  destruct (addToCart_inv page this o s3 s4 r Hlk3 Hbtn H4) as [_ S4].
  exact (conj S1 (conj S2 (conj S3 (conj P3 (conj S4 eq_refl))))).
Qed.

(** The call does return when the argument is not [null], the colour
    selector parses and the browser cooperates: no locator ever matches
    more than one element and every action is carried out. *)
Lemma addToCartWithOptions_returns
    (page : Page) (this : nat) (argument : Argument Options) (options : Options)
    (s : St) :
  instance_of ProductPage.new page this (heap s) →
  effective argument = Some options →
  selector_parses ("[data-color=" +:+ q (default EmptyString (color options)) +:+ "]")
  = true →
  (∀ w l, (length (resolve w l) ≤ 1)%nat) →
  (∀ w a, is_Some (perform w a)) →
  ∃ s', ProductPage.addToCartWithOptions this argument s = Ok VUndefined s'.
Proof.
  intros Hi Heff Hparse Hone Hdo.
  apply product_object in Hi
    as (o & Hlk & _ & Hbtn & _ & _ & _ & Hq & Hs & Hc).
  unfold ProductPage.addToCartWithOptions.
  assert (A0 : match argument with
               | Omitted => mret no_options
               | Given options => mret options
               | Null => throw TypeError
               end s = Ok options s).
  { destruct argument; cbn in Heff; try discriminate Heff;
      by injection Heff as <-. }
  rewrite (bind_ok _ _ _ _ _ A0).
  assert (Q : ∃ s1, (if truthy_num (quantity options) then
                       quantityInput ← field_locator this "quantityInput";
                       n ← count quantityInput;
                       if (0 <? n)%nat then
                         quantityInput ← field_locator this "quantityInput";
                         fill quantityInput (quantity_text options)
                       else mret tt
                     else mret tt) s = Ok tt s1 ∧ heap s1 = heap s).
  { destruct (truthy_num (quantity options)); [| by eexists].
    apply (guarded_block_returns this "quantityInput" o
             (ProductPage.quantityInput page)
             (fun x => Fill x (quantity_text options)));
      auto. }
  destruct Q as (s1 & Q & Hh1). rewrite (bind_ok _ _ _ _ _ Q).
  assert (Hlk1 : heap s1 !! this = Some o) by (by rewrite Hh1).
  assert (Z : ∃ s2, (if truthy_str (size options) then
                       sizeSelector ← field_locator this "sizeSelector";
                       n ← count sizeSelector;
                       if (0 <? n)%nat then
                         sizeSelector ← field_locator this "sizeSelector";
                         selectOption sizeSelector (default EmptyString (size options))
                       else mret tt
                     else mret tt) s1 = Ok tt s2 ∧ heap s2 = heap s1).
  { destruct (truthy_str (size options)); [| by eexists].
    apply (guarded_block_returns this "sizeSelector" o
             (ProductPage.sizeSelector page)
             (fun x => SelectOption x (default EmptyString (size options))));
      auto. }
  destruct Z as (s2 & Z & Hh2). rewrite (bind_ok _ _ _ _ _ Z).
  assert (Hlk2 : heap s2 !! this = Some o) by (by rewrite Hh2).
  set (sel := "[data-color=" +:+ q (default EmptyString (color options)) +:+ "]") in *.
  assert (K : ∃ s3, (if truthy_str (color options) then
                       colorSelector ← field_locator this "colorSelector";
                       n ← count colorSelector;
                       if (0 <? n)%nat then
                         colorSelector ← field_locator this "colorSelector";
                         let colorOption := loc_locator colorSelector sel in
                         parse_selector sel;;
                         m ← count colorOption;
                         if (0 <? m)%nat then click colorOption else mret tt
                       else mret tt
                     else mret tt) s2 = Ok tt s3 ∧ heap s3 = heap s2).
  { destruct (truthy_str (color options)); [| by eexists].
    unfold_script. run.
    destruct (length (resolve (world s2) (ProductPage.colorSelector page)));
      run; [by eexists |].
    pose proof (Hone (world s2)
                  (loc_locator (ProductPage.colorSelector page) sel)) as H1.
    destruct (Hdo (world s2)
                (Click (loc_locator (ProductPage.colorSelector page) sel)))
      as [w Hw].
    destruct (resolve (world s2)
                (loc_locator (ProductPage.colorSelector page) sel))
      as [|e [|e' r]] eqn:E0; cbn in H1; try lia; run; by eexists. }
  destruct K as (s3 & K & Hh3). rewrite (bind_ok _ _ _ _ _ K).
  assert (Hlk3 : heap s3 !! this = Some o) by (by rewrite Hh3).
  destruct (guarded_block_returns this "addToCartBtn" o
              (ProductPage.addToCartBtn page) Click s3 Hlk3 Hbtn
              (Hone _ _) (Hdo _ _)) as (s4 & A & _).
  exists s4. unfold ProductPage.addToCart.
  revert A. unfold click. unfold_script. run.
  destruct (length (resolve (world s3) (ProductPage.addToCartBtn page))); run.
  - intros A. injection A as <-. reflexivity.
  - destruct (resolve (world s3) (ProductPage.addToCartBtn page)) as [|e [|e' r]];
      try discriminate.
    destruct (perform (world s3) (Click (ProductPage.addToCartBtn page)));
      try discriminate.
    intros A. injection A as <-. reflexivity.
Qed.

(** [null] for the options is a [TypeError] before anything is looked
    at. *)
Lemma addToCartWithOptions_null (this : nat) (s : St) :
  ProductPage.addToCartWithOptions this Null s = Fault TypeError s.
Proof. reflexivity. Qed.

End C3.

Section C3Examples.
Local Existing Instance StaticPage.
Local Existing Instance ExampleEngine.

(** C3, witness: two red shirts in size M on a page with every control. *)
Lemma addToCartWithOptions_applies_options_witness :
  let s := product_on full_page in
  let s' := final (ProductPage.addToCartWithOptions 2 (Given red_shirts) s) in
  let selector := "[data-color=" +:+ q "red" +:+ "]" in
  let colorOption := loc_locator (ProductPage.colorSelector 0) selector in
  ∃ options,
    effective (Given red_shirts) = Some options ∧
    ∃ s1 s2 s3,
      stepped (truthy_num (quantity options)
               && (0 <? length (resolve (world s) (ProductPage.quantityInput 0)))%nat)
              (Fill (ProductPage.quantityInput 0) (quantity_text options)) s s1 ∧
      stepped (truthy_str (size options)
               && (0 <? length (resolve (world s1) (ProductPage.sizeSelector 0)))%nat)
              (SelectOption (ProductPage.sizeSelector 0)
                            (default EmptyString (size options))) s1 s2 ∧
      stepped (truthy_str (color options)
               && (0 <? length (resolve (world s2) (ProductPage.colorSelector 0)))%nat
               && (0 <? length (resolve (world s2)
                     (loc_locator (ProductPage.colorSelector 0)
                        ("[data-color=" +:+ q (default EmptyString (color options))
                         +:+ "]"))))%nat)
              (Click (loc_locator (ProductPage.colorSelector 0)
                        ("[data-color=" +:+ q (default EmptyString (color options))
                         +:+ "]"))) s2 s3 ∧
      (truthy_str (color options)
       && (0 <? length (resolve (world s2) (ProductPage.colorSelector 0)))%nat = true →
       selector_parses
         ("[data-color=" +:+ q (default EmptyString (color options)) +:+ "]") = true) ∧
      stepped (0 <? length (resolve (world s3) (ProductPage.addToCartBtn 0)))%nat
              (Click (ProductPage.addToCartBtn 0)) s3 s' ∧
      VUndefined = VUndefined.
Proof.
  apply (addToCartWithOptions_applies_options 0 2 (Given red_shirts)
           (product_on full_page)
           (final (ProductPage.addToCartWithOptions 2 (Given red_shirts)
                     (product_on full_page)))
           VUndefined).
  - exists (start full_page), (product_on full_page). split; reflexivity.
  - vm_compute. reflexivity.
Defined.

Lemma red_shirts_actions :
  List.filter user_facing
    (trace (final (ProductPage.addToCartWithOptions 2 (Given red_shirts)
                     (product_on full_page))))
  = [Did (Fill (ProductPage.quantityInput 0) "2");
     Did (SelectOption (ProductPage.sizeSelector 0) "M");
     Did (Click (loc_locator (ProductPage.colorSelector 0)
                             ("[data-color=" +:+ q "red" +:+ "]")));
     Did (Click (ProductPage.addToCartBtn 0))].
Proof. vm_compute. reflexivity. Qed.

(** C3, counterexample to the claim as stated: the quantity 0 is
    provided and the quantity input is on the page, yet the quantity is
    not applied: the only action of the call is the click on the
    add-to-cart button. *)
Lemma quantity_zero_is_skipped :
  quantity zero_quantity = Some (num 0) ∧
  number_toString (num 0) = "0" ∧
  length (resolve (world (product_on full_page)) (ProductPage.quantityInput 0)) = 1%nat ∧
  raised (ProductPage.addToCartWithOptions 2 (Given zero_quantity) (product_on full_page))
  = false ∧
  List.filter user_facing
    (trace (final (ProductPage.addToCartWithOptions 2 (Given zero_quantity)
                     (product_on full_page))))
  = [Did (Click (ProductPage.addToCartBtn 0))].
Proof. repeat split; vm_compute; reflexivity. Qed.

(** When a step raises, the add-to-cart click is not reached: here two
    quantity inputs match and the fill is refused. *)
Lemma crowded_quantity_stops_the_call :
  ProductPage.addToCartWithOptions 2 (Given red_shirts) (product_on crowded_page)
  = Fault StrictModeViolation
      (log (Resolved (ProductPage.quantityInput 0))
           (log (Resolved (ProductPage.quantityInput 0)) (product_on crowded_page))).
Proof. vm_compute. reflexivity. Qed.

End C3Examples.

(** ** C7: the mocked [**/api/posts] route *)

Section C7.
Import Interceptor.
Context `{E : Engine} {C : Codec}.

(** What the fulfilled body holds, property by property. *)
Lemma response_fields (payload : JSON) :
  let b := <[lit "userId" := JNum (num 1)]>
             (spread payload ∪ <[lit "id" := JNum (num 999)]> ∅) in
  b !! lit "userId" = Some (JNum (num 1)) ∧
  b !! lit "id" = Some (default (JNum (num 999)) (spread payload !! lit "id")) ∧
  (∀ k, k ≠ lit "userId" → k ≠ lit "id" → b !! k = spread payload !! k).
Proof.
  assert (Hne : lit "userId" ≠ lit "id") by (intros H; by apply (inj lit) in H).
  cbn zeta. split; [| split].
  - apply lookup_insert_eq.
  - rewrite lookup_insert_ne by exact Hne.
    destruct (spread payload !! lit "id") as [v|] eqn:E0; cbn [default].
    + by apply lookup_union_Some_l.
    + rewrite lookup_union_r by exact E0. apply lookup_insert_eq.
  - intros k Hu Hi. rewrite lookup_insert_ne by done.
    destruct (spread payload !! k) as [v|] eqn:E0.
    + by apply lookup_union_Some_l.
    + rewrite lookup_union_r by exact E0. rewrite lookup_insert_ne by done.
      apply lookup_empty.
Qed.

(** C7 (as amended). For every request, the handler first parses the
    posted text ([{}] when there is none).  When [JSON.parse] rejects the
    text the handler throws its [SyntaxError]; when the parsed payload
    lacks a [title] or a [body] the [expect] throws; nothing is fulfilled
    in either case.  Otherwise the handler fulfils the route with status
    201 and the text [JSON.stringify] makes of an object that holds
    [userId: 1], the payload's own [id] if it has one and [id: 999]
    otherwise, and every other property of the payload as [JSON.parse]
    read it (and nothing else). *)
Theorem posts_route_response (request : Request) :
  match JSON_parse (body_or_braces (postData request)) with
  | None => posts_route request = (Some request, Threw SyntaxError)
  | Some payload =>
      if toHaveProperty payload (lit "title") && toHaveProperty payload (lit "body")
      then
        ∃ b : gmap jsstring JSON,
          posts_route request
          = (Some request,
             Fulfilled {| status := 201; contentType := "application/json";
                          body := JSON_stringify (JObj b) |}) ∧
          b !! lit "userId" = Some (JNum (num 1)) ∧
          b !! lit "id" = Some (default (JNum (num 999)) (spread payload !! lit "id")) ∧
          (∀ k, k ≠ lit "userId" → k ≠ lit "id" → b !! k = spread payload !! k)
      else
        ∃ msg, posts_route request = (Some request, Threw (AssertionError msg))
  end.
Proof.
  unfold posts_route.
  destruct (JSON_parse (body_or_braces (postData request))) as [payload|];
    [| reflexivity].
  destruct (toHaveProperty payload (lit "title")); cbn [andb negb];
    [| by eexists].
  destruct (toHaveProperty payload (lit "body")); cbn [negb]; [| by eexists].
  eexists. split; [reflexivity |]. apply response_fields.
Qed.

(** A request without a body is parsed as [{}], which has no [title]. *)
Lemma posts_route_without_body :
  posts_route (mkRequest None) = (Some (mkRequest None), Threw (AssertionError "title")).
Proof.
  unfold posts_route. cbn [postData body_or_braces]. rewrite parse_braces.
  reflexivity.
Qed.

End C7.

Section C7Examples.
Import Interceptor.
Local Existing Instance ExampleEngine.
Local Existing Instance ExampleCodec.

(** C7, witness: the payload of the scenario. *)
Lemma posts_route_response_witness :
  let request := mkRequest (Some (Document (JObj test_post))) in
  ∃ b : gmap jsstring JSON,
    posts_route request
    = (Some request,
       Fulfilled {| status := 201; contentType := "application/json";
                    body := JSON_stringify (JObj b) |}) ∧
    b !! lit "userId" = Some (JNum (num 1)) ∧
    b !! lit "id" = Some (default (JNum (num 999)) (test_post !! lit "id")) ∧
    (∀ k, k ≠ lit "userId" → k ≠ lit "id" → b !! k = test_post !! k).
Proof.
  exact (posts_route_response (mkRequest (Some (Document (JObj test_post))))).
Defined.

(** The body the handler builds for a parsed object. *)
Lemma posts_route_user_7 :
  posts_route (mkRequest (Some (Document (JObj test_post_of_user_7))))
  = (Some (mkRequest (Some (Document (JObj test_post_of_user_7)))),
     Fulfilled {| status := 201; contentType := "application/json";
                  body := Document
                            (JObj (<["userId" := JNum (num 1)]>
                                     (test_post_of_user_7 ∪
                                      <["id" := JNum (num 999)]> ∅))) |}).
Proof. reflexivity. Qed.

Lemma one_is_not_seven : JNum (num 1) ≠ JNum (num 7).
Proof. intros H. injection H as H. discriminate H. Qed.

(** C7, counterexample to the claim as stated: a payload with
    [userId: 7] comes back with [userId: 1], so a posted field is
    changed and the body is not the payload merged with an id. *)
Lemma posted_userId_is_overwritten :
  let request := mkRequest (Some (Document (JObj test_post_of_user_7))) in
  ∃ b : gmap jsstring JSON,
    posts_route request
    = (Some request,
       Fulfilled {| status := 201; contentType := "application/json";
                    body := Document (JObj b) |}) ∧
    test_post_of_user_7 !! "userId" = Some (JNum (num 7)) ∧
    b !! "userId" = Some (JNum (num 1)) ∧
    ∀ id, JObj b ≠ merged_with_id test_post_of_user_7 id.
Proof.
  eexists. split; [exact posts_route_user_7 |].
  split; [reflexivity |]. split; [apply lookup_insert_eq |].
  intros id H. unfold merged_with_id in H.
  apply (f_equal (fun j => match j with JObj m => m !! "userId" | _ => None end)) in H.
  rewrite lookup_insert_eq in H.
  rewrite lookup_insert_ne in H by discriminate.
  change (test_post_of_user_7 !! "userId") with (Some (JNum (num 7))) in H.
  injection H as H. by apply one_is_not_seven.
Qed.

(** Even for the scenario's own payload the body has a [userId], which
    the payload merged with an id has not. *)
Lemma response_adds_userId :
  ∃ b : gmap jsstring JSON,
    snd (posts_route (mkRequest (Some (Document (JObj test_post)))))
    = Fulfilled {| status := 201; contentType := "application/json";
                   body := Document (JObj b) |} ∧
    b !! "userId" = Some (JNum (num 1)) ∧
    test_post !! "userId" = None ∧
    ∀ id, JObj b ≠ merged_with_id test_post id.
Proof.
  exists (<["userId" := JNum (num 1)]> (test_post ∪ <["id" := JNum (num 999)]> ∅)).
  split; [reflexivity |]. split; [apply lookup_insert_eq |].
  split; [reflexivity |].
  intros id H. unfold merged_with_id in H.
  apply (f_equal (fun j => match j with JObj m => m !! "userId" | _ => None end)) in H.
  rewrite lookup_insert_eq in H.
  rewrite lookup_insert_ne in H by discriminate.
  change (test_post !! "userId") with (@None JSON) in H.
  discriminate H.
Qed.

(** A body that is not JSON makes the handler throw when it parses. *)
Lemma posts_route_form_encoded :
  snd (posts_route (mkRequest (Some (Other "title=Test&body=Test")))) = Threw SyntaxError.
Proof. reflexivity. Qed.

End C7Examples.

(** ** C8: cookies and the storage state *)

(** Looking up a context or a file that a call has just written. *)
Ltac env_steps Hlen :=
  repeat first
    [ progress cbn [ContextExamples.contexts ContextExamples.files
                    ContextExamples.jar ContextExamples.storage
                    ContextExamples.closed ContextExamples.cookies
                    ContextExamples.origins lookup list_lookup]
    | rewrite list_lookup_insert_eq by (rewrite ?length_insert; exact Hlen)
    | rewrite lookup_insert_eq
    | rewrite lookup_app_r by reflexivity; rewrite Nat.sub_diag ].

Section C8.
Import ContextExamples ContextScenario.
Context `{E : Engine} {R : CookieRules}.

Lemma elem_of_List_filter {A} (f : A → bool) (l : list A) (x : A) :
  x ∈ List.filter f l ↔ x ∈ l ∧ f x = true.
Proof. rewrite !list_elem_of_In. apply filter_In. Qed.

(** After a cookie is set, the store holds it, if it is live, and the
    cookies it had under other keys. *)
Lemma elem_of_put (now : instant) (x c : Cookie) (jar : list Cookie) :
  c ∈ put now x jar ↔ (c = x ∧ live now x = true) ∨ (c ∈ jar ∧ key c ≠ key x).
Proof.
  unfold put. destruct (live now x).
  - rewrite elem_of_app, elem_of_List_filter, list_elem_of_singleton.
    rewrite negb_true_iff, bool_decide_eq_false. split.
    + intros [[Hc Hk] | ->]; [by right | by left].
    + intros [[-> _] | [Hc Hk]]; [by right | by left].
  - rewrite elem_of_List_filter, negb_true_iff, bool_decide_eq_false. split.
    + intros [Hc Hk]. by right.
    + intros [[_ Hv] | [Hc Hk]]; [discriminate Hv | done].
Qed.

Lemma last_with_its_key_nil (c : Cookie) : ¬ last_with_its_key [] c.
Proof. intros (before & after & H & _). by destruct before. Qed.

Lemma last_with_its_key_cons (x c : Cookie) (cs : list Cookie) :
  last_with_its_key (x :: cs) c ↔
  last_with_its_key cs c ∨ (c = x ∧ Forall (fun c' => key c' ≠ key c) cs).
Proof.
  split.
  - intros (before & after & H & Hafter). destruct before as [|b before].
    + injection H as -> ->. by right.
    + injection H as -> ->. left. by exists before, after.
  - intros [(before & after & -> & Hafter) | [-> Hcs]].
    + by exists (x :: before), after.
    + by exists [], cs.
Qed.

(** After a list of cookies is set in order, the store holds the live
    ones that no later cookie of the list replaced, and the cookies it
    had under keys the list does not touch. *)
Lemma elem_of_put_all (now : instant) (cs : list Cookie) (c : Cookie) :
  ∀ jar,
    c ∈ put_all now cs jar ↔
    (last_with_its_key cs c ∧ live now c = true) ∨
    (c ∈ jar ∧ Forall (fun c' => key c' ≠ key c) cs).
Proof.
  induction cs as [|x cs IH]; intros jar.
  - cbn. pose proof (last_with_its_key_nil c) as Hnil. split.
    + intros Hc. right. by split.
    + intros [[Hl _] | [Hc _]]; [by destruct Hnil | exact Hc].
  - change (put_all now (x :: cs) jar) with (put_all now cs (put now x jar)).
    rewrite IH, elem_of_put, last_with_its_key_cons, Forall_cons.
    split.
    + intros [[Hl Hv] | [[[-> Hv] | [Hj Hk]] Hcs]].
      * left. split; [by left | exact Hv].
      * left. split; [by right | exact Hv].
      * right. split; [exact Hj |]. split; [| exact Hcs]. intros Heq. by apply Hk.
    + intros [[[Hl | [-> Hcs]] Hv] | [Hj [Hk Hcs]]].
      * left. by split.
      * right. split; [| exact Hcs]. left. by split.
      * right. split; [| exact Hcs]. right. split; [exact Hj |].
        intros Heq. by apply Hk.
Qed.

Lemma one_per_key_put (now : instant) (x : Cookie) (jar : list Cookie) :
  one_per_key jar → one_per_key (put now x jar).
Proof.
  intros Hjar c c' Hc Hc' Heq.
  apply elem_of_put in Hc as [[-> _] | [Hc Hk]];
    apply elem_of_put in Hc' as [[-> _] | [Hc' Hk']].
  - reflexivity.
  - exfalso. apply Hk'. by symmetry.
  - exfalso. by apply Hk.
  - by apply Hjar.
Qed.

Lemma one_per_key_put_all (now : instant) (cs : list Cookie) :
  ∀ jar, one_per_key jar → one_per_key (put_all now cs jar).
Proof.
  induction cs as [|x cs IH]; intros jar Hjar; [exact Hjar |].
  apply IH. by apply one_per_key_put.
Qed.

Lemma one_per_key_filter (f : Cookie → bool) (jar : list Cookie) :
  one_per_key jar → one_per_key (List.filter f jar).
Proof.
  intros Hjar c c'. rewrite !elem_of_List_filter.
  intros [Hc _] [Hc' _]. by apply Hjar.
Qed.

(** In a store every cookie is the last one with its key. *)
Lemma one_per_key_last (jar : list Cookie) (c : Cookie) :
  one_per_key jar → c ∈ jar → last_with_its_key jar c.
Proof.
  induction jar as [|x jar IH]; intros Hjar Hc; [by apply elem_of_nil in Hc |].
  apply last_with_its_key_cons.
  assert (Hrest : one_per_key jar).
  { intros a b Ha Hb. apply Hjar; by right. }
  destruct (decide (Exists (fun c' => key c' = key c) jar)) as [Hex | Hno].
  - left. apply IH; [exact Hrest |].
    apply Exists_exists in Hex as (c' & Hc' & Hk).
    assert (c' = c) as <-; [| exact Hc'].
    apply Hjar; [by right | exact Hc | exact Hk].
  - right. apply not_Exists_Forall in Hno; [| intros c'; apply _].
    split; [| exact Hno].
    apply elem_of_cons in Hc as [-> | Hc]; [reflexivity |].
    rewrite Forall_forall in Hno. by destruct (Hno c Hc).
Qed.

Lemma last_with_its_key_elem_of (cs : list Cookie) (c : Cookie) :
  last_with_its_key cs c → c ∈ cs.
Proof.
  intros (before & after & -> & _). apply elem_of_app. right. by left.
Qed.

(** A new context populated from a saved store holds the cookies of the
    store that are still live. *)
Lemma elem_of_populate (now : instant) (saved : list Cookie) (c : Cookie) :
  one_per_key saved →
  c ∈ put_all now saved [] ↔ c ∈ saved ∧ live now c = true.
Proof.
  intros Hsaved. rewrite elem_of_put_all. split.
  - intros [[Hl Hv] | [Hc _]]; [| by apply elem_of_nil in Hc].
    split; [by apply last_with_its_key_elem_of | exact Hv].
  - intros [Hc Hv]. left. split; [by apply one_per_key_last | exact Hv].
Qed.

(** C8 (as amended). For every list of cookies given to [addCookies] on
    a new context, every path and every choice of URLs, at whatever
    instants the calls are made: when the browser rejects one of the
    cookies, [addCookies] throws and no file is written.  Otherwise the
    calls return, the file at the path holds a storage state, and the
    cookies of the context created from that file are exactly the
    cookies that were added and not replaced by a later cookie of the
    list with the same name, domain and path (and partition, if they are
    partitioned), that had not expired when
    they were added, when the state was saved, when the new context was
    created, nor when its cookies are asked for, and that affect one of
    the URLs asked for.  The saved state holds those of them that were
    live when it was saved. *)
Theorem storage_state_round_trip
    (clock : nat → instant) (cookies : list SetCookie) (statePath : string)
    (urls : list jsstring) (env : Env) :
  match mapM stored_as cookies with
  | None =>
      ∃ env', reuse_storage_state clock cookies statePath urls env
              = Failed (Error "the cookie is rejected") env' ∧
              files env' = files env
  | Some cs =>
      ∃ reusedCookies env' saved,
        reuse_storage_state clock cookies statePath urls env
        = Done reusedCookies env' ∧
        files env' !! statePath = Some (StateFile saved) ∧
        (∀ c, c ∈ ContextExamples.cookies saved ↔
              last_with_its_key cs c ∧
              live (clock 1%nat) c = true ∧ live (clock 3%nat) c = true) ∧
        (∀ c, c ∈ reusedCookies ↔
              c ∈ ContextExamples.cookies saved ∧
              live (clock 4%nat) c = true ∧ live (clock 5%nat) c = true ∧
              selected urls c = true)
  end.
Proof.
  unfold reuse_storage_state, newContext, addCookies, storageState, close,
    context_cookies, open_context, update_context.
  unfold mbind, Script_bind, and_then, mret, Script_ret, pure, raise.
  cbn [contexts files].
  rewrite lookup_app_r by reflexivity. rewrite Nat.sub_diag. cbn [lookup list_lookup closed].
  destruct (mapM stored_as cookies) as [cs|]; [| by eexists].
  assert (Hlen : (length (contexts env)
                  < length (contexts env ++ [mkBrowserContext [] [] false]))%nat)
    by (rewrite length_app; cbn; lia).
  env_steps Hlen.
  set (jar1 := put_all (clock 1%nat) cs []).
  set (saved := List.filter (live (clock 3%nat)) jar1).
  assert (Hjar1 : one_per_key jar1).
  { apply one_per_key_put_all. intros c c' Hc. by apply elem_of_nil in Hc. }
  assert (Hsaved : one_per_key saved) by (by apply one_per_key_filter).
  eexists _, _, (mkStorageState saved []).
  split; [reflexivity |]. split; [apply lookup_insert_eq |].
  cbn [ContextExamples.cookies]. split.
  - intros c. unfold saved. rewrite elem_of_List_filter. unfold jar1.
    rewrite elem_of_put_all. split.
    + intros [[[Hl Hv] | [Hc _]] H3]; [done | by apply elem_of_nil in Hc].
    + intros (Hl & H1 & H3). split; [by left | exact H3].
  - intros c. rewrite !elem_of_List_filter.
    rewrite (elem_of_populate _ _ _ Hsaved). split.
    + intros [[[Hc H4] H5] Hsel]. done.
    + intros (Hc & H4 & H5 & Hsel). done.
Qed.

(** The same for any open context whose store has one cookie per key,
    whatever was added to it and in how many calls: the context created
    from its saved state holds its cookies, those that have expired
    apart. *)
Lemma saved_context_is_reused
    (t3 t4 t5 : instant) (h : nat) (context : BrowserContext) (statePath : string)
    (urls : list jsstring) (env : Env) :
  contexts env !! h = Some context →
  closed context = false →
  one_per_key (jar context) →
  ∃ reusedCookies env',
    (storageState t3 h (Some statePath);;
     close h;;
     reused ← newContext t4 (Some statePath);
     context_cookies t5 reused urls) env = Done reusedCookies env' ∧
    ∀ c, c ∈ reusedCookies ↔
         c ∈ jar context ∧ live t3 c = true ∧ live t4 c = true ∧
         live t5 c = true ∧ selected urls c = true.
Proof.
  intros Hctx Hopen Hone.
  pose proof (lookup_lt_Some _ _ _ Hctx) as Hlen.
  unfold newContext, storageState, close, context_cookies, open_context.
  unfold mbind, Script_bind, and_then, mret, Script_ret, pure, raise.
  rewrite Hctx, Hopen. env_steps Hlen. rewrite Hctx. env_steps Hlen.
  eexists _, _. split; [reflexivity |].
  intros c. rewrite !elem_of_List_filter.
  rewrite elem_of_populate by (by apply one_per_key_filter).
  rewrite elem_of_List_filter. split.
  - intros [[[[Hc H3] H4] H5] Hsel]. done.
  - intros (Hc & H3 & H4 & H5 & Hsel). done.
Qed.

(** Every call of [addCookies] keeps one cookie per key. *)
Lemma addCookies_one_per_key
    (now : instant) (h : nat) (cookies : list SetCookie) (env env' : Env) :
  (∀ i context, contexts env !! i = Some context → one_per_key (jar context)) →
  addCookies now h cookies env = Done tt env' →
  ∀ i context, contexts env' !! i = Some context → one_per_key (jar context).
Proof.
  intros Hall. unfold addCookies, open_context, update_context, and_then, raise.
  destruct (contexts env !! h) as [context0|] eqn:Hctx; [| discriminate].
  destruct (closed context0); [discriminate |].
  destruct (mapM stored_as cookies) as [cs|]; [| discriminate].
  intros H. injection H as <-. cbn [contexts]. intros i context Hi.
  destruct (decide (i = h)) as [-> | Hne].
  - rewrite list_lookup_insert_eq in Hi by (by eapply lookup_lt_Some).
    injection Hi as <-. cbn [jar]. apply one_per_key_put_all. by eapply Hall.
  - rewrite list_lookup_insert_ne in Hi by done. by eapply Hall.
Qed.

(** When the scenario of the test passes, the calls it makes are those
    of [reuse_storage_state] on its two cookies, and a cookie named
    [theme] is among the cookies of the reused context. *)
Lemma scenario_reuses_storage_state (clock : nat → instant) (env env' : Env) :
  cookies_and_storage_state clock env = Done tt env' →
  ∃ reusedCookies env1,
    reuse_storage_state clock [auth_cookie; theme_cookie] "tests/.authState.json"
      [EXAMPLE_URL] env = Done reusedCookies env1 ∧
    existsb (named "theme") reusedCookies = true.
Proof.
  unfold cookies_and_storage_state, reuse_storage_state, newContext, addCookies,
    storageState, close, context_cookies, open_context, update_context,
    expect_toBeTruthy.
  unfold mbind, Script_bind, and_then, mret, Script_ret, pure, raise.
  cbn [contexts files].
  rewrite lookup_app_r by reflexivity. rewrite Nat.sub_diag. cbn [lookup list_lookup closed].
  destruct (mapM stored_as [auth_cookie; theme_cookie]) as [cs|]; [| discriminate].
  assert (Hlen : (length (contexts env)
                  < length (contexts env ++ [mkBrowserContext [] [] false]))%nat)
    by (rewrite length_app; cbn; lia).
  env_steps Hlen.
  destruct (existsb (named "auth") _); [| discriminate].
  env_steps Hlen.
  destruct (existsb (named "theme") _) eqn:Htheme; [| discriminate].
  intros _. by eexists _, _.
Qed.

End C8.

Section C8Examples.
Import ContextExamples ContextScenario.
Local Existing Instance ExampleEngine.
Local Existing Instance ExampleRules.

(** The scenario of the test passes under the rules of the examples. *)
Lemma scenario_passes :
  returned (cookies_and_storage_state example_clock empty_env) = Some tt.
Proof. reflexivity. Qed.

(** C8, counterexample to the claim as stated: [theme=light] is added to
    the context, and then [theme=dark]; the state is saved and a context
    is created from the file.  The cookies of the new context are
    [theme=dark] alone: the cookie [theme=light] that was added is not
    among them. *)
Lemma replaced_cookie_is_not_reused :
  let light := mkCookie "theme" "light" "example.com" "/" (num (-1)) false true Lax None in
  let dark := mkCookie "theme" "dark" "example.com" "/" (num (-1)) false true Lax None in
  stored_as light_theme = Some light ∧
  stored_as dark_theme = Some dark ∧
  returned (reuse_storage_state example_clock [light_theme; dark_theme]
              "tests/.authState.json" [] empty_env) = Some [dark] ∧
  light ∉ [dark].
Proof.
  cbn zeta. split; [reflexivity |]. split; [reflexivity |].
  split; [reflexivity |].
  intros H. apply list_elem_of_singleton in H.
  apply (f_equal ContextExamples.value) in H. discriminate H.
Qed.

(** A cookie that has expired is accepted by [addCookies], and neither
    kept by the context nor found in the reused one. *)
Lemma expired_cookie_is_not_reused :
  is_Some (stored_as stale_cookie) ∧
  returned (reuse_storage_state example_clock [stale_cookie]
              "tests/.authState.json" [] empty_env) = Some [].
Proof. split; [by eexists | reflexivity]. Qed.

(** C8, witness: the two cookies of the scenario. *)
Lemma storage_state_round_trip_witness :
  let auth := mkCookie "auth" "token123" "example.com" "/" (num (-1)) true false Lax None in
  let theme := mkCookie "theme" "dark" "example.com" "/" (num (-1)) false true Lax None in
  ∃ reusedCookies env' saved,
    reuse_storage_state example_clock [auth_cookie; theme_cookie]
      "tests/.authState.json" [EXAMPLE_URL] empty_env
    = Done reusedCookies env' ∧
    files env' !! "tests/.authState.json" = Some (StateFile saved) ∧
    (∀ c, c ∈ ContextExamples.cookies saved ↔
          last_with_its_key [auth; theme] c ∧
          live (example_clock 1) c = true ∧ live (example_clock 3) c = true) ∧
    (∀ c, c ∈ reusedCookies ↔
          c ∈ ContextExamples.cookies saved ∧
          live (example_clock 4) c = true ∧ live (example_clock 5) c = true ∧
          selected [EXAMPLE_URL] c = true).
Proof.
  exact (storage_state_round_trip example_clock [auth_cookie; theme_cookie]
           "tests/.authState.json" [EXAMPLE_URL] empty_env).
Defined.

End C8Examples.

(** ** C9: the strategy base classes *)

Section C9.
Import SOLID.
Context `{B : Browser}.

(** No call of the framework raises an error that says "not
    implemented", and sequencing does not add one. *)
Lemma implemented_bind {A C} (m : M A) (k : A → M C) :
  implemented m → (∀ x, implemented (k x)) → implemented (m ≫= k).
Proof.
  intros Hm Hk s. unfold mbind, M_bind, bind. specialize (Hm s).
  destruct (m s) as [x s1|e s1]; [apply Hk | exact Hm].
Qed.

Lemma implemented_ret {A} (a : A) : implemented (mret a : M A).
Proof. intros s. exact I. Qed.

Lemma implemented_interact (a : Action) (l : Locator) : implemented (interact a l).
Proof.
  intros s. unfold interact.
  destruct (resolve (world s) l) as [|e [|e' r]]; [done | | done].
  by destruct (perform (world s) a).
Qed.

Lemma implemented_isVisible (l : Locator) : implemented (Playwright.isVisible l).
Proof.
  intros s. unfold Playwright.isVisible.
  by destruct (resolve (world s) l) as [|e [|e' r]].
Qed.

Lemma implemented_interact_first (a : Action) (l : Locator) :
  implemented (interact_first a l).
Proof.
  intros s. unfold interact_first.
  destruct (resolve (world s) l) as [|e r]; [done |].
  by destruct (perform (world s) a).
Qed.

Lemma implemented_page_action (a : Action) : implemented (page_action a).
Proof.
  intros s. unfold page_action.
  destruct (perform (world s) a); [exact I |].
  destruct (times_out (world s) a); reflexivity.
Qed.

Lemma implemented_console_log (line : string) : implemented (console_log line).
Proof. intros s. exact I. Qed.

Lemma implemented_arg_page (v : Val) : implemented (arg_page v).
Proof. intros s. by destruct v. Qed.

Lemma implemented_page_fill (page : Page) (selector : string) (value : Val) :
  implemented (page_fill page selector value).
Proof.
  unfold page_fill. destruct value; try (intros s; reflexivity).
  apply implemented_interact_first.
Qed.

Lemma implemented_page_click (page : Page) (selector : string) :
  implemented (page_click page selector).
Proof. apply implemented_interact_first. Qed.

(** C9. In the three strategy hierarchies, the base-class method
    ([AuthStrategy.authenticate], [PageComponent.isVisible],
    [NotificationService.send]) raises, for every receiver, argument and
    state, an [Error] whose message says "not implemented"; every
    subclass ([UsernamePasswordAuth], [OAuthAuth], [Header], [Footer],
    [ConsoleNotificationService], [ApiNotificationService]) declares the
    method itself, and a call on it never ends in that error. *)
Theorem strategy_base_methods_not_implemented
    (C : Class) (this : Obj) (arg : Val) (s : St) :
  match extends C with
  | None =>
      ∃ msg, call C (strategy_method C) this arg s = Fault (Error msg) s ∧
             says_not_implemented msg = true
  | Some P =>
      extends P = None ∧
      strategy_method P = strategy_method C ∧
      is_Some (declares C (strategy_method C)) ∧
      match call C (strategy_method C) this arg s with
      | Fault e _ => is_not_implemented e = false
      | Ok _ _ => True
      end
  end.
Proof.
  assert (Hcall : ∀ m : Method,
            lookup_method 1 C (strategy_method C) = Some m →
            implemented (m this arg) →
            match call C (strategy_method C) this arg s with
            | Fault e _ => is_not_implemented e = false
            | Ok _ _ => True
            end).
  { intros m Hm Himp. unfold call. rewrite Hm. apply Himp. }
  destruct C; cbn [extends strategy_method].
  - eexists. split; reflexivity.
  - split; [reflexivity |]. split; [reflexivity |]. split; [by eexists |].
    eapply Hcall; [reflexivity |].
    apply implemented_bind; [apply implemented_arg_page | intros page].
    apply implemented_bind; [apply implemented_page_fill | intros _].
    apply implemented_bind; [apply implemented_page_fill | intros _].
    apply implemented_bind; [apply implemented_page_click | intros _].
    apply implemented_ret.
  - split; [reflexivity |]. split; [reflexivity |]. split; [by eexists |].
    eapply Hcall; [reflexivity |].
    apply implemented_bind; [apply implemented_arg_page | intros page].
    apply implemented_bind; [apply implemented_page_click | intros _].
    apply implemented_ret.
  - eexists. split; reflexivity.
  - split; [reflexivity |]. split; [reflexivity |]. split; [by eexists |].
    eapply Hcall; [reflexivity |].
    apply implemented_bind; [apply implemented_arg_page | intros page].
    apply implemented_bind; [apply implemented_isVisible | intros b].
    apply implemented_ret.
  - split; [reflexivity |]. split; [reflexivity |]. split; [by eexists |].
    eapply Hcall; [reflexivity |].
    apply implemented_bind; [apply implemented_arg_page | intros page].
    apply implemented_bind; [apply implemented_isVisible | intros b].
    apply implemented_ret.
  - eexists. split; reflexivity.
  - split; [reflexivity |]. split; [reflexivity |]. split; [by eexists |].
    eapply Hcall; [reflexivity |].
    apply implemented_bind; [apply implemented_console_log | intros _].
    apply implemented_ret.
  - split; [reflexivity |]. split; [reflexivity |]. split; [by eexists |].
    eapply Hcall; [reflexivity |].
    apply implemented_bind; [apply implemented_page_action | intros _].
    apply implemented_bind; [apply implemented_console_log | intros _].
    apply implemented_ret.
Qed.

End C9.

(** * More properties of the page and component objects *)

(** ** The operations never touch the objects *)

Section KeepsHeap.
Context `{B : Browser} `{E : Engine}.

Lemma keeps_heap_bind {A C} (m : M A) (k : A → M C) :
  keeps_heap m → (∀ x, keeps_heap (k x)) → keeps_heap (m ≫= k).
Proof.
  intros Hm Hk s. unfold mbind, M_bind, bind. specialize (Hm s).
  destruct (m s) as [x s1|e s1]; cbn in *; [| exact Hm].
  rewrite (Hk x s1). exact Hm.
Qed.

Lemma keeps_heap_catch {A} (m : M A) (h : Err → M A) :
  keeps_heap m → (∀ e, keeps_heap (h e)) → keeps_heap (catch m h).
Proof.
  intros Hm Hh s. unfold catch. specialize (Hm s).
  destruct (m s) as [x s1|e s1]; cbn in *; [exact Hm |].
  rewrite (Hh e s1). exact Hm.
Qed.

Lemma keeps_heap_ret {A} (a : A) : keeps_heap (mret a : M A).
Proof. intros s. reflexivity. Qed.

Lemma keeps_heap_throw {A} (e : Err) : keeps_heap (throw e : M A).
Proof. intros s. reflexivity. Qed.

Lemma keeps_heap_field_locator (this : nat) (k : string) :
  keeps_heap (field_locator this k).
Proof.
  intros s. unfold field_locator.
  destruct (heap s !! this) as [o|]; [destruct (get k o) |]; reflexivity.
Qed.

Lemma keeps_heap_field_page (this : nat) (k : string) :
  keeps_heap (field_page this k).
Proof.
  intros s. unfold field_page.
  destruct (heap s !! this) as [o|]; [destruct (get k o) |]; reflexivity.
Qed.

Lemma keeps_heap_field_ref (this : nat) (k : string) :
  keeps_heap (field_ref this k).
Proof.
  intros s. unfold field_ref.
  destruct (heap s !! this) as [o|]; [destruct (get k o) |]; reflexivity.
Qed.

Lemma keeps_heap_count (l : Locator) : keeps_heap (count l).
Proof. intros s. reflexivity. Qed.

Lemma keeps_heap_interact (a : Action) (l : Locator) : keeps_heap (interact a l).
Proof.
  intros s. unfold interact.
  destruct (resolve (world s) l) as [|e [|e' r]]; [| destruct (perform (world s) a) |];
    reflexivity.
Qed.

Lemma keeps_heap_parse_selector (selector : string) :
  keeps_heap (parse_selector selector).
Proof. intros s. unfold parse_selector. by destruct (selector_parses selector). Qed.

Lemma keeps_heap_textContent (l : Locator) : keeps_heap (textContent l).
Proof.
  intros s. unfold textContent.
  destruct (resolve (world s) l) as [|e [|e' r]]; reflexivity.
Qed.

Lemma keeps_heap_isVisible (l : Locator) : keeps_heap (Playwright.isVisible l).
Proof.
  intros s. unfold Playwright.isVisible.
  destruct (resolve (world s) l) as [|e [|e' r]]; reflexivity.
Qed.

Lemma keeps_heap_page_action (a : Action) : keeps_heap (page_action a).
Proof.
  intros s. unfold page_action.
  destruct (perform (world s) a); [reflexivity |].
  destruct (times_out (world s) a); reflexivity.
Qed.

Lemma keeps_heap_new_RegExp (source flags : string) :
  keeps_heap (new_RegExp source flags).
Proof.
  intros s. unfold new_RegExp. destruct (regexp_compiles source); reflexivity.
Qed.

End KeepsHeap.

(** A script keeps the heap when its framework calls do. *)
Ltac heap_ok :=
  repeat first
    [ apply keeps_heap_ret | apply keeps_heap_throw
    | apply keeps_heap_field_locator | apply keeps_heap_field_page
    | apply keeps_heap_field_ref | apply keeps_heap_count
    | apply keeps_heap_interact | apply keeps_heap_parse_selector
    | apply keeps_heap_textContent
    | apply keeps_heap_isVisible | apply keeps_heap_page_action
    | apply keeps_heap_new_RegExp
    | apply keeps_heap_catch; [| intros ?]
    | apply keeps_heap_bind; [| intros ?]
    | match goal with
      | |- keeps_heap (if ?b then _ else _) => destruct b
      | |- keeps_heap (match ?a with Omitted => _ | Null => _ | Given _ => _ end) =>
          destruct a
      end ].

Ltac unfold_methods :=
  unfold HeaderComponent.clickLogo, HeaderComponent.search,
    HeaderComponent.openUserMenu, HeaderComponent.logout,
    HeaderComponent.navigateTo, HeaderComponent.isVisible,
    FooterComponent.clickLink, FooterComponent.getCopyrightText,
    FooterComponent.clickSocialLink, FooterComponent.isVisible,
    FooterComponent.getAllLinks,
    LoginPage.goto, LoginPage.login, LoginPage.loginWithRememberMe,
    LoginPage.clickForgotPassword, LoginPage.getErrorMessage,
    LoginPage.hasErrorMessage, LoginPage.fillEmail, LoginPage.fillPassword,
    LoginPage.isFormVisible,
    DashboardPage.goto, DashboardPage.navigateToTransactions,
    DashboardPage.getWelcomeMessage, DashboardPage.logout,
    DashboardPage.goHome, DashboardPage.getStatsCount, DashboardPage.isLoaded,
    ProductPage.goto, ProductPage.addToCart, ProductPage.addToCartWithOptions,
    ProductPage.getProductTitle, ProductPage.getProductPrice,
    ProductPage.getProductDescription, ProductPage.searchProduct,
    ProductPage.scrollToReviews, ProductPage.isLoaded, BasePage.goto,
    HeaderComponent.clickLogo, HeaderComponent.search,
    HeaderComponent.openUserMenu, HeaderComponent.logout,
    ProductPage.addToCart, HeaderComponent.openUserMenu,
    click, fill, selectOption, check, scrollIntoViewIfNeeded,
    keyboard_press, page_goto.

Section X1.
Context `{B : Browser} `{E : Engine}.

Lemma getAllLinks_loop_keeps_heap (this : nat) (indices : list nat) :
  ∀ links, keeps_heap (FooterComponent.getAllLinks_loop this indices links).
Proof.
  induction indices as [|i rest IH]; intros links;
    cbn [FooterComponent.getAllLinks_loop]; [heap_ok |].
  apply keeps_heap_bind; [heap_ok | intros].
  apply keeps_heap_bind; [heap_ok | intros]. apply IH.
Qed.

(** X1. No public operation of a component or of a page object changes
    the heap: whatever the receiver, the arguments and the page, and
    whether the call returns or throws, every object is afterwards what
    it was before. *)
Theorem operations_keep_the_heap (this : nat) (s : St) :
  (∀ op : ComponentOp, heap (final (invoke op this s)) = heap s) ∧
  (∀ op : PageOp, heap (final (invoke_page op this s)) = heap s).
Proof.
  split; intros op; revert s;
    [ change (keeps_heap (invoke op this))
    | change (keeps_heap (invoke_page op this)) ].
  - destruct op; cbn [invoke]; unfold_methods; heap_ok.
    apply getAllLinks_loop_keeps_heap.
  - destruct op; cbn [invoke_page]; unfold_methods; cbn zeta; heap_ok.
Qed.

End X1.

(** ** How much a page operation does to the page *)

Section X2.
Context `{B : Browser} `{E : Engine}.

Lemma bounded_field_ref (n : nat) (this : nat) (k : string) :
  bounded n (field_ref this k).
Proof.
  intros s. exists []. unfold field_ref.
  destruct (heap s !! this) as [o|]; [destruct (get k o)|];
    cbn; rewrite app_nil_r; (split; [done | lia]).
Qed.

Lemma bounded_parse_selector (n : nat) (selector : string) :
  bounded n (parse_selector selector).
Proof.
  intros s. exists []. unfold parse_selector.
  destruct (selector_parses selector); cbn; rewrite app_nil_r; (split; [done | lia]).
Qed.

Lemma bounded_weaken (n m : nat) {A} (c : M A) :
  (n ≤ m)%nat → bounded n c → bounded m c.
Proof.
  intros Hnm Hc s. destruct (Hc s) as (evs & Ht & Hn). exists evs. split; [done | lia].
Qed.

Lemma search_bounded (this : nat) (query : string) :
  bounded 2 (HeaderComponent.search this query).
Proof. unfold HeaderComponent.search, fill, keyboard_press. bound. Qed.

Lemma logout_bounded (this : nat) : bounded 2 (HeaderComponent.logout this).
Proof.
  unfold HeaderComponent.logout.
  apply (bounded_bind 1 1); [apply openUserMenu_bounded | intros].
  unfold click. bound.
Qed.

Lemma clickLogo_bounded (this : nat) : bounded 1 (HeaderComponent.clickLogo this).
Proof. unfold HeaderComponent.clickLogo, click. bound. Qed.

(** A guarded interaction is at most one action. *)
Lemma guarded_bounded (n : nat) (this : nat) (k : string) (act : Locator → M unit) :
  (∀ l, bounded (S n) (act l)) →
  bounded (S n)
    (x ← field_locator this k;
     c ← count x;
     if (0 <? c)%nat then y ← field_locator this k; act y else mret tt).
Proof.
  intros Hact.
  apply (bounded_bind 0); [apply bounded_field_locator | intros x].
  apply (bounded_bind 0); [apply bounded_count | intros c].
  destruct (0 <? c)%nat; [| apply bounded_ret].
  apply (bounded_bind 0); [apply bounded_field_locator | intros y]. apply Hact.
Qed.

Lemma addToCart_bounded (this : nat) : bounded 1 (ProductPage.addToCart this).
Proof. unfold ProductPage.addToCart, click. bound. Qed.

(** X2. Every public operation of LoginPage, DashboardPage and
    ProductPage stays within a fixed number of user-facing actions per
    call, whether it returns or throws: the getters, the visibility
    checks and [getStatsCount] perform none; [login] at most three;
    [loginWithRememberMe] and [addToCartWithOptions] at most four; the
    operations that hand over to the header's [search] or [logout] at
    most two; every other operation at most one. *)
Theorem page_op_action_budget (op : PageOp) (this : nat) (s : St) :
  ∃ evs, trace (final (invoke_page op this s)) = trace s ++ evs ∧
         (user_actions evs ≤ page_action_budget op)%nat.
Proof.
  revert s. change (bounded (page_action_budget op) (invoke_page op this)).
  destruct op; cbn [invoke_page page_action_budget].
  - unfold LoginPage.goto, page_goto. bound.
  - unfold LoginPage.login, fill, click. bound.
  - unfold LoginPage.loginWithRememberMe, fill, click.
    apply (bounded_bind 0); [bound0 | intros].
    apply (bounded_bind 1); [bound1 | intros].
    apply (bounded_bind 0); [bound0 | intros].
    apply (bounded_bind 1); [bound1 | intros].
    apply (bounded_bind 0); [bound0 | intros].
    apply (bounded_bind 0); [bound0 | intros].
    apply (bounded_bind 1 1); [| intros; bound].
    destruct (0 <? _)%nat; [| apply bounded_ret]. unfold check. bound.
  - unfold LoginPage.clickForgotPassword, click. bound.
  - unfold LoginPage.getErrorMessage. bound.
  - unfold LoginPage.hasErrorMessage. bound.
  - unfold LoginPage.fillEmail, fill. bound.
  - unfold LoginPage.fillPassword, fill. bound.
  - unfold LoginPage.isFormVisible. bound.
  - unfold DashboardPage.goto, page_goto. cbn zeta. bound.
  - unfold DashboardPage.navigateToTransactions.
    apply (bounded_bind 0); [apply bounded_field_ref | intros].
    apply (bounded_bind 2 0); [apply search_bounded | intros; bound].
  - unfold DashboardPage.getWelcomeMessage. bound.
  - unfold DashboardPage.logout.
    apply (bounded_bind 0); [apply bounded_field_ref | intros].
    apply (bounded_bind 2 0); [apply logout_bounded | intros; bound].
  - unfold DashboardPage.goHome.
    apply (bounded_bind 0); [apply bounded_field_ref | intros].
    apply (bounded_bind 1 0); [apply clickLogo_bounded | intros; bound].
  - unfold DashboardPage.getStatsCount. bound.
  - unfold DashboardPage.isLoaded. bound.
  - unfold ProductPage.goto, page_goto. cbn zeta. bound.
  - apply addToCart_bounded.
  - unfold ProductPage.addToCartWithOptions.
    apply (bounded_bind 0 4);
      [destruct options; [apply bounded_ret | apply bounded_throw | apply bounded_ret] |].
    clear options. intros options.
    apply (bounded_bind 1 3).
    { destruct (truthy_num _); [| apply bounded_ret].
      apply (guarded_bounded 0 this "quantityInput"
               (fun y => fill y (quantity_text options))).
      intros l. apply bounded_interact. }
    intros _. apply (bounded_bind 1 2).
    { destruct (truthy_str _); [| apply bounded_ret].
      apply (guarded_bounded 0 this "sizeSelector"
               (fun y => selectOption y (default EmptyString (size options)))).
      intros l. apply bounded_interact. }
    intros _. apply (bounded_bind 1 1).
    { destruct (truthy_str _); [| apply bounded_ret].
      apply (guarded_bounded 0 this "colorSelector"
               (fun y => let selector := "[data-color="
                             +:+ q (default EmptyString (color options)) +:+ "]" in
                         let colorOption := loc_locator y selector in
                         parse_selector selector;;
                         m ← count colorOption;
                         if (0 <? m)%nat then click colorOption else mret tt)).
      intros l. cbn zeta.
      apply (bounded_bind 0); [apply bounded_parse_selector | intros _].
      apply (bounded_bind 0); [apply bounded_count | intros m].
      destruct (0 <? m)%nat; [apply bounded_interact | apply bounded_ret]. }
    intros _. apply (bounded_bind 1 0); [apply addToCart_bounded | intros; bound].
  - unfold ProductPage.getProductTitle. bound.
  - unfold ProductPage.getProductPrice. bound.
  - unfold ProductPage.getProductDescription. bound.
  - unfold ProductPage.searchProduct.
    apply (bounded_bind 0); [apply bounded_field_ref | intros].
    apply (bounded_bind 2 0); [apply search_bounded | intros; bound].
  - unfold ProductPage.scrollToReviews, scrollIntoViewIfNeeded. bound.
  - unfold ProductPage.isLoaded. bound.
  - unfold BasePage.goto, page_goto. bound.
Qed.

End X2.

(** ** What the header operations do when their target is there *)

Section X3.
Context `{B : Browser}.

(** X3. When the search box is the one match of its locator, [search]
    fills it with the query as given and then presses Enter on the page
    the fill left: the call returns, these are its two actions, in this
    order, and the page is the one the key press left. *)
Theorem search_fills_then_presses_enter
    (page : Page) (this : nat) (query : string) (s : St)
    (e : Element) (w1 w2 : World) :
  instance_of HeaderComponent.new page this (heap s) →
  resolve (world s) (HeaderComponent.searchInput page) = [e] →
  perform (world s) (Fill (HeaderComponent.searchInput page) query) = Some w1 →
  perform w1 (Press page "Enter") = Some w2 →
  ∃ s', HeaderComponent.search this query s = Ok VUndefined s' ∧
        world s' = w2 ∧
        added s s' [Did (Fill (HeaderComponent.searchInput page) query);
                    Did (Press page "Enter")].
Proof.
  intros Hi He Hf Hp.
  apply header_object in Hi as (o & Hlk & _ & Hpage & _ & Hsearch & _).
  unfold HeaderComponent.search. unfold_script. run.
  eexists. split; [reflexivity |]. split; [reflexivity |].
  eexists. cbn [trace]. rewrite <- !app_assoc. split; reflexivity.
Qed.

(** X4. [logout] looks for the logout button on the page the click on the
    user menu left, not on the page it started from: when the user menu
    is the one match of its locator and, once it is clicked, the logout
    button is the one match of its locator, [logout] returns having
    clicked the menu and then the button, whether or not the button was
    there before. *)
Theorem logout_opens_menu_then_clicks_button
    (page : Page) (this : nat) (s : St) (e e' : Element) (w1 w2 : World) :
  instance_of HeaderComponent.new page this (heap s) →
  resolve (world s) (HeaderComponent.userMenu page) = [e] →
  perform (world s) (Click (HeaderComponent.userMenu page)) = Some w1 →
  resolve w1 (HeaderComponent.logoutBtn page) = [e'] →
  perform w1 (Click (HeaderComponent.logoutBtn page)) = Some w2 →
  ∃ s', HeaderComponent.logout this s = Ok VUndefined s' ∧
        world s' = w2 ∧
        added s s' [Did (Click (HeaderComponent.userMenu page));
                    Did (Click (HeaderComponent.logoutBtn page))].
Proof.
  intros Hi Hm Hc Hb Hl.
  apply header_object in Hi as (o & Hlk & _ & _ & _ & _ & Hmenu & Hout & _).
  unfold HeaderComponent.logout, HeaderComponent.openUserMenu. unfold_script. run.
  eexists. split; [reflexivity |]. split; [reflexivity |].
  eexists. cbn [trace]. rewrite <- !app_assoc. split; reflexivity.
Qed.

End X3.

Section X3Examples.

(** X3, witness: a search on a page with a search box. *)
Lemma search_fills_then_presses_enter_witness :
  ∃ s', HeaderComponent.search (B := StaticPage) 0 "shoes" (header_on full_page)
        = Ok VUndefined s' ∧
        world s' = full_page ∧
        added (header_on full_page) s'
          [Did (Fill (HeaderComponent.searchInput 0) "shoes");
           Did (Press 0 "Enter")].
Proof.
  apply (search_fills_then_presses_enter (B := StaticPage) 0 0 "shoes"
           (header_on full_page) (mkElement "text" true) full_page full_page).
  - exists (start full_page), (header_on full_page). split; reflexivity.
  - reflexivity.
  - reflexivity.
  - reflexivity.
Defined.

(** X4, witness: the menu is closed and the logout button is not on the
    page; [logout] opens the menu and clicks the button. *)
Lemma logout_opens_menu_then_clicks_button_witness :
  resolve (Browser := DropdownPage) (world closed_menu) (HeaderComponent.logoutBtn 0)
  = [] ∧
  ∃ s', HeaderComponent.logout (B := DropdownPage) 0 closed_menu = Ok VUndefined s' ∧
        world s' = true ∧
        added closed_menu s'
          [Did (Click (HeaderComponent.userMenu 0));
           Did (Click (HeaderComponent.logoutBtn 0))].
Proof.
  split; [reflexivity |].
  apply (logout_opens_menu_then_clicks_button (B := DropdownPage) 0 0 closed_menu
           (mkElement "item" true) (mkElement "Logout" true) true true).
  - exists (@mkSt DropdownPage false [] []), closed_menu. split; reflexivity.
  - reflexivity.
  - reflexivity.
  - reflexivity.
  - reflexivity.
Defined.

End X3Examples.

(** ** The links of the footer *)

Section X5.
Context `{B : Browser}.

Lemma getAllLinks_loop_collects (this : nat) (o : Obj) (footerLinks : Locator)
    (es : list Element) :
  get "footerLinks" o = VLocator footerLinks →
  ∀ (k : nat) (links : list Val) (s : St),
    heap s !! this = Some o →
    (∀ i e, es !! i = Some e → resolve (world s) (Nth footerLinks (k + i)) = [e]) →
    ∃ evs,
      FooterComponent.getAllLinks_loop this (seq k (length es)) links s
      = Ok (links ++ ((fun e => VStr (el_text e)) <$> es))
           {| world := world s; heap := heap s; trace := trace s ++ evs |} ∧
      user_actions evs = 0%nat.
Proof.
  intros Hk. induction es as [|e es IH]; intros k links s Hlk Hes.
  - exists []. cbn. rewrite !app_nil_r. split; [by destruct s | reflexivity].
  - cbn [length seq FooterComponent.getAllLinks_loop].
    pose proof (Hes 0%nat e eq_refl) as H0. rewrite Nat.add_0_r in H0.
    unfold mbind, M_bind, bind, field_locator, textContent.
    rewrite Hlk, Hk. rewrite H0.
    destruct (IH (S k) (links ++ [VStr (el_text e)]) (log (Resolved (Nth footerLinks k)) s))
      as (evs & Hrun & Hact).
    { exact Hlk. }
    { intros i e' Hi. cbn [world log].
      replace (S k + i)%nat with (k + S i)%nat by lia. by apply Hes. }
    exists (Resolved (Nth footerLinks k) :: evs). split.
    + rewrite Hrun. cbn [world heap trace log fmap list_fmap].
      rewrite <- !app_assoc. reflexivity.
    + exact Hact.
Qed.

(** X5. When the footer-links locator matches some elements and each
    index below their number picks exactly one element, [getAllLinks]
    returns the array of the text contents of these elements, one per
    match and in index order; it performs no user-facing action and
    leaves the page as it was. *)
Theorem getAllLinks_returns_the_texts
    (page : Page) (this : nat) (s : St) (es : list Element) :
  instance_of FooterComponent.new page this (heap s) →
  length (resolve (world s) (FooterComponent.footerLinks page)) = length es →
  (∀ i e, es !! i = Some e →
          resolve (world s) (Nth (FooterComponent.footerLinks page) i) = [e]) →
  ∃ s', FooterComponent.getAllLinks this s
        = Ok (VArray ((fun e => VStr (el_text e)) <$> es)) s' ∧
        world s' = world s ∧
        added s s' [].
Proof.
  intros Hi Hn Hes.
  apply footer_object in Hi as (o & Hlk & _ & _ & _ & Hlinks & _).
  unfold FooterComponent.getAllLinks.
  unfold mbind at 1, M_bind at 1, bind at 1, field_locator at 1. rewrite Hlk, Hlinks.
  unfold mbind at 1, M_bind at 1, bind at 1, count at 1. rewrite Hn.
  destruct (getAllLinks_loop_collects this o (FooterComponent.footerLinks page) es
              Hlinks 0%nat [] (log (Resolved (FooterComponent.footerLinks page)) s))
    as (evs & Hrun & Hact).
  { exact Hlk. }
  { intros i e Hie. cbn [world log]. by apply Hes. }
  unfold mbind, M_bind, bind. rewrite Hrun. cbn [app].
  eexists. split; [reflexivity |]. split; [reflexivity |].
  exists (Resolved (FooterComponent.footerLinks page) :: evs).
  cbn [trace log]. rewrite <- app_assoc. split; [reflexivity |].
  unfold user_actions in Hact. cbn [List.filter user_facing].
  by apply length_zero_iff_nil.
Qed.

End X5.

Section X5Examples.
Local Existing Instance StaticPage.

(** X5, witness: a footer with the links About, Contact and Terms. *)
Lemma getAllLinks_returns_the_texts_witness :
  ∃ s', FooterComponent.getAllLinks 0 (footer_on three_links_page)
        = Ok (VArray [VStr "About"; VStr "Contact"; VStr "Terms"]) s' ∧
        world s' = world (footer_on three_links_page) ∧
        added (footer_on three_links_page) s' [].
Proof.
  apply (getAllLinks_returns_the_texts 0 0 (footer_on three_links_page)
           [mkElement "About" true; mkElement "Contact" true; mkElement "Terms" true]).
  - exists (start three_links_page), (footer_on three_links_page). split; reflexivity.
  - reflexivity.
  - intros [|[|[|i]]] e H; cbn in H; try discriminate H;
      injection H as <-; reflexivity.
Defined.

End X5Examples.

(** ** The guarded operations of the pages *)

Section X6.
Context `{B : Browser}.

Lemma login_fields (page : Page) (this : nat) (h : list Obj) :
  instance_of LoginPage.new page this h →
  ∃ o, h !! this = Some o ∧
    get "page" o = VPage page ∧
    get "emailInput" o = VLocator (LoginPage.emailInput page) ∧
    get "passwordInput" o = VLocator (LoginPage.passwordInput page) ∧
    get "submitButton" o = VLocator (LoginPage.submitButton page) ∧
    get "forgotPasswordLink" o = VLocator (LoginPage.forgotPasswordLink page) ∧
    get "rememberMeCheckbox" o = VLocator (LoginPage.rememberMeCheckbox page).
Proof.
  intros (s0 & s1 & Hnew & Hlk).
  unfold LoginPage.new, LoginPage.constructor in Hnew.
  cbn in Hnew. apply alloc_lookup in Hnew. rewrite Hnew in Hlk.
  eexists; split; [exact Hlk|]. repeat split; vm_compute; reflexivity.
Qed.

Lemma product_reviews (page : Page) (this : nat) (h : list Obj) :
  instance_of ProductPage.new page this h →
  ∃ o, h !! this = Some o ∧
    get "addToCartBtn" o = VLocator (ProductPage.addToCartBtn page) ∧
    get "reviewsSection" o = VLocator (ProductPage.reviewsSection page).
Proof.
  intros (s0 & s1 & Hnew & Hlk).
  unfold ProductPage.new, ProductPage.constructor, BasePage.constructor,
    HeaderComponent.new, HeaderComponent.constructor,
    FooterComponent.new, FooterComponent.constructor in Hnew.
  cbn in Hnew. apply alloc_lookup in Hnew. rewrite Hnew in Hlk.
  eexists; split; [exact Hlk|]. repeat split; vm_compute; reflexivity.
Qed.

(** A guarded operation is its guarded block followed by
    [return undefined]. *)
Lemma guarded_op_block (g : GuardedOp) (this : nat) (o : Obj) (page : Page) (s : St)
    (k : string) (act : Locator → Action) :
  heap s !! this = Some o →
  get k o = VLocator (guarded_locator g page) →
  act (guarded_locator g page) = guarded_action g page →
  run_guarded g this s
  = ((x ← field_locator this k;
      n ← count x;
      if (0 <? n)%nat then y ← field_locator this k; interact (act y) y
      else mret tt);; mret VUndefined) s →
  ∀ v s',
    run_guarded g this s = Ok v s' →
    v = VUndefined ∧
    stepped (0 <? length (resolve (world s) (guarded_locator g page)))%nat
            (guarded_action g page) s s'.
Proof.
  intros Hlk Hk Hact E v s' H. rewrite E in H.
  apply bind_inv in H as ([] & s2 & Hb & Hr). injection Hr as <- <-.
  split; [reflexivity |]. rewrite <- Hact.
  apply (guarded_block_inv this k o (guarded_locator g page) act); try assumption.
  rewrite Hact. by destruct g.
Qed.

(** X6. [ProductPage.addToCart], [ProductPage.scrollToReviews] and
    [LoginPage.clickForgotPassword], called on an instance: when the
    element is absent the call returns undefined and does nothing to the
    page; and whenever the call returns, it has performed its one action
    (the click, or the scroll) exactly when the locator matched, and
    nothing else. *)
Theorem guarded_page_op_acts_iff_present
    (g : GuardedOp) (page : Page) (this : nat) (s : St) :
  instance_of (guarded_new g) page this (heap s) →
  (absent (world s) (guarded_locator g page) →
   run_guarded g this s = Ok VUndefined (log (Resolved (guarded_locator g page)) s)) ∧
  (∀ v s',
     run_guarded g this s = Ok v s' →
     v = VUndefined ∧
     stepped (0 <? length (resolve (world s) (guarded_locator g page)))%nat
             (guarded_action g page) s s').
Proof.
  intros Hi. destruct g; cbn [guarded_new] in Hi.
  - apply product_reviews in Hi as (o & Hlk & Hbtn & _). split.
    + unfold absent. intros Ha. cbn [run_guarded guarded_locator] in *.
      unfold ProductPage.addToCart. unfold_script. run. reflexivity.
    + apply (guarded_op_block Guarded_addToCart this o page s "addToCartBtn" Click);
        try done.
      cbn [run_guarded]. unfold ProductPage.addToCart, click. unfold_script. run.
      destruct (length _); run; reflexivity.
  - apply product_reviews in Hi as (o & Hlk & _ & Hrev). split.
    + unfold absent. intros Ha. cbn [run_guarded guarded_locator] in *.
      unfold ProductPage.scrollToReviews. unfold_script. run. reflexivity.
    + apply (guarded_op_block Guarded_scrollToReviews this o page s "reviewsSection"
               ScrollIntoView); try done.
      cbn [run_guarded]. unfold ProductPage.scrollToReviews, scrollIntoViewIfNeeded.
      unfold_script. run. destruct (length _); run; reflexivity.
  - apply login_fields in Hi as (o & Hlk & _ & _ & _ & _ & Hfp & _). split.
    + unfold absent. intros Ha. cbn [run_guarded guarded_locator] in *.
      unfold LoginPage.clickForgotPassword. unfold_script. run. reflexivity.
    + apply (guarded_op_block Guarded_clickForgotPassword this o page s
               "forgotPasswordLink" Click); try done.
      cbn [run_guarded]. unfold LoginPage.clickForgotPassword, click.
      unfold_script. run. destruct (length _); run; reflexivity.
Qed.

End X6.

Section X6Examples.
Local Existing Instance StaticPage.

(** X6, witness: scrolling to the reviews of a page without reviews. *)
Lemma guarded_page_op_acts_iff_present_witness :
  ProductPage.scrollToReviews 2 (product_on blank_page)
  = Ok VUndefined (log (Resolved (ProductPage.reviewsSection 0)) (product_on blank_page)).
Proof.
  apply (guarded_page_op_acts_iff_present Guarded_scrollToReviews 0 2
           (product_on blank_page)).
  - exists (start blank_page), (product_on blank_page). split; reflexivity.
  - reflexivity.
Defined.

End X6Examples.

(** ** Logging in *)

Section X7.
Context `{B : Browser}.

(** [this.k.act(...)] that returns has acted on the one match. *)
Lemma field_interact_inv (this : nat) (k : string) (o : Obj) (l : Locator)
    (act : Locator → Action) {C} (rest : M C) (s s' : St) (c : C) :
  heap s !! this = Some o → get k o = VLocator l →
  user_facing (Did (act l)) = true →
  (x ← field_locator this k; interact (act x) x;; rest) s = Ok c s' →
  ∃ s1, stepped true (act l) s s1 ∧ rest s1 = Ok c s'.
Proof.
  intros Hlk Hk Ha H.
  apply bind_inv in H as (x & s0 & Hx & H).
  unfold field_locator in Hx. rewrite Hlk, Hk in Hx. injection Hx as <- <-.
  apply bind_inv in H as ([] & s1 & Hi & H).
  apply interact_inv in Hi as (_ & Hp & Hh & Ht); [| exact Ha].
  exists s1. split; [| exact H].
  repeat split; [exact Hp | exact Hh |].
  exists [Resolved l; Did (act l)]. split; [exact Ht |].
  cbn [List.filter]. rewrite Ha. reflexivity.
Qed.

Lemma stepped_heap (applied : bool) (a : Action) (s s1 : St) (this : nat) (o : Obj) :
  stepped applied a s s1 → heap s !! this = Some o → heap s1 !! this = Some o.
Proof. intros (_ & -> & _). done. Qed.

(** X7. Whenever [LoginPage.login(email, password)] returns, it has
    filled the e-mail input with [email], then the password input with
    [password], then clicked the submit button, each on the page the
    step before left, and has done nothing else to the page. *)
Theorem login_fills_both_then_submits
    (page : Page) (this : nat) (email password : string) (s s' : St) (v : Val) :
  instance_of LoginPage.new page this (heap s) →
  LoginPage.login this email password s = Ok v s' →
  ∃ s1 s2,
    stepped true (Fill (LoginPage.emailInput page) email) s s1 ∧
    stepped true (Fill (LoginPage.passwordInput page) password) s1 s2 ∧
    stepped true (Click (LoginPage.submitButton page)) s2 s' ∧
    v = VUndefined.
Proof.
  intros Hi H.
  apply login_fields in Hi as (o & Hlk & _ & He & Hp & Hs & _).
  unfold LoginPage.login, fill, click in H.
  apply (field_interact_inv this "emailInput" o (LoginPage.emailInput page)
           (fun x => Fill x email)) in H as (s1 & S1 & H); try done.
  pose proof (stepped_heap _ _ _ _ _ _ S1 Hlk) as Hlk1.
  apply (field_interact_inv this "passwordInput" o (LoginPage.passwordInput page)
           (fun x => Fill x password)) in H as (s2 & S2 & H); try done.
  pose proof (stepped_heap _ _ _ _ _ _ S2 Hlk1) as Hlk2.
  apply (field_interact_inv this "submitButton" o (LoginPage.submitButton page)
           Click) in H as (s3 & S3 & H); try done.
  injection H as <- <-. by exists s1, s2.
Qed.

(** X8. [login] is not all-or-nothing: when the e-mail input is there
    and is filled but no password input is on the page the fill left,
    [login] raises a time-out after having typed the e-mail, and the
    submit button is not clicked. *)
Theorem login_without_password_input_raises_after_typing
    (page : Page) (this : nat) (email password : string) (s : St)
    (e : Element) (w1 : World) :
  instance_of LoginPage.new page this (heap s) →
  resolve (world s) (LoginPage.emailInput page) = [e] →
  perform (world s) (Fill (LoginPage.emailInput page) email) = Some w1 →
  resolve w1 (LoginPage.passwordInput page) = [] →
  ∃ s', LoginPage.login this email password s = Fault TimeoutError s' ∧
        world s' = w1 ∧
        added s s' [Did (Fill (LoginPage.emailInput page) email)].
Proof.
  intros Hi He Hf Hp.
  apply login_fields in Hi as (o & Hlk & _ & Hem & Hpw & _).
  unfold LoginPage.login. unfold_script. run.
  eexists. split; [reflexivity |]. split; [reflexivity |].
  eexists. cbn [trace]. rewrite <- !app_assoc. split; reflexivity.
Qed.

(** X9. Whenever [loginWithRememberMe(email, password)] returns, it has
    filled the e-mail and the password, then checked the remember-me
    checkbox exactly when its locator matched on the page the two fills
    left, then clicked the submit button; nothing else was done to the
    page. *)
Theorem loginWithRememberMe_checks_box_iff_present
    (page : Page) (this : nat) (email password : string) (s s' : St) (v : Val) :
  instance_of LoginPage.new page this (heap s) →
  LoginPage.loginWithRememberMe this email password s = Ok v s' →
  ∃ s1 s2 s3,
    stepped true (Fill (LoginPage.emailInput page) email) s s1 ∧
    stepped true (Fill (LoginPage.passwordInput page) password) s1 s2 ∧
    stepped (0 <? length (resolve (world s2) (LoginPage.rememberMeCheckbox page)))%nat
            (Check (LoginPage.rememberMeCheckbox page)) s2 s3 ∧
    stepped true (Click (LoginPage.submitButton page)) s3 s' ∧
    v = VUndefined.
Proof.
  intros Hi H.
  apply login_fields in Hi as (o & Hlk & _ & He & Hp & Hs & _ & Hr).
  unfold LoginPage.loginWithRememberMe, fill, click, check in H.
  apply (field_interact_inv this "emailInput" o (LoginPage.emailInput page)
           (fun x => Fill x email)) in H as (s1 & S1 & H); try done.
  pose proof (stepped_heap _ _ _ _ _ _ S1 Hlk) as Hlk1.
  apply (field_interact_inv this "passwordInput" o (LoginPage.passwordInput page)
           (fun x => Fill x password)) in H as (s2 & S2 & H); try done.
  pose proof (stepped_heap _ _ _ _ _ _ S2 Hlk1) as Hlk2.
  assert (H' : ∃ s3,
    (x ← field_locator this "rememberMeCheckbox";
     n ← count x;
     if (0 <? n)%nat
     then y ← field_locator this "rememberMeCheckbox"; interact (Check y) y
     else mret tt) s2 = Ok tt s3 ∧
    (submitButton ← field_locator this "submitButton";
     interact (Click submitButton) submitButton;; mret VUndefined) s3 = Ok v s').
  { apply bind_inv in H as (x & s0 & Hx & H).
    apply bind_inv in H as (n & s0' & Hn & H).
    apply bind_inv in H as ([] & s3 & Hb & H).
    exists s3. split; [| exact H].
    unfold mbind, M_bind, bind. rewrite Hx, Hn. exact Hb. }
  clear H. destruct H' as (s3 & Hb & H).
  apply (guarded_block_inv this "rememberMeCheckbox" o
           (LoginPage.rememberMeCheckbox page) Check) in Hb; try done.
  pose proof (stepped_heap _ _ _ _ _ _ Hb Hlk2) as Hlk3.
  apply (field_interact_inv this "submitButton" o (LoginPage.submitButton page)
           Click) in H as (s4 & S4 & H); try done.
  injection H as <- <-. by exists s1, s2, s3.
Qed.

End X7.

Section X7Examples.
Local Existing Instance StaticPage.

Lemma login_on_instance (w : World) :
  instance_of LoginPage.new 0 0 (heap (login_on w)).
Proof. exists (start w), (login_on w). split; reflexivity. Defined.

(** X7, witness: a login on a page that has the form. *)
Lemma login_fills_both_then_submits_witness :
  ∃ s1 s2,
    stepped true (Fill (LoginPage.emailInput 0) "tomsmith") (login_on full_page) s1 ∧
    stepped true (Fill (LoginPage.passwordInput 0) "secret") s1 s2 ∧
    stepped true (Click (LoginPage.submitButton 0)) s2
      (final (LoginPage.login 0 "tomsmith" "secret" (login_on full_page))) ∧
    VUndefined = VUndefined.
Proof.
  apply (login_fills_both_then_submits 0 0 "tomsmith" "secret" (login_on full_page)
           (final (LoginPage.login 0 "tomsmith" "secret" (login_on full_page)))
           VUndefined).
  - exists (start full_page), (login_on full_page). split; reflexivity.
  - vm_compute. reflexivity.
Defined.

(** X8, witness: a page with an e-mail input and nothing else. *)
Lemma login_without_password_input_raises_after_typing_witness :
  ∃ s', LoginPage.login 0 "tomsmith" "secret" (login_on email_only_page)
        = Fault TimeoutError s' ∧
        world s' = email_only_page ∧
        added (login_on email_only_page) s'
          [Did (Fill (LoginPage.emailInput 0) "tomsmith")].
Proof.
  apply (login_without_password_input_raises_after_typing 0 0 "tomsmith" "secret"
           (login_on email_only_page) (mkElement "email" true) email_only_page).
  - exists (start email_only_page), (login_on email_only_page). split; reflexivity.
  - reflexivity.
  - reflexivity.
  - reflexivity.
Defined.

(** X9, witness: the same login with the remember-me box on the page. *)
Lemma loginWithRememberMe_checks_box_iff_present_witness :
  let s := login_on full_page in
  let s' := final (LoginPage.loginWithRememberMe 0 "tomsmith" "secret" s) in
  ∃ s1 s2 s3,
    stepped true (Fill (LoginPage.emailInput 0) "tomsmith") s s1 ∧
    stepped true (Fill (LoginPage.passwordInput 0) "secret") s1 s2 ∧
    stepped (0 <? length (resolve (world s2) (LoginPage.rememberMeCheckbox 0)))%nat
            (Check (LoginPage.rememberMeCheckbox 0)) s2 s3 ∧
    stepped true (Click (LoginPage.submitButton 0)) s3 s' ∧
    VUndefined = VUndefined.
Proof.
  apply (loginWithRememberMe_checks_box_iff_present 0 0 "tomsmith" "secret"
           (login_on full_page)
           (final (LoginPage.loginWithRememberMe 0 "tomsmith" "secret"
                     (login_on full_page)))
           VUndefined).
  - exists (start full_page), (login_on full_page). split; reflexivity.
  - vm_compute. reflexivity.
Defined.

Lemma loginWithRememberMe_actions :
  List.filter user_facing
    (trace (final (LoginPage.loginWithRememberMe 0 "tomsmith" "secret"
                     (login_on full_page))))
  = [Did (Fill (LoginPage.emailInput 0) "tomsmith");
     Did (Fill (LoginPage.passwordInput 0) "secret");
     Did (Check (LoginPage.rememberMeCheckbox 0));
     Did (Click (LoginPage.submitButton 0))].
Proof. vm_compute. reflexivity. Qed.

End X7Examples.

(** ** Page operations that use the header *)

Section X10.
Context `{B : Browser}.

(** A dashboard or product page fresh from its constructor refers to a
    header built for the same page. *)
Lemma new_page_has_header (C : ClassName) (page : Page) (s : St) :
  extends_BasePage C = true →
  ∃ this s', construct C page s = Ok this s' ∧
             page_with_header (construct C) page this (length (heap s)) (heap s').
Proof.
  intros HC.
  destruct (base_page_construct C page s HC)
    as (hdr & ftr & obj & Hh & Hf & Hc & _ & _ & _ & _ & Gh & _).
  eexists _, _. split; [exact Hc |]. cbn [heap].
  assert (L0 : (heap s ++ [hdr; ftr; obj]) !! length (heap s) = Some hdr).
  { rewrite lookup_app_r by lia. by rewrite Nat.sub_diag. }
  assert (L2 : (heap s ++ [hdr; ftr; obj]) !! S (S (length (heap s))) = Some obj).
  { rewrite lookup_app_r by lia.
    by replace (S (S (length (heap s))) - length (heap s))%nat with 2%nat by lia. }
  split; [| split].
  - eexists s, _. split; [exact Hc | reflexivity].
  - exists obj. by split.
  - eexists s, _. split; [exact Hh |]. cbn [heap]. rewrite L0.
    rewrite lookup_app_r by lia. by rewrite Nat.sub_diag.
Qed.

(** X10. [ProductPage.searchProduct(query)],
    [DashboardPage.navigateToTransactions()], [DashboardPage.logout()] and
    [DashboardPage.goHome()] do to the page exactly what the header's
    [search(query)], [search('transactions')], [logout()] and
    [clickLogo()] do when called on the page object's own header: the
    call ends in the same state, throws exactly when the header
    operation throws, and returns undefined when it returns. *)
Theorem page_operation_is_the_header_operation
    (d : Delegation) (page : Page) (this hdr : nat) (s : St) :
  page_with_header (delegation_new d) page this hdr (heap s) →
  final (run_delegation d this s) = final (invoke (delegated_to d) hdr s) ∧
  raised (run_delegation d this s) = raised (invoke (delegated_to d) hdr s) ∧
  (∀ v s', run_delegation d this s = Ok v s' → v = VUndefined).
Proof.
  intros (_ & (o & Hlk & Hh) & _).
  assert (E : ∀ m : nat → M Val,
            (header ← field_ref this "header"; m header;; mret VUndefined) s
            = (m hdr;; mret VUndefined) s).
  { intros m. unfold mbind at 1, M_bind at 1, bind at 1, field_ref.
    by rewrite Hlk, Hh. }
  assert (D : ∀ m : M Val,
            final ((m;; mret VUndefined) s) = final (m s) ∧
            raised ((m;; mret VUndefined) s) = raised (m s) ∧
            (∀ v s', (m;; mret VUndefined) s = Ok v s' → v = VUndefined)).
  { intros m. unfold mbind, M_bind, bind, mret, M_ret, ret.
    destruct (m s) as [r s1|e s1]; cbn; (split; [reflexivity |]);
      (split; [reflexivity |]); intros v s' H; by inversion H. }
  destruct d; cbn [run_delegation delegated_to invoke];
    unfold ProductPage.searchProduct, DashboardPage.navigateToTransactions,
      DashboardPage.logout, DashboardPage.goHome.
  - rewrite (E (fun h => HeaderComponent.search h query)). apply D.
  - rewrite (E (fun h => HeaderComponent.search h "transactions")). apply D.
  - rewrite (E HeaderComponent.logout). apply D.
  - rewrite (E HeaderComponent.clickLogo). apply D.
Qed.

(** X11. [DashboardPage.goHome()] clicks the logo unguarded: on a
    dashboard whose header finds no logo on the page, it raises a
    time-out, and the page is as before. *)
Theorem goHome_without_logo_raises
    (page : Page) (this hdr : nat) (s : St) :
  page_with_header DashboardPage.new page this hdr (heap s) →
  absent (world s) (HeaderComponent.logo page) →
  DashboardPage.goHome this s
  = Fault TimeoutError (log (Resolved (HeaderComponent.logo page)) s).
Proof.
  intros (_ & (o & Hlk & Hh) & Hi) Ha. unfold absent in Ha.
  apply header_object in Hi as (oh & Hlkh & _ & _ & Hlogo & _).
  unfold DashboardPage.goHome, HeaderComponent.clickLogo. unfold_script.
  rewrite Hlk, Hh. cbn [heap]. rewrite Hlkh, Hlogo. cbn [world]. rewrite Ha.
  reflexivity.
Qed.

End X10.

Section X10Examples.
Local Existing Instance StaticPage.

Lemma dashboard_on_has_header (w : World) :
  page_with_header DashboardPage.new 0 2 0 (heap (dashboard_on w)).
Proof.
  split; [| split].
  - exists (start w), (dashboard_on w). split; reflexivity.
  - eexists. split; reflexivity.
  - exists (start w), (header_on w). split; reflexivity.
Defined.

(** X10, witness: the logout of a dashboard. *)
Lemma page_operation_is_the_header_operation_witness :
  final (DashboardPage.logout 2 (dashboard_on full_page))
  = final (HeaderComponent.logout 0 (dashboard_on full_page)) ∧
  raised (DashboardPage.logout 2 (dashboard_on full_page))
  = raised (HeaderComponent.logout 0 (dashboard_on full_page)) ∧
  (∀ v s', DashboardPage.logout 2 (dashboard_on full_page) = Ok v s' → v = VUndefined).
Proof.
  apply (page_operation_is_the_header_operation Delegate_logout 0 2 0
           (dashboard_on full_page)).
  split; [| split].
  - exists (start full_page), (dashboard_on full_page). split; reflexivity.
  - eexists. split; reflexivity.
  - exists (start full_page), (header_on full_page). split; reflexivity.
Defined.

(** X11, witness: a dashboard on a blank page. *)
Lemma goHome_without_logo_raises_witness :
  DashboardPage.goHome 2 (dashboard_on blank_page)
  = Fault TimeoutError (log (Resolved (HeaderComponent.logo 0)) (dashboard_on blank_page)).
Proof.
  apply (goHome_without_logo_raises 0 2 0 (dashboard_on blank_page)).
  - split; [| split].
    + exists (start blank_page), (dashboard_on blank_page). split; reflexivity.
    + eexists. split; reflexivity.
    + exists (start blank_page), (header_on blank_page). split; reflexivity.
  - reflexivity.
Defined.

End X10Examples.

(** ** The [**/api/login] and [**/api/users/1] routes *)

Section Routes.
Import Interceptor Routes.
Context `{E : Engine} {C : Codec}.

Lemma granted_is_not_denied : granted ≠ denied.
Proof. intros H. apply (f_equal status) in H. discriminate H. Qed.

(** X12. The login handler parses the body first, [{}] when there is
    none.  A text [JSON.parse] rejects makes it throw the [SyntaxError],
    and the parsed body [null] a [TypeError] when [username] is read;
    nothing is answered then.  Every other parsed body is answered: with
    status 200 and a token exactly when it is an object whose [username]
    is the string "admin" and whose [password] is the string "admin123",
    and with status 401 otherwise. *)
Theorem login_route_grants_only_admin (request : Request) :
  match JSON_parse (body_or_braces (postData request)) with
  | None => login_route request = Threw SyntaxError
  | Some JNull => login_route request = Threw TypeError
  | Some body =>
      ∃ r, login_route request = Fulfilled r ∧
           (r = granted ∨ r = denied) ∧
           (r = granted ↔
            ∃ m, body = JObj m ∧
                 m !! lit "username" = Some (JStr (lit "admin")) ∧
                 m !! lit "password" = Some (JStr (lit "admin123")))
  end.
Proof.
  pose proof granted_is_not_denied as Hne.
  unfold login_route.
  destruct (JSON_parse (body_or_braces (postData request)))
    as [[| b | n | t | xs | m]|]; cbn [property is_string];
    try reflexivity;
    try (exists denied; split; [reflexivity |]; split; [by right |]; split;
         [intros H; by symmetry in H | intros (m' & H & _); discriminate H]).
  destruct (m !! lit "username") as [[| | | u | |]|] eqn:Eu; cbn [is_string];
    try (exists denied; split; [reflexivity |]; split; [by right |]; split;
         [intros H; by symmetry in H
         | intros (m' & H & Hu' & _); injection H as <-; congruence]).
  case_bool_decide as Hu.
  2:{ exists denied. split; [reflexivity |]. split; [by right |]. split.
      - intros H. by symmetry in H.
      - intros (m' & H & Hu' & _). injection H as <-. congruence. }
  subst u.
  destruct (m !! lit "password") as [[| | | p | |]|] eqn:Ep; cbn [is_string];
    try (exists denied; split; [reflexivity |]; split; [by right |]; split;
         [intros H; by symmetry in H
         | intros (m' & H & _ & Hp'); injection H as <-; congruence]).
  case_bool_decide as Hp.
  - subst p. exists granted. split; [reflexivity |]. split; [by left |].
    split; [| done]. intros _. by exists m.
  - exists denied. split; [reflexivity |]. split; [by right |]. split.
    + intros H. by symmetry in H.
    + intros (m' & H & _ & Hp'). injection H as <-. congruence.
Qed.

(** What the body of the PUT answer holds, property by property. *)
Lemma update_fields (updateData : JSON) :
  let b := <[lit "updated" := JBool true]>
             (spread updateData ∪ <[lit "id" := JNum (num 1)]> ∅) in
  b !! lit "updated" = Some (JBool true) ∧
  b !! lit "id" = Some (default (JNum (num 1)) (spread updateData !! lit "id")) ∧
  (∀ k, k ≠ lit "updated" → k ≠ lit "id" → b !! k = spread updateData !! k).
Proof.
  assert (Hne : lit "updated" ≠ lit "id") by (intros H; by apply (inj lit) in H).
  cbn zeta. split; [| split].
  - apply lookup_insert_eq.
  - rewrite lookup_insert_ne by exact Hne.
    destruct (spread updateData !! lit "id") as [v|] eqn:E0; cbn [default].
    + by apply lookup_union_Some_l.
    + rewrite lookup_union_r by exact E0. apply lookup_insert_eq.
  - intros k Hu Hi. rewrite lookup_insert_ne by done.
    destruct (spread updateData !! k) as [v|] eqn:E0.
    + by apply lookup_union_Some_l.
    + rewrite lookup_union_r by exact E0. rewrite lookup_insert_ne by done.
      apply lookup_empty.
Qed.

(** X13. The PUT handler of [**/api/users/1] parses the body first,
    [{}] when there is none, and throws the [SyntaxError] of a text
    [JSON.parse] rejects, whatever the method.  With the parsed
    [updateData], it answers a PUT request with status 200 and the text
    [JSON.stringify] makes of [{id: 1, ...updateData, updated: true}]:
    [updated] is always true, [id] is the posted one if there is one and
    1 otherwise, every other own property of [updateData] is kept as
    parsed (an array contributes its elements under their indices, a
    string its code units), and nothing else is added.  For any other
    method its [expect] throws and nothing is answered. *)
Theorem put_route_merges_update (request : Request) :
  match JSON_parse (body_or_braces (postData request)) with
  | None => put_route request = Threw SyntaxError
  | Some updateData =>
      (method request = "PUT" →
       ∃ b : gmap jsstring JSON,
         put_route request
         = Fulfilled {| status := 200; contentType := "application/json";
                        body := JSON_stringify (JObj b) |} ∧
         b !! lit "updated" = Some (JBool true) ∧
         b !! lit "id"
         = Some (default (JNum (num 1)) (spread updateData !! lit "id")) ∧
         (∀ k, k ≠ lit "updated" → k ≠ lit "id" → b !! k = spread updateData !! k)) ∧
      (method request ≠ "PUT" →
       put_route request = Threw (AssertionError "method"))
  end.
Proof.
  unfold put_route.
  destruct (JSON_parse (body_or_braces (postData request))) as [updateData|];
    [| reflexivity].
  split.
  - intros Hm. rewrite Hm. eexists. split; [reflexivity |]. apply update_fields.
  - intros Hm.
    destruct (String.eqb_spec (method request) "PUT"); [done | reflexivity].
Qed.

End Routes.

Section RoutesExamples.
Import Interceptor Routes.
Local Existing Instance ExampleEngine.
Local Existing Instance ExampleCodec.

(** The scenario's request. *)
Lemma put_route_scenario :
  put_route (mkRequest "PUT"
               (Some (Document (JObj (<["name" := JStr "Updated Name"]> ∅)))))
  = Fulfilled {| status := 200; contentType := "application/json";
                 body := Document
                           (JObj (<["updated" := JBool true]>
                                    (<["name" := JStr "Updated Name"]>
                                       (<["id" := JNum (num 1)]> ∅)))) |}.
Proof.
  reflexivity.
Qed.

(** A string that is sent as the body is spread unit by unit. *)
Lemma put_route_spreads_a_string :
  ∃ b : gmap jsstring JSON,
    put_route (mkRequest "PUT" (Some (Document (JStr "ok"))))
    = Fulfilled {| status := 200; contentType := "application/json";
                   body := Document (JObj b) |} ∧
    b !! "0" = Some (JStr "o") ∧ b !! "1" = Some (JStr "k").
Proof. eexists. split; [reflexivity |]. split; reflexivity. Qed.

Lemma login_route_scenarios :
  login_route (mkRequest "POST"
                 (Some (Document (JObj (<["password" := JStr "admin123"]>
                                          (<["username" := JStr "admin"]> ∅))))))
  = Fulfilled granted ∧
  login_route (mkRequest "POST" None) = Fulfilled denied ∧
  login_route (mkRequest "POST" (Some (Document JNull))) = Threw TypeError ∧
  login_route (mkRequest "POST" (Some (Document (JArr [])))) = Fulfilled denied ∧
  login_route (mkRequest "POST" (Some (Other "username=admin&password=admin123")))
  = Threw SyntaxError.
Proof. repeat split. Qed.

End RoutesExamples.

(** ** The tests that run a strategy *)

Section SolidTests.
Import SOLID SOLIDTests.
Context `{B : Browser}.

(** A call on the first match that returns has found a match and acted. *)
Lemma interact_first_inv (a : Action) (l : Locator) (s s1 : St) :
  interact_first a l s = Ok tt s1 →
  (0 < length (resolve (world s) l))%nat ∧
  perform (world s) a = Some (world s1) ∧
  heap s1 = heap s ∧
  trace s1 = trace s ++ [Resolved l; Did a].
Proof.
  unfold interact_first, log, with_world.
  destruct (resolve (world s) l) as [|e r]; try discriminate.
  destruct (perform (world s) a) as [w|]; try discriminate.
  intros H. inversion H; subst; clear H. cbn.
  split; [lia |]. by rewrite <- app_assoc.
Qed.

(** X14. [CheckoutTest.run] with the abstract [NotificationService]
    never returns, whatever the page; and when the checkout page loads
    and the confirm button is its one match, the purchase is confirmed
    first and only then the "not implemented" error is raised. *)
Theorem checkout_with_abstract_service_confirms_then_raises
    (notificationService : Obj) (page : Page) (s : St) :
  raised (CheckoutTest_run NotificationService notificationService (VPage page) s)
  = true ∧
  (∀ (w1 w2 : World) (e : Element),
     perform (world s) (Goto page "/checkout") = Some w1 →
     resolve w1 (page_locator page "#confirm-purchase") = [e] →
     perform w1 (Click (page_locator page "#confirm-purchase")) = Some w2 →
     ∃ s', CheckoutTest_run NotificationService notificationService (VPage page) s
           = Fault (Error "Notification service not implemented") s' ∧
           world s' = w2 ∧
           added s s' [Did (Goto page "/checkout");
                       Did (Click (page_locator page "#confirm-purchase"))]).
Proof.
  unfold CheckoutTest_run, call, page_click.
  cbn [lookup_method declares String.eqb Ascii.eqb Bool.eqb arg_page].
  unfold_script. split.
  - destruct (perform (world s) (Goto page "/checkout")) as [w1|];
      [| by destruct (times_out (world s) (Goto page "/checkout"))].
    cbn [world]. destruct (resolve w1 _) as [|e r]; try reflexivity.
    destruct (perform w1 _); reflexivity.
  - intros w1 w2 e Hg Hr Hc. run.
    eexists. split; [reflexivity |]. split; [reflexivity |].
    eexists. cbn [trace]. rewrite <- !app_assoc. split; reflexivity.
Qed.

(** X15. [CheckoutTest.run] notifies only after the purchase: whatever
    the notification service, when the checkout page loads but has no
    confirm button the run raises a time-out and nothing has been sent,
    neither a console line nor an API post. *)
Theorem checkout_without_purchase_sends_nothing
    (C : Class) (notificationService : Obj) (page : Page) (s : St) (w1 : World) :
  perform (world s) (Goto page "/checkout") = Some w1 →
  resolve w1 (page_locator page "#confirm-purchase") = [] →
  ∃ s' evs,
    CheckoutTest_run C notificationService (VPage page) s = Fault TimeoutError s' ∧
    trace s' = trace s ++ evs ∧
    no_notification evs.
Proof.
  intros Hg Hr. unfold CheckoutTest_run, page_click. cbn [arg_page].
  unfold_script. run.
  eexists _, _. split; [reflexivity |]. cbn [trace]. rewrite <- !app_assoc.
  split; [reflexivity |]. repeat constructor.
Qed.

(** X16. Whenever [LoginTest.run(page)] with a
    [UsernamePasswordAuth(username, password)] strategy returns, it has
    filled [#username] with the user name given to the constructor, then
    [#password] with the password, then clicked [#login], and has done
    nothing else to the page. *)
Theorem login_test_with_password_strategy
    (username password : string) (page : Page) (s s' : St) (v : Val) :
  LoginTest_run UsernamePasswordAuth (new_UsernamePasswordAuth username password)
                (VPage page) s = Ok v s' →
  ∃ s1 s2,
    stepped true (Fill (page_locator page "#username") username) s s1 ∧
    stepped true (Fill (page_locator page "#password") password) s1 s2 ∧
    stepped true (Click (page_locator page "#login")) s2 s' ∧
    v = VUndefined.
Proof.
  assert (Hu : get "username" (new_UsernamePasswordAuth username password)
               = VStr username) by (vm_compute; reflexivity).
  assert (Hp : get "password" (new_UsernamePasswordAuth username password)
               = VStr password) by (vm_compute; reflexivity).
  assert (Hstep : ∀ (a : Action) (l : Locator) (s0 s1 : St),
            user_facing (Did a) = true → interact_first a l s0 = Ok tt s1 →
            stepped true a s0 s1).
  { intros a l s0 s1 Ha Hi.
    apply interact_first_inv in Hi as (_ & Hpf & Hh & Ht).
    repeat split; [exact Hpf | exact Hh |].
    exists [Resolved l; Did a]. split; [exact Ht |].
    cbn [List.filter]. rewrite Ha. reflexivity. }
  intros H. unfold LoginTest_run, call in H.
  cbn [lookup_method declares String.eqb Ascii.eqb Bool.eqb] in H.
  rewrite Hu, Hp in H. cbn [arg_page page_fill] in H. unfold page_click in H.
  cbn zeta in H.
  apply bind_inv in H as (r & s3 & H & Hret). injection Hret as <- <-.
  apply bind_inv in H as (p & s0 & Hpg & H). injection Hpg as <- <-.
  apply bind_inv in H as ([] & s1 & H1 & H).
  apply bind_inv in H as ([] & s2 & H2 & H).
  apply bind_inv in H as ([] & s4 & H3 & H). injection H as <- <-.
  exists s1, s2.
  split; [by eapply Hstep |]. split; [by eapply Hstep |].
  split; [by eapply Hstep | reflexivity].
Qed.

End SolidTests.

Section SolidTestsExamples.
Import SOLID SOLIDTests.
Local Existing Instance StaticPage.

(** X15, witness: a console notifier and a page without the button. *)
Lemma checkout_without_purchase_sends_nothing_witness :
  ∃ s' evs,
    CheckoutTest_run ConsoleNotificationService (blank "ConsoleNotificationService")
                     (VPage 0) (start blank_page)
    = Fault TimeoutError s' ∧
    trace s' = trace (start blank_page) ++ evs ∧
    no_notification evs.
Proof.
  apply (checkout_without_purchase_sends_nothing ConsoleNotificationService
           (blank "ConsoleNotificationService") 0 (start blank_page) blank_page).
  - reflexivity.
  - reflexivity.
Defined.

(** With the button there, the console notifier writes its line last. *)
Lemma checkout_with_console_notifier :
  trace (final (CheckoutTest_run ConsoleNotificationService
                  (blank "ConsoleNotificationService") (VPage 0) (start full_page)))
  = [Did (Goto 0 "/checkout");
     Resolved (page_locator 0 "#confirm-purchase");
     Did (Click (page_locator 0 "#confirm-purchase"));
     Console "NOTIFICATION: Purchase completed successfully!"].
Proof. vm_compute. reflexivity. Qed.

(** X16, witness: the strategy of the scenario. *)
Lemma login_test_with_password_strategy_witness :
  ∃ s1 s2,
    stepped true (Fill (page_locator 0 "#username") "user") (start full_page) s1 ∧
    stepped true (Fill (page_locator 0 "#password") "password") s1 s2 ∧
    stepped true (Click (page_locator 0 "#login")) s2
      (final (LoginTest_run UsernamePasswordAuth
                (new_UsernamePasswordAuth "user" "password") (VPage 0)
                (start full_page))) ∧
    VUndefined = VUndefined.
Proof.
  apply (login_test_with_password_strategy "user" "password" 0 (start full_page)
           (final (LoginTest_run UsernamePasswordAuth
                     (new_UsernamePasswordAuth "user" "password") (VPage 0)
                     (start full_page)))
           VUndefined).
  vm_compute. reflexivity.
Defined.

End SolidTestsExamples.

Section MoreWitnesses.
Import Interceptor Routes SOLID SOLIDTests.
Local Existing Instance ExampleEngine.
Local Existing Instance ExampleCodec.

(** X13, witness: the request of the scenario. *)
Lemma put_route_merges_update_witness :
  let updateData := JObj (<["name" := JStr "Updated Name"]> ∅) in
  let request := mkRequest "PUT" (Some (Document updateData)) in
  ∃ b : gmap jsstring JSON,
    put_route request
    = Fulfilled {| status := 200; contentType := "application/json";
                   body := JSON_stringify (JObj b) |} ∧
    b !! lit "updated" = Some (JBool true) ∧
    b !! lit "id" = Some (default (JNum (num 1)) (spread updateData !! lit "id")) ∧
    (∀ k, k ≠ lit "updated" → k ≠ lit "id" → b !! k = spread updateData !! k).
Proof.
  intros updateData request.
  apply (proj1 (put_route_merges_update request)). reflexivity.
Defined.

(** X14, witness: a checkout page with the confirm button. *)
Lemma checkout_with_abstract_service_confirms_then_raises_witness :
  ∃ s', CheckoutTest_run (B := StaticPage) NotificationService
          (blank "NotificationService") (VPage 0) (start full_page)
        = Fault (Error "Notification service not implemented") s' ∧
        world s' = full_page ∧
        added (start full_page) s'
          [Did (Goto 0 "/checkout");
           Did (Click (page_locator 0 "#confirm-purchase"))].
Proof.
  apply (proj2 (checkout_with_abstract_service_confirms_then_raises
                  (B := StaticPage) (blank "NotificationService") 0 (start full_page))
           full_page full_page (mkElement "text" true)).
  - reflexivity.
  - reflexivity.
  - reflexivity.
Defined.

End MoreWitnesses.
